(** * Sound enhancer: processors and routing graph

    A shallow embedding of the DSP processors
    ([audio_processing/processors.py]) and of the routing layer
    ([core/audio_router.py], [core/virtual_devices.py],
    [core/audio_devices.py]), with the properties of the specification
    stated and settled against it.

    Numbers.  The Python code computes on NumPy [float64] values.  [Num]
    gives the samples as exact rationals extended with the IEEE special
    values the code can produce (signed infinity and NaN, which NumPy
    returns for a division by zero instead of raising), with the exact
    operations.  [Float64] gives the operations as the machine performs
    them, each rounding the exact result to binary64.  What depends on
    rounding or overflow, the stereo widening, is stated over [Float64];
    the exact operations serve where a property rests on comparisons, on
    zeros and on the shape of the computation, which rounding leaves as
    they are.  The sign of a zero is not modelled. *)

From Stdlib Require Import QArith Qabs Qround Qpower Qreduction Lqa ZArith Lia Floats.
From stdpp Require Import gmap strings list.

Set Default Proof Using "Type".

(** ** Python exceptions and results *)

Inductive exn : Type :=
| ValueError
| IndexError
| TypeError.

Inductive result (A : Type) : Type :=
| Ok (a : A)
| Raise (e : exn).
Arguments Ok {A} a.
Arguments Raise {A} e.

(** ** Samples: NumPy scalars *)

Module Num.
Local Open Scope Q_scope.

Inductive sample : Type :=
| Finite (q : Q)
| Infinity (neg : bool)
| NaN.

Definition zero : sample := Finite 0.
Definition one : sample := Finite 1.

Definition Qneg (q : Q) : bool := (Qnum q <? 0)%Z.
Definition Qzero (q : Q) : bool := (Qnum q =? 0)%Z.

Definition is_finite (x : sample) : bool :=
  match x with Finite _ => true | _ => false end.

Definition opp (x : sample) : sample :=
  match x with
  | Finite a => Finite (- a)
  | Infinity s => Infinity (negb s)
  | NaN => NaN
  end.

Definition add (x y : sample) : sample :=
  match x, y with
  | NaN, _ | _, NaN => NaN
  | Finite a, Finite b => Finite (a + b)
  | Infinity s, Infinity t => if Bool.eqb s t then Infinity s else NaN
  | Infinity s, Finite _ | Finite _, Infinity s => Infinity s
  end.

Definition sub (x y : sample) : sample := add x (opp y).

Definition mul (x y : sample) : sample :=
  match x, y with
  | NaN, _ | _, NaN => NaN
  | Finite a, Finite b => Finite (a * b)
  | Infinity s, Infinity t => Infinity (xorb s t)
  | Infinity s, Finite b | Finite b, Infinity s =>
      if Qzero b then NaN else Infinity (xorb s (Qneg b))
  end.

(** NumPy true division: a zero divisor gives an infinity, or NaN for
    0/0, with a warning and no exception. *)
Definition div (x y : sample) : sample :=
  match x, y with
  | NaN, _ | _, NaN => NaN
  | Finite a, Finite b =>
      if Qzero b then (if Qzero a then NaN else Infinity (Qneg a))
      else Finite (a / b)
  | Finite _, Infinity _ => Finite 0
  | Infinity s, Finite b => Infinity (xorb s (Qneg b))
  | Infinity _, Infinity _ => NaN
  end.

(** [np.abs] *)
Definition abs (x : sample) : sample :=
  match x with
  | Finite a => Finite (Qabs a)
  | Infinity _ => Infinity false
  | NaN => NaN
  end.

(** [x < y]; every comparison with NaN is false. *)
Definition ltb (x y : sample) : bool :=
  match x, y with
  | NaN, _ | _, NaN => false
  | Finite a, Finite b => negb (Qle_bool b a)
  | Finite _, Infinity s => negb s
  | Infinity s, Finite _ => s
  | Infinity s, Infinity t => s && negb t
  end.

Definition gtb (x y : sample) : bool := ltb y x.

(** [np.maximum], [np.minimum]: NaN propagates. *)
Definition maximum (x y : sample) : sample :=
  match x, y with
  | NaN, _ | _, NaN => NaN
  | _, _ => if ltb x y then y else x
  end.

Definition minimum (x y : sample) : sample :=
  match x, y with
  | NaN, _ | _, NaN => NaN
  | _, _ => if ltb y x then y else x
  end.

(** [np.clip(x, lo, hi)] *)
Definition clip (x lo hi : sample) : sample := minimum (maximum x lo) hi.

(** Python's builtin [max(a, b)] and [min(a, b)] on two arguments: the
    first argument is kept unless the second is strictly better. *)
Definition py_max (a b : sample) : sample := if gtb b a then b else a.
Definition py_min (a b : sample) : sample := if ltb b a then b else a.

(** Same value: rationals up to [Qeq], special values as they are. *)
Definition same (x y : sample) : Prop :=
  match x, y with
  | Finite a, Finite b => a == b
  | Infinity s, Infinity t => s = t
  | NaN, NaN => True
  | _, _ => False
  end.

Definition sameb (x y : sample) : bool :=
  match x, y with
  | Finite a, Finite b => Qeq_bool a b
  | Infinity s, Infinity t => Bool.eqb s t
  | NaN, NaN => true
  | _, _ => false
  end.

(** [|x| <= 1] for a finite sample. *)
Definition within_unit (x : sample) : Prop :=
  match x with
  | Finite a => Qabs a <= 1
  | _ => False
  end.

End Num.
Import Num.

(** ** Arrays

    An audio buffer is a NumPy array of rank one, [Mono xs] of shape
    [(n,)] (the test vectors), or of rank two, [Frames c rows] of shape
    [(length rows, c)] (frames by channels, what the stream callback
    passes).  [ndarray] adds the rank-three arrays that broadcasting can
    produce from a buffer. *)

Inductive buffer : Type :=
| Mono (xs : list sample)
| Frames (ncols : nat) (rows : list (list sample)).

Inductive ndarray : Type :=
| Arr1 (xs : list sample)
| Arr2 (ncols : nat) (rows : list (list sample))
| Arr3 (planes : list (list (list sample))).

Definition of_buffer (b : buffer) : ndarray :=
  match b with
  | Mono xs => Arr1 xs
  | Frames c rows => Arr2 c rows
  end.


(** [data.size] *)
Definition size (b : buffer) : nat :=
  match b with
  | Mono xs => length xs
  | Frames c rows => length rows * c
  end.

(** An elementwise operation with a scalar, such as [data * g]. *)
Definition bmap (f : sample -> sample) (b : buffer) : buffer :=
  match b with
  | Mono xs => Mono (map f xs)
  | Frames c rows => Frames c (map (map f) rows)
  end.


Definition same_array (a b : ndarray) : Prop :=
  match a, b with
  | Arr1 xs, Arr1 ys => Forall2 same xs ys
  | Arr2 c rows, Arr2 d rows' => c = d /\ Forall2 (Forall2 same) rows rows'
  | Arr3 p, Arr3 p' => Forall2 (Forall2 (Forall2 same)) p p'
  | _, _ => False
  end.

(** [np.max] of the scalars of an array: raises on an empty array,
    propagates NaN. *)
Definition np_max (xs : list sample) : result sample :=
  match xs with
  | [] => Raise ValueError
  | x :: rest => Ok (fold_left maximum rest x)
  end.

(** [data[:, k]] of a rank-two array. *)
Definition column (k : nat) (rows : list (list sample)) : list sample :=
  map (fun r => nth k r NaN) rows.

(** [np.column_stack((left, right))] *)
Definition column_stack (left right : list sample) : list (list sample) :=
  zip_with (fun l r => [l; r]) left right.

(** ** The processor base class *)

Module AudioProcessor.

Record t : Type := {
  enabled : bool;
  sample_rate : option sample;
  channels : option Z;
  blocksize : option Z
}.

Definition __init__ : t :=
  {| enabled := true; sample_rate := None; channels := None; blocksize := None |}.

Definition enable (self : t) : t :=
  {| enabled := true; sample_rate := sample_rate self;
     channels := channels self; blocksize := blocksize self |}.

Definition disable (self : t) : t :=
  {| enabled := false; sample_rate := sample_rate self;
     channels := channels self; blocksize := blocksize self |}.

(** [process]: the enabled check in front of a subclass's [_process_impl];
    [ret] is how the unprocessed buffer reads in the result type. *)
Definition process {R : Type} (self : t) (impl : buffer -> result R)
    (ret : buffer -> R) (data : buffer) : result R :=
  if negb (enabled self) then Ok (ret data) else impl data.

Definition toggle (self : t) : t :=
  {| enabled := negb (enabled self); sample_rate := sample_rate self;
     channels := channels self; blocksize := blocksize self |}.

End AudioProcessor.

(** ** NoiseReducer *)

Module NoiseReducer.

Record t : Type := {
  base : AudioProcessor.t;
  threshold : sample
}.

Definition __init__ (threshold : sample) : t :=
  {| base := AudioProcessor.__init__; threshold := threshold |}.

Definition set_threshold (self : t) (threshold : sample) : t :=
  {| base := base self; threshold := py_max zero (py_min one threshold) |}.

(** One entry of [soft_mask]; the hard [mask = magnitude > threshold] is
    computed by the source and never read. *)
Definition soft_mask (threshold x : sample) : sample :=
  clip (div (sub (abs x) threshold) threshold) zero one.

(** For a rank-one buffer the mask multiplies the data elementwise.  For
    a rank-two buffer of shape (F, C) the mask is indexed as
    [soft_mask[:, np.newaxis]], of shape (F, 1, C), and the product with
    the data, read as (1, F, C), broadcasts to shape (F, F, C):
    entry [i][j][c] is [data[j][c] * soft_mask[i][c]]. *)
Definition _process_impl (self : t) (data : buffer) : result ndarray :=
  match data with
  | Mono xs =>
      let soft := map (soft_mask (threshold self)) xs in
      Ok (Arr1 (zip_with mul xs soft))
  | Frames c rows =>
      let soft := map (map (soft_mask (threshold self))) rows in
      Ok (Arr3 (map (fun mask_i => map (fun data_j => zip_with mul data_j mask_i) rows) soft))
  end.

Definition process (self : t) (data : buffer) : result ndarray :=
  AudioProcessor.process (base self) (_process_impl self) of_buffer data.

(** [disable], inherited from the base class. *)
Definition disable (self : t) : t :=
  {| base := AudioProcessor.disable (base self); threshold := threshold self |}.

End NoiseReducer.

(** ** SpatialEnhancer *)

Module SpatialEnhancer.

Record t : Type := {
  base : AudioProcessor.t;
  width : sample
}.

Definition __init__ (width : sample) : t :=
  {| base := AudioProcessor.__init__; width := py_max zero (py_min one width) |}.

Definition set_width (self : t) (width : sample) : t :=
  {| base := base self; width := py_max zero (py_min one width) |}.

Definition two : sample := Finite 2.

Definition _process_impl (self : t) (data : buffer) : result buffer :=
  match data with
  | Mono _ => Raise IndexError            (* data.shape[1] on a rank-one array *)
  | Frames c rows =>
      if negb (c =? 2)%nat then Ok data
      else
        let mid := zip_with (fun l r => div (add l r) two) (column 0 rows) (column 1 rows) in
        let side := zip_with (fun l r => div (sub l r) two) (column 0 rows) (column 1 rows) in
        let side := map (fun s => mul s (add one (width self))) side in
        let left := zip_with add mid side in
        let right := zip_with sub mid side in
        let result := column_stack left right in
        match np_max (map abs (concat result)) with
        | Raise e => Raise e
        | Ok max_val =>
            if gtb max_val one
            then Ok (Frames 2 (map (map (fun x => div x max_val)) result))
            else Ok (Frames 2 result)
        end
  end.

Definition process (self : t) (data : buffer) : result buffer :=
  AudioProcessor.process (base self) (_process_impl self) id data.

(** [disable], inherited from the base class. *)
Definition disable (self : t) : t :=
  {| base := AudioProcessor.disable (base self); width := width self |}.

End SpatialEnhancer.

(** The frame computation of the spatial enhancer on the machine's own
    binary64 numbers. *)
Module Binary64.

Definition left_of (width l r : float) : float :=
  ((l + r) / 2 + ((l - r) / 2) * (1 + width))%float.

Definition right_of (width l r : float) : float :=
  ((l + r) / 2 - ((l - r) / 2) * (1 + width))%float.

End Binary64.

(** ** binary64 arithmetic

    NumPy computes each operation on [float64] values as IEEE 754
    prescribes: the exact result, rounded to the nearest binary64 number,
    ties to even.  A binary64 number has 53 significant bits; below
    2^-1022 the numbers are the multiples of 2^-1074 (gradual underflow);
    a result that rounds to 2^1024 or beyond overflows to the infinity of
    its sign.  The sign of a zero is not kept. *)

Module Float64.
Local Open Scope Q_scope.

Definition pow2 (k : Z) : Q := 2 ^ k.

(** For [q > 0], the exponent [e] with [2^e <= q < 2^(e+1)]. *)
Definition binade (q : Q) : Z :=
  let e := (Z.log2 (Qnum q) - Z.log2 (Zpos (Qden q)))%Z in
  if Qle_bool (pow2 e) q then e else (e - 1)%Z.

(** The integer nearest to [q], the even one of the two when [q] is
    halfway. *)
Definition nearest_even (q : Q) : Z :=
  let f := Qfloor q in
  match Qcompare (q - inject_Z f) (1 # 2) with
  | Lt => f
  | Gt => (f + 1)%Z
  | Eq => if Z.even f then f else (f + 1)%Z
  end.

(** The spacing of the binary64 numbers around [q]. *)
Definition ulp (q : Q) : Q := pow2 (Z.max (binade (Qabs q) - 52) (-1074)).

Definition round_finite (q : Q) : sample :=
  if Qzero q then Finite 0
  else
    let r := inject_Z (nearest_even (q / ulp q)) * ulp q in
    if Qle_bool (pow2 1024) (Qabs r) then Infinity (Qneg q) else Finite (Qred r).

Definition round (x : sample) : sample :=
  match x with
  | Finite q => round_finite q
  | _ => x
  end.

Definition add (x y : sample) : sample := round (Num.add x y).
Definition sub (x y : sample) : sample := round (Num.sub x y).
Definition mul (x y : sample) : sample := round (Num.mul x y).
Definition div (x y : sample) : sample := round (Num.div x y).

(** The value of a machine float. *)
Definition of_float (f : float) : sample :=
  match Prim2SF f with
  | S754_zero _ => Finite 0
  | S754_infinity s => Infinity s
  | S754_nan => NaN
  | S754_finite s m e =>
      Finite (Qred ((if s then - inject_Z (Zpos m) else inject_Z (Zpos m)) * pow2 e))
  end.

(** [SpatialEnhancer._process_impl] on a [float64] buffer: the same
    statements, every operation rounding.  Comparisons, [np.abs] and
    [np.max] are exact. *)
Definition two : sample := Finite 2.

Definition _process_impl (self : SpatialEnhancer.t) (data : buffer) : result buffer :=
  match data with
  | Mono _ => Raise IndexError            (* data.shape[1] on a rank-one array *)
  | Frames c rows =>
      if negb (c =? 2)%nat then Ok data
      else
        let mid := zip_with (fun l r => div (add l r) two) (column 0 rows) (column 1 rows) in
        let side := zip_with (fun l r => div (sub l r) two) (column 0 rows) (column 1 rows) in
        let side := map (fun s => mul s (add one (SpatialEnhancer.width self))) side in
        let left := zip_with add mid side in
        let right := zip_with sub mid side in
        let result := column_stack left right in
        match np_max (map abs (concat result)) with
        | Raise e => Raise e
        | Ok max_val =>
            if gtb max_val one
            then Ok (Frames 2 (map (map (fun x => div x max_val)) result))
            else Ok (Frames 2 result)
        end
  end.

Definition process (self : SpatialEnhancer.t) (data : buffer) : result buffer :=
  AudioProcessor.process (SpatialEnhancer.base self) (_process_impl self) id data.

(** One frame of the widening, read off the column computation. *)
Definition left_of (width l r : sample) : sample :=
  add (div (add l r) two) (mul (div (sub l r) two) (add one width)).

Definition right_of (width l r : sample) : sample :=
  sub (div (add l r) two) (mul (div (sub l r) two) (add one width)).


End Float64.

(** Buffers of finite samples, and of samples within unit magnitude. *)
Definition all_finite (xs : list sample) : Prop :=
  Forall (fun x => is_finite x = true) xs.



(** The scalars of a buffer, in storage order. *)
Definition samples_of (b : buffer) : list sample :=
  match b with
  | Mono xs => xs
  | Frames _ rows => concat rows
  end.

(** ** Equalizer *)

(** The filter kinds asked of [scipy.signal.butter]. *)
Inductive btype : Type := Low | High | Band.

(** A biquad as SciPy returns it: numerator [b] and denominator [a]. *)
Definition coefficients : Type := (list sample * list sample)%type.

(** What the equalizer takes from outside this repository: NumPy's
    [log10] and [logspace], the power [10 ** x], SciPy's [butter] (which
    raises on a critical frequency outside (0, 1)), and the optional
    native backend with the calls made on it, each giving the state the
    backend is left in and whether the call raised.  Of [logspace] it is
    known that it returns [num] samples. *)
Class Externals : Type := {
  log10 : sample -> sample;
  logspace : sample -> sample -> Z -> list sample;
  pow10 : sample -> sample;
  butter : nat -> list sample -> btype -> result coefficients;
  logspace_length : forall start stop num, length (logspace start stop num) = Z.to_nat num;
  Native : Type;
  native_set_gains : Native -> list sample -> Native * result unit;
  native_set_bands : Native -> Z -> Native * result unit;
  native_set_output_gain : Native -> sample -> Native * result unit;
  native_process : Native -> buffer -> Native * result buffer
}.

Module Equalizer.
Section WithExternals.
Context `{Externals}.

Record t : Type := {
  base : AudioProcessor.t;
  bands : Z;
  _native : option Native;
  min_freq : sample;
  max_freq : sample;
  frequencies : list sample;
  gains : list sample;
  _smoothed_gains : list sample;
  _smoothing_tau_sec : sample;
  _alpha : sample;
  _epsilon_db : sample;
  _needs_update : bool;
  output_gain_db : sample;
  filters : list coefficients
}.

Definition with_filters (self : t) (fs : list coefficients) : t :=
  {| base := base self; bands := bands self; _native := _native self;
     min_freq := min_freq self; max_freq := max_freq self;
     frequencies := frequencies self; gains := gains self;
     _smoothed_gains := _smoothed_gains self;
     _smoothing_tau_sec := _smoothing_tau_sec self; _alpha := _alpha self;
     _epsilon_db := _epsilon_db self; _needs_update := _needs_update self;
     output_gain_db := output_gain_db self; filters := fs |}.

Definition with_native (self : t) (n : option Native) : t :=
  {| base := base self; bands := bands self; _native := n;
     min_freq := min_freq self; max_freq := max_freq self;
     frequencies := frequencies self; gains := gains self;
     _smoothed_gains := _smoothed_gains self;
     _smoothing_tau_sec := _smoothing_tau_sec self; _alpha := _alpha self;
     _epsilon_db := _epsilon_db self; _needs_update := _needs_update self;
     output_gain_db := output_gain_db self; filters := filters self |}.

Definition scale (v : list sample) (gain : sample) : list sample :=
  map (fun x => mul x gain) v.

(** The body of the loop of [update_filters] for band [i] at [freq]:
    [Ok None] is the [continue] of a band within 0.1 dB of flat. *)
Definition design (self : t) (gains : list sample) (i : nat) (freq : sample)
    : result (option coefficients) :=
  match gains !! i with
  | None => Raise IndexError
  | Some g =>
      if ltb (abs g) (Finite (1 # 10)) then Ok None
      else
        match AudioProcessor.sample_rate (base self) with
        | None => Raise TypeError
        | Some sr =>
            let gain := pow10 (div g (Finite 20)) in
            let Q_factor := one in
            let nyquist := div sr (Finite 2) in
            let designed :=
              if (i =? 0)%nat then butter 2 [div freq nyquist] Low
              else if (Z.of_nat i =? bands self - 1)%Z then butter 2 [div freq nyquist] High
              else
                let bandwidth := div freq Q_factor in
                butter 2 [div (sub freq (div bandwidth (Finite 2))) nyquist;
                          div (add freq (div bandwidth (Finite 2))) nyquist] Band in
            match designed with
            | Raise e => Raise e
            | Ok (b, a) =>
                if gtb g zero then Ok (Some (scale b gain, a))
                else Ok (Some (b, scale a gain))
            end
        end
  end.

(** What the loop body asks of [butter] for band [i] at [freq]: the
    critical frequencies and the kind of filter. *)
Definition butter_request (self : t) (sr : sample) (i : nat) (freq : sample)
    : list sample * btype :=
  let nyquist := div sr (Finite 2) in
  if (i =? 0)%nat then ([div freq nyquist], Low)
  else if (Z.of_nat i =? bands self - 1)%Z then ([div freq nyquist], High)
  else
    let bandwidth := div freq one in
    ([div (sub freq (div bandwidth (Finite 2))) nyquist;
      div (add freq (div bandwidth (Finite 2))) nyquist], Band).

(** The loop over [enumerate(self.frequencies)], from index [i], with the
    filters appended so far; an exception leaves them as they are. *)
Fixpoint design_all (self : t) (gains : list sample) (i : nat)
    (freqs : list sample) (acc : list coefficients)
    : list coefficients * result unit :=
  match freqs with
  | [] => (acc, Ok tt)
  | freq :: rest =>
      match design self gains i freq with
      | Raise e => (acc, Raise e)
      | Ok None => design_all self gains (S i) rest acc
      | Ok (Some c) => design_all self gains (S i) rest (acc ++ [c])
      end
  end.

Definition update_filters (self : t) (given : option (list sample)) : t * result unit :=
  let gains := match given with None => gains self | Some g => g end in
  let '(fs, r) := design_all self gains 0 (frequencies self) [] in
  let self := with_filters self fs in
  match r with
  | Raise e => (self, Raise e)
  | Ok _ =>
      match _native self with
      | Some n => (with_native self (Some (native_set_gains n gains).1), Ok tt)
      | None => (self, Ok tt)
      end
  end.

(** [np.zeros(n)] *)
Definition zeros (n : Z) : list sample := replicate (Z.to_nat n) zero.

(** The attributes as the constructor assigns them, before the first
    [update_filters]; the native backend is discarded whatever the import
    gave. *)
Definition initial (sample_rate : sample) (bands : Z) : t :=
  {| base := {| AudioProcessor.enabled := true;
                AudioProcessor.sample_rate := Some sample_rate;
                AudioProcessor.channels := None;
                AudioProcessor.blocksize := None |};
     bands := bands;
     _native := None;
     min_freq := Finite 20;
     max_freq := Finite 20000;
     frequencies := logspace (log10 (Finite 20)) (log10 (Finite 20000)) bands;
     gains := zeros bands;
     _smoothed_gains := zeros bands;
     _smoothing_tau_sec := Finite (3 # 100);
     _alpha := Finite (2 # 10);
     _epsilon_db := Finite (5 # 100);
     _needs_update := true;
     output_gain_db := zero;
     filters := [] |}.

(** The constructor; a negative band count is refused by NumPy. *)
Definition __init__ (sample_rate : sample) (bands : Z) : result t :=
  if (bands <? 0)%Z then Raise ValueError
  else
    match update_filters (initial sample_rate bands) None with
    | (self, Ok _) => Ok self
    | (_, Raise e) => Raise e
    end.

Definition set_gain (self : t) (band : Z) (gain_db : sample) : t * result unit :=
  if ((band <? 0) || (band >=? bands self))%Z then (self, Raise ValueError)
  else if negb (Z.to_nat band <? length (gains self))%nat then (self, Raise IndexError)
  else
    let gains' := <[Z.to_nat band := gain_db]> (gains self) in
    ({| base := base self; bands := bands self;
        _native := (fun n => (native_set_gains n gains').1) <$> _native self;
        min_freq := min_freq self; max_freq := max_freq self;
        frequencies := frequencies self; gains := gains';
        _smoothed_gains := _smoothed_gains self;
        _smoothing_tau_sec := _smoothing_tau_sec self; _alpha := _alpha self;
        _epsilon_db := _epsilon_db self; _needs_update := true;
        output_gain_db := output_gain_db self; filters := filters self |},
     Ok tt).

(** [dst[:k] = src[:k]] *)
Definition assign_prefix (k : nat) (src dst : list sample) : list sample :=
  take k src ++ drop k dst.

Definition set_bands (self : t) (requested : Z) : t * result unit :=
  let count := Z.max 1 requested in
  let old_gains := gains self in
  let new_gains := zeros count in
  let copy_count := Nat.min (length old_gains) (Z.to_nat count) in
  let new_gains :=
    if (0 <? copy_count)%nat then assign_prefix copy_count old_gains new_gains
    else new_gains in
  let self :=
    {| base := base self; bands := count; _native := _native self;
       min_freq := min_freq self; max_freq := max_freq self;
       frequencies := logspace (log10 (min_freq self)) (log10 (max_freq self)) count;
       gains := new_gains;
       _smoothed_gains := new_gains;
       _smoothing_tau_sec := _smoothing_tau_sec self; _alpha := _alpha self;
       _epsilon_db := _epsilon_db self; _needs_update := _needs_update self;
       output_gain_db := output_gain_db self; filters := filters self |} in
  match update_filters self (Some (_smoothed_gains self)) with
  | (self, Raise e) => (self, Raise e)
  | (self, Ok _) =>
      match _native self with
      | Some n =>
          let n :=
            match native_set_bands n (bands self) with
            | (n, Ok _) => (native_set_gains n (_smoothed_gains self)).1
            | (n, Raise _) => n
            end in
          (with_native self (Some n), Ok tt)
      | None => (self, Ok tt)
      end
  end.

Definition set_output_gain (self : t) (gain_db : sample) : t :=
  {| base := base self; bands := bands self;
     _native := (fun n => (native_set_output_gain n gain_db).1) <$> _native self;
     min_freq := min_freq self; max_freq := max_freq self;
     frequencies := frequencies self; gains := gains self;
     _smoothed_gains := _smoothed_gains self;
     _smoothing_tau_sec := _smoothing_tau_sec self; _alpha := _alpha self;
     _epsilon_db := _epsilon_db self; _needs_update := _needs_update self;
     output_gain_db := gain_db; filters := filters self |}.

Definition set_smoothing_time (self : t) (tau_seconds : sample) : t :=
  {| base := base self; bands := bands self; _native := _native self;
     min_freq := min_freq self; max_freq := max_freq self;
     frequencies := frequencies self; gains := gains self;
     _smoothed_gains := _smoothed_gains self;
     _smoothing_tau_sec := py_max zero tau_seconds; _alpha := _alpha self;
     _epsilon_db := _epsilon_db self; _needs_update := _needs_update self;
     output_gain_db := output_gain_db self; filters := filters self |}.

(** The loop [for band in range(self.bands): data *= self.gains[band]];
    an index error is caught and the data returned as scaled so far. *)
Fixpoint scale_by_gains (gains : list sample) (range : list nat) (data : buffer) : buffer :=
  match range with
  | [] => data
  | band :: rest =>
      match gains !! band with
      | Some g => scale_by_gains gains rest (bmap (fun x => mul x g) data)
      | None => data
      end
  end.

Definition _process_impl (self : t) (data : buffer) : buffer :=
  if ((bands self =? 0)%Z || (size data =? 0)%nat) then data
  else scale_by_gains (gains self) (seq 0 (Z.to_nat (bands self))) data.

(** [process] returns the equalizer along with the buffer: the only part
    of it a tick can change is the state of the native backend. *)
Definition process (self : t) (data : buffer) : t * buffer :=
  if negb (AudioProcessor.enabled (base self)) then (self, data)
  else
    match _native self with
    | Some n =>
        match native_process n data with
        | (n', Ok out) => (with_native self (Some n'), out)
        | (n', Raise _) => (with_native self (Some n'), data)
        end
    | None => (self, _process_impl self data)
    end.

(** [n] processing ticks on the buffers of [blocks], oldest first. *)
Fixpoint ticks (self : t) (blocks : list buffer) : t :=
  match blocks with
  | [] => self
  | data :: rest => ticks (fst (process self data)) rest
  end.

(** The gain arrays are sized by the band count. *)
Definition consistent (self : t) : Prop :=
  (0 <= bands self)%Z
  /\ length (gains self) = Z.to_nat (bands self)
  /\ length (_smoothed_gains self) = Z.to_nat (bands self).

(** A gain that [update_filters] takes for flat: within 0.1 dB of 0. *)
Definition is_flat (g : sample) : bool := ltb (abs g) (Finite (1 # 10)).

(** [disable], inherited from the base class. *)
Definition disable (self : t) : t :=
  {| base := AudioProcessor.disable (base self); bands := bands self;
     _native := _native self;
     min_freq := min_freq self; max_freq := max_freq self;
     frequencies := frequencies self; gains := gains self;
     _smoothed_gains := _smoothed_gains self;
     _smoothing_tau_sec := _smoothing_tau_sec self; _alpha := _alpha self;
     _epsilon_db := _epsilon_db self; _needs_update := _needs_update self;
     output_gain_db := output_gain_db self; filters := filters self |}.

(** The calls a host makes on an equalizer, and a run of them in order;
    a call that raises leaves the equalizer as the call left it. *)
Inductive call : Type :=
| Set_gain (band : Z) (gain_db : sample)
| Set_bands (requested : Z)
| Set_output_gain (gain_db : sample)
| Set_smoothing_time (tau_seconds : sample)
| Update_filters
| Process (data : buffer).

Definition step (self : t) (c : call) : t :=
  match c with
  | Set_gain band gain_db => (set_gain self band gain_db).1
  | Set_bands requested => (set_bands self requested).1
  | Set_output_gain gain_db => set_output_gain self gain_db
  | Set_smoothing_time tau_seconds => set_smoothing_time self tau_seconds
  | Update_filters => (update_filters self None).1
  | Process data => (process self data).1
  end.

Definition run (self : t) (calls : list call) : t := foldl step self calls.

End WithExternals.
End Equalizer.

(** An instance to run examples on: the frequency table is left as its
    evenly spaced exponents, no filter can be designed and there is no
    native backend. *)
Definition exponent_table (start stop : sample) (num : Z) : list sample :=
  map (fun i => add start (div (mul (Finite (inject_Z (Z.of_nat i))) (sub stop start))
                               (Finite (inject_Z (num - 1)))))
      (seq 0 (Z.to_nat num)).

Definition plain_externals : Externals := {|
  log10 := fun x => x;
  logspace := exponent_table;
  pow10 := fun x => x;
  butter := fun _ _ _ => Raise ValueError;
  logspace_length := fun start stop num =>
    eq_trans (length_map _ _) (length_seq _ _);
  Native := Empty_set;
  native_set_gains := fun n _ => (n, Ok tt);
  native_set_bands := fun n _ => (n, Ok tt);
  native_set_output_gain := fun n _ => (n, Ok tt);
  native_process := fun n data => (n, Ok data)
|}.

(** The same with a [butter] that checks its critical frequencies as
    SciPy's does for a digital filter, each inside (0, 1) and the two of a
    band in ascending order, and then designs the same filter whatever is
    asked. *)
Definition checking_butter (order : nat) (wn : list sample) (kind : btype)
    : result coefficients :=
  let inside x := ltb zero x && ltb x one in
  let designed := Ok ([one; zero; zero], [one; zero; zero]) in
  match kind, wn with
  | Band, [low; high] =>
      if inside low && inside high && ltb low high then designed else Raise ValueError
  | (Low | High), [w] => if inside w then designed else Raise ValueError
  | _, _ => Raise ValueError
  end.

Definition checking_externals : Externals := {|
  log10 := fun x => x;
  logspace := exponent_table;
  pow10 := fun x => x;
  butter := checking_butter;
  logspace_length := fun start stop num =>
    eq_trans (length_map _ _) (length_seq _ _);
  Native := Empty_set;
  native_set_gains := fun n _ => (n, Ok tt);
  native_set_bands := fun n _ => (n, Ok tt);
  native_set_output_gain := fun n _ => (n, Ok tt);
  native_process := fun n data => (n, Ok data)
|}.

(** ** Physical devices *)

Inductive direction : Type := Input | Output.

#[global] Instance direction_eq_dec : EqDecision direction.
Proof. solve_decision. Defined.

(** One entry of the device enumeration. *)
Record Device : Type := {
  index : Z;
  name : string;
  channels : Z;
  type : direction;
  sample_rate : Z
}.

(** Python truthiness of an optional device id: [None] and [0] are false. *)
Definition truthy (id : option Z) : bool :=
  match id with
  | Some z => negb (z =? 0)%Z
  | None => false
  end.

Module AudioDeviceManager.

(** [session_routes] is created by the first [route_session_to_device]. *)
Record t : Type := {
  devices : list Device;
  active_devices : gmap string Device;
  session_routes : option (gmap Z Z)
}.

Definition audio_types : list string :=
  ["game"; "others"; "system"; "chat"; "microphone"].

Definition find_device (self : t) (device_index : option Z) : option Device :=
  find (fun d => bool_decide (Some (index d) = device_index)) (devices self).

Definition set_device_for_audio_type (self : t) (audio_type : string)
    (device_index : option Z) : t * result bool :=
  if negb (bool_decide (audio_type ∈ audio_types)) then (self, Raise ValueError)
  else
    match find_device self device_index with
    | None => (self, Raise ValueError)
    | Some device =>
        if bool_decide (audio_type = "microphone") && negb (bool_decide (type device = Input))
        then (self, Raise ValueError)
        else if negb (bool_decide (audio_type = "microphone"))
                && negb (bool_decide (type device = Output))
        then (self, Raise ValueError)
        else
          ({| devices := devices self;
              active_devices := <[audio_type := device]> (active_devices self);
              session_routes := session_routes self |}, Ok true)
    end.

Definition get_device_for_audio_type (self : t) (audio_type : string)
    : result (option Device) :=
  if negb (bool_decide (audio_type ∈ audio_types)) then Raise ValueError
  else Ok (active_devices self !! audio_type).

Definition route_session_to_device (self : t) (pid : Z) (device_index : Z) : t * bool :=
  let table := default ∅ (session_routes self) in
  ({| devices := devices self;
      active_devices := active_devices self;
      session_routes := Some (<[pid := device_index]> table) |}, true).

(** What PyAudio reports of the device at one index. *)
Record DeviceInfo : Type := {
  info_name : string;
  maxInputChannels : Z;
  maxOutputChannels : Z;
  defaultSampleRate : Q
}.

(** Python's [int] of a number: truncation toward zero. *)
Definition int_of (q : Q) : Z := Z.quot (Qnum q) (Zpos (Qden q)).

(** The entry of direction [dir] for the device info at index [i]. *)
Definition entry (dir : direction) (count : DeviceInfo -> Z) (i : nat)
    (info : DeviceInfo) : Device :=
  {| index := Z.of_nat i; name := info_name info; channels := count info;
     type := dir; sample_rate := int_of (defaultSampleRate info) |}.

(** One of the two loops of [_enumerate_devices]: an entry of direction
    [dir] for every numbered device info that reports channels of that
    direction. *)
Definition entries (dir : direction) (count : DeviceInfo -> Z)
    (numbered : list (nat * DeviceInfo)) : list Device :=
  flat_map (fun '(i, info) =>
              if (0 <? count info)%Z then [entry dir count i info] else []) numbered.

(** The device infos from index [k] on, each with its index. *)
Definition numbered_from (k : nat) (infos : list DeviceInfo) : list (nat * DeviceInfo) :=
  imap (fun i info => (k + i, info)%nat) infos.

(** [_enumerate_devices] over the device infos at indices 0, 1, ...:
    the devices with output channels first, then those with input
    channels. *)
Definition _enumerate_devices (infos : list DeviceInfo) : list Device :=
  entries Output maxOutputChannels (numbered_from 0 infos)
  ++ entries Input maxInputChannels (numbered_from 0 infos).

Definition __init__ (infos : list DeviceInfo) : t :=
  {| devices := _enumerate_devices infos; active_devices := ∅; session_routes := None |}.

Definition get_output_devices (self : t) : list Device :=
  filter (fun d => type d = Output) (devices self).

Definition get_input_devices (self : t) : list Device :=
  filter (fun d => type d = Input) (devices self).

(** The loop of [refresh_devices] over [list(self.active_devices.keys())]. *)
Definition drop_stale (device_indices : list Z) (audio_types : list string)
    (active : gmap string Device) : gmap string Device :=
  foldl (fun active audio_type =>
           match active !! audio_type with
           | Some d =>
               if bool_decide (index d ∈ device_indices) then active
               else delete audio_type active
           | None => active
           end)
        active audio_types.

Definition refresh_devices (self : t) (infos : list DeviceInfo) : t :=
  let devices := _enumerate_devices infos in
  let device_indices := map index devices in
  {| devices := devices;
     active_devices := drop_stale device_indices
                         (map fst (map_to_list (active_devices self)))
                         (active_devices self);
     session_routes := session_routes self |}.

(** Every assignment is to an enumerated device of the direction the
    category asks for. *)
Definition well_directed (self : t) : Prop :=
  forall audio_type d, active_devices self !! audio_type = Some d ->
    audio_type ∈ audio_types /\ d ∈ devices self
    /\ type d = (if bool_decide (audio_type = "microphone") then Input else Output).

End AudioDeviceManager.

(** ** Virtual buses *)

(** The calls observed on a bus and on its stream. *)
Inductive event : Type :=
| Called_stop (bus : string)
| Stream_stop (bus : string)
| Stream_close (bus : string).

#[global] Instance event_eq_dec : EqDecision event.
Proof. solve_decision. Defined.

Definition is_stop_call (e : event) : bool :=
  match e with Called_stop _ => true | _ => false end.

Module VirtualAudioDevice.

(** [stream] tells whether the bus holds an open stream; the sample
    buffer and the processing chain play no part in routing. *)
Record t : Type := {
  name : string;
  channels : Z;
  sample_rate : Z;
  buffer_size : Z;
  is_active : bool;
  stream : bool
}.

Definition __init__ (name : string) (channels sample_rate buffer_size : Z) : t :=
  {| name := name; channels := channels; sample_rate := sample_rate;
     buffer_size := buffer_size; is_active := false; stream := false |}.

Definition stop (self : t) : t * list event :=
  if negb (is_active self) then (self, [Called_stop (name self)])
  else
    ({| name := name self; channels := channels self;
        sample_rate := sample_rate self; buffer_size := buffer_size self;
        is_active := false; stream := false |},
     Called_stop (name self) ::
       (if stream self then [Stream_stop (name self); Stream_close (name self)] else [])).

(** The finalizer, which the interpreter runs when the last reference to
    the bus is dropped: [stop] once more. *)
Definition __del__ (self : t) : t * list event := stop self.

(** What opening the stream does when [start] gets to it. *)
Inductive stream_outcome : Type :=
| Stream_opens
| Stream_constructor_raises
| Stream_start_raises.

(** [start]; the boolean tells whether the call returned rather than
    raised.  Telling the processors of the format changes no attribute
    of the bus. *)
Definition start (self : t) (outcome : stream_outcome) : t * bool :=
  if is_active self then (self, true)
  else
    match outcome with
    | Stream_constructor_raises => (self, false)
    | Stream_start_raises =>
        ({| name := name self; channels := channels self;
            sample_rate := sample_rate self; buffer_size := buffer_size self;
            is_active := false; stream := true |}, false)
    | Stream_opens =>
        ({| name := name self; channels := channels self;
            sample_rate := sample_rate self; buffer_size := buffer_size self;
            is_active := true; stream := true |}, true)
    end.

(** A run of [start] and [stop] calls on one bus. *)
Inductive call : Type :=
| Start (outcome : stream_outcome)
| Stop.

Definition step (self : t) (c : call) : t :=
  match c with
  | Start outcome => (start self outcome).1
  | Stop => (stop self).1
  end.

Definition run (self : t) (calls : list call) : t := foldl step self calls.

End VirtualAudioDevice.

Module VirtualAudioRouter.

Record t : Type := {
  virtual_devices : gmap string VirtualAudioDevice.t;
  routing_table : gmap string string
}.

Definition __init__ : t := {| virtual_devices := ∅; routing_table := ∅ |}.

Definition create_virtual_device (self : t) (name : string)
    (channels sample_rate buffer_size : Z) : t * result VirtualAudioDevice.t :=
  match virtual_devices self !! name with
  | Some _ => (self, Raise ValueError)
  | None =>
      let device := VirtualAudioDevice.__init__ name channels sample_rate buffer_size in
      ({| virtual_devices := <[name := device]> (virtual_devices self);
          routing_table := routing_table self |}, Ok device)
  end.

Definition get_virtual_device (self : t) (name : string) : option VirtualAudioDevice.t :=
  virtual_devices self !! name.

(** The loop over [list(self.routing_table.keys())]. *)
Definition drop_routes (name : string) (sources : list string)
    (table : gmap string string) : gmap string string :=
  foldl (fun table source =>
           if bool_decide (source = name) || bool_decide (table !! source = Some name)
           then delete source table else table)
        table sources.

(** [remove_virtual_device], with what follows its return.  The method
    takes the bus out of the dictionary; [collected] tells whether that
    was the last reference to it, as it is for a bus that nothing but the
    router refers to (a bus made by [create_route], which keeps no
    reference of its own).  Then the local variable [device] is the last
    one, and when the call returns the bus is collected and its finalizer
    runs. *)
Definition remove_virtual_device (self : t) (name : string) (collected : bool)
    : t * list event * bool :=
  match virtual_devices self !! name with
  | None => (self, [], false)
  | Some device =>
      let '(device, trace) := VirtualAudioDevice.stop device in
      let table := drop_routes name (map fst (map_to_list (routing_table self)))
                               (routing_table self) in
      let finalizer := if collected then (VirtualAudioDevice.__del__ device).2 else [] in
      ({| virtual_devices := delete name (virtual_devices self);
          routing_table := table |}, trace ++ finalizer, true)
  end.

Definition remove_route (self : t) (source_name : string) : t * bool :=
  match routing_table self !! source_name with
  | Some _ =>
      ({| virtual_devices := virtual_devices self;
          routing_table := delete source_name (routing_table self) |}, true)
  | None => (self, false)
  end.

Definition get_route (self : t) (source_name : string) : option string :=
  routing_table self !! source_name.

(** How [route_audio] ends: it returns True, raises ValueError for a
    device that does not exist, or lets the stream's exception through. *)
Inductive route_outcome : Type :=
| Routed
| Route_raises (e : exn)
| Stream_raises.

(** [route_audio]; [first] and [second] are what opening the stream does
    for the source and for the destination, which is the source itself,
    just started, when the two names are one. *)
Definition route_audio (self : t) (source_name destination_name : string)
    (first second : VirtualAudioDevice.stream_outcome) : t * route_outcome :=
  match virtual_devices self !! source_name with
  | None => (self, Route_raises ValueError)
  | Some source =>
      match virtual_devices self !! destination_name with
      | None => (self, Route_raises ValueError)
      | Some destination =>
          let table := <[source_name := destination_name]> (routing_table self) in
          let '(source, started) := VirtualAudioDevice.start source first in
          let devices := <[source_name := source]> (virtual_devices self) in
          if negb started
          then ({| virtual_devices := devices; routing_table := table |}, Stream_raises)
          else
            let destination :=
              if bool_decide (destination_name = source_name) then source else destination in
            let '(destination, started) := VirtualAudioDevice.start destination second in
            ({| virtual_devices := <[destination_name := destination]> devices;
                routing_table := table |},
             if started then Routed else Stream_raises)
      end
  end.

(** [stop_all_devices], as it leaves the buses. *)
Definition stop_all_devices (self : t) : t :=
  {| virtual_devices := (fun d => (VirtualAudioDevice.stop d).1) <$> virtual_devices self;
     routing_table := routing_table self |}.

(** The calls a host makes on a router. *)
Inductive call : Type :=
| Create_virtual_device (name : string) (channels sample_rate buffer_size : Z)
| Remove_virtual_device (name : string) (collected : bool)
| Route_audio (source_name destination_name : string)
              (first second : VirtualAudioDevice.stream_outcome)
| Remove_route (source_name : string)
| Stop_all_devices.

Definition step (self : t) (c : call) : t :=
  match c with
  | Create_virtual_device name channels sample_rate buffer_size =>
      (create_virtual_device self name channels sample_rate buffer_size).1
  | Remove_virtual_device name collected =>
      (remove_virtual_device self name collected).1.1
  | Route_audio source_name destination_name first second =>
      (route_audio self source_name destination_name first second).1
  | Remove_route source_name => (remove_route self source_name).1
  | Stop_all_devices => stop_all_devices self
  end.

Definition run (self : t) (calls : list call) : t := foldl step self calls.

(** Every route of the table runs between two buses that exist. *)
Definition table_closed (self : t) : Prop :=
  forall source destination, routing_table self !! source = Some destination ->
    is_Some (virtual_devices self !! source)
    /\ is_Some (virtual_devices self !! destination).

(** Every bus is stored under its own name. *)
Definition keyed_by_name (self : t) : Prop :=
  forall key device, virtual_devices self !! key = Some device ->
    VirtualAudioDevice.name device = key.

End VirtualAudioRouter.

(** ** The routing system *)

Module AudioRoutingSystem.

Record t : Type := {
  device_manager : AudioDeviceManager.t;
  virtual_router : VirtualAudioRouter.t;
  routes : gmap string (option Z * string);
  unified_device_mode : bool;
  unified_output_device : option Z;
  unified_input_device : option Z;
  session_categories : gmap Z string
}.

Definition __init__ (devices : list Device) : t :=
  {| device_manager :=
       {| AudioDeviceManager.devices := devices;
          AudioDeviceManager.active_devices := ∅;
          AudioDeviceManager.session_routes := None |};
     virtual_router := VirtualAudioRouter.__init__;
     routes := ∅;
     unified_device_mode := false;
     unified_output_device := None;
     unified_input_device := None;
     session_categories := ∅ |}.

(** The literal list [['game', 'others', 'system', 'chat']]. *)
Definition output_categories : list string := ["game"; "others"; "system"; "chat"].

Definition with_device_manager (self : t) (dm : AudioDeviceManager.t) : t :=
  {| device_manager := dm; virtual_router := virtual_router self;
     routes := routes self; unified_device_mode := unified_device_mode self;
     unified_output_device := unified_output_device self;
     unified_input_device := unified_input_device self;
     session_categories := session_categories self |}.

Definition with_virtual_router (self : t) (vr : VirtualAudioRouter.t) : t :=
  {| device_manager := device_manager self; virtual_router := vr;
     routes := routes self; unified_device_mode := unified_device_mode self;
     unified_output_device := unified_output_device self;
     unified_input_device := unified_input_device self;
     session_categories := session_categories self |}.

(** The loop assigning the unified output device to the output
    categories; the first failing assignment raises out of it. *)
Fixpoint assign_all (dm : AudioDeviceManager.t) (audio_types : list string)
    (device : option Z) : AudioDeviceManager.t * result unit :=
  match audio_types with
  | [] => (dm, Ok tt)
  | audio_type :: rest =>
      match AudioDeviceManager.set_device_for_audio_type dm audio_type device with
      | (dm, Raise e) => (dm, Raise e)
      | (dm, Ok _) => assign_all dm rest device
      end
  end.

Definition set_unified_device_mode (self : t) (enabled : bool)
    (output_device_id input_device_id : option Z) : t * result unit :=
  if negb enabled then
    ({| device_manager := device_manager self; virtual_router := virtual_router self;
        routes := routes self; unified_device_mode := false;
        unified_output_device := unified_output_device self;
        unified_input_device := unified_input_device self;
        session_categories := session_categories self |}, Ok tt)
  else
    let self :=
      {| device_manager := device_manager self; virtual_router := virtual_router self;
         routes := routes self; unified_device_mode := true;
         unified_output_device := output_device_id;
         unified_input_device := input_device_id;
         session_categories := session_categories self |} in
    let '(dm, r) :=
      if truthy output_device_id
      then assign_all (device_manager self) output_categories output_device_id
      else (device_manager self, Ok tt) in
    match r with
    | Raise e => (with_device_manager self dm, Raise e)
    | Ok _ =>
        if truthy input_device_id then
          match AudioDeviceManager.set_device_for_audio_type dm "microphone" input_device_id with
          | (dm, Raise e) => (with_device_manager self dm, Raise e)
          | (dm, Ok _) => (with_device_manager self dm, Ok tt)
          end
        else (with_device_manager self dm, Ok tt)
    end.

Definition create_route (self : t) (audio_type : string)
    (physical_device_id : option Z) (virtual_device_name : string) : t * result bool :=
  let physical_device_id :=
    if unified_device_mode self then
      if bool_decide (audio_type = "microphone") && truthy (unified_input_device self)
      then unified_input_device self
      else if negb (bool_decide (audio_type = "microphone"))
              && truthy (unified_output_device self)
      then unified_output_device self
      else physical_device_id
    else physical_device_id in
  match AudioDeviceManager.set_device_for_audio_type
          (device_manager self) audio_type physical_device_id with
  | (_, Raise e) => (self, Raise e)
  | (dm, Ok _) =>
      let made :=
        match VirtualAudioRouter.get_virtual_device (virtual_router self) virtual_device_name with
        | Some _ => (virtual_router self, Ok tt)
        | None =>
            match VirtualAudioRouter.create_virtual_device
                    (virtual_router self) virtual_device_name 2 48000 1024 with
            | (vr, Ok _) => (vr, Ok tt)
            | (vr, Raise e) => (vr, Raise e)
            end
        end in
      match made with
      | (vr, Raise e) =>
          (with_virtual_router (with_device_manager self dm) vr, Raise e)
      | (vr, Ok _) =>
          ({| device_manager := dm; virtual_router := vr;
              routes := <[audio_type := (physical_device_id, virtual_device_name)]> (routes self);
              unified_device_mode := unified_device_mode self;
              unified_output_device := unified_output_device self;
              unified_input_device := unified_input_device self;
              session_categories := session_categories self |}, Ok true)
      end
  end.

Definition remove_route (self : t) (audio_type : string) : t * bool :=
  match routes self !! audio_type with
  | Some _ =>
      ({| device_manager := device_manager self; virtual_router := virtual_router self;
          routes := delete audio_type (routes self);
          unified_device_mode := unified_device_mode self;
          unified_output_device := unified_output_device self;
          unified_input_device := unified_input_device self;
          session_categories := session_categories self |}, true)
  | None => (self, false)
  end.

Definition get_route (self : t) (audio_type : string) : option (option Z * string) :=
  routes self !! audio_type.

(** Not a method of the class: the call
    [system.virtual_router.remove_virtual_device(name)], as a host makes
    it, read on the state of the whole routing system.  The router is the
    one attribute the call reaches. *)
Definition remove_virtual_device (self : t) (name : string) (collected : bool)
    : t * list event * bool :=
  let '(vr, trace, removed) :=
    VirtualAudioRouter.remove_virtual_device (virtual_router self) name collected in
  (with_virtual_router self vr, trace, removed).

Definition route_session_to_category (self : t) (pid : Z) (category : string) : t * bool :=
  match AudioDeviceManager.get_device_for_audio_type (device_manager self) category with
  | Raise _ => (self, false)
  | Ok None => (self, false)
  | Ok (Some dev) =>
      let '(dm, routed) :=
        AudioDeviceManager.route_session_to_device (device_manager self) pid (index dev) in
      (with_device_manager self dm, routed)
  end.

Definition set_session_category (self : t) (pid : Z) (category : string) : t * bool :=
  if negb (bool_decide (category ∈ output_categories)) then (self, false)
  else
    let self :=
      {| device_manager := device_manager self; virtual_router := virtual_router self;
         routes := routes self; unified_device_mode := unified_device_mode self;
         unified_output_device := unified_output_device self;
         unified_input_device := unified_input_device self;
         session_categories := <[pid := category]> (session_categories self) |} in
    route_session_to_category self pid category.

Definition get_session_category (self : t) (pid : Z) : option string :=
  session_categories self !! pid.

Definition stop_routing (self : t) : t :=
  with_virtual_router self (VirtualAudioRouter.stop_all_devices (virtual_router self)).

(** The calls of the routing commands. *)
Inductive call : Type :=
| Set_unified_device_mode (enabled : bool) (output_device_id input_device_id : option Z)
| Create_route (audio_type : string) (physical_device_id : option Z)
               (virtual_device_name : string)
| Remove_route (audio_type : string)
| Set_session_category (pid : Z) (category : string)
| Stop_routing.

Definition step (self : t) (c : call) : t :=
  match c with
  | Set_unified_device_mode enabled output_device_id input_device_id =>
      (set_unified_device_mode self enabled output_device_id input_device_id).1
  | Create_route audio_type physical_device_id virtual_device_name =>
      (create_route self audio_type physical_device_id virtual_device_name).1
  | Remove_route audio_type => (remove_route self audio_type).1
  | Set_session_category pid category => (set_session_category self pid category).1
  | Stop_routing => stop_routing self
  end.

Definition run (self : t) (calls : list call) : t := foldl step self calls.

(** What the routing commands keep between them: the device manager's
    assignments stay well directed; every route is for one of the five
    categories, through a bus that exists, from an enumerated device of
    the category's direction; every override names an output category;
    every routed session goes to an enumerated output device. *)
Definition routes_valid (self : t) : Prop :=
  AudioDeviceManager.well_directed (device_manager self)
  /\ (forall audio_type id bus, routes self !! audio_type = Some (id, bus) ->
        audio_type ∈ AudioDeviceManager.audio_types
        /\ is_Some (VirtualAudioRouter.get_virtual_device (virtual_router self) bus)
        /\ exists d, AudioDeviceManager.find_device (device_manager self) id = Some d
             /\ type d = (if bool_decide (audio_type = "microphone") then Input else Output))
  /\ (forall pid category, session_categories self !! pid = Some category ->
        category ∈ output_categories)
  /\ (forall pid i,
        default ∅ (AudioDeviceManager.session_routes (device_manager self)) !! pid = Some i ->
        exists d, d ∈ AudioDeviceManager.devices (device_manager self)
          /\ index d = i /\ type d = Output).

End AudioRoutingSystem.

(** ** Concrete states used by the examples *)

Module Fixtures.
Local Open Scope Z_scope.

(** An enumeration as the device manager builds it: outputs, then inputs. *)
Definition devices : list Device :=
  [ {| index := 2; name := "Speakers"; channels := 2; type := Output; sample_rate := 48000 |};
    {| index := 3; name := "Headphones"; channels := 2; type := Output; sample_rate := 48000 |};
    {| index := 0; name := "Sound Mapper - Input"; channels := 2; type := Input; sample_rate := 44100 |};
    {| index := 1; name := "Microphone"; channels := 1; type := Input; sample_rate := 44100 |} ].

(** An enumeration whose first device is an output. *)
Definition devices_output_first : list Device :=
  [ {| index := 0; name := "Built-in Output"; channels := 2; type := Output; sample_rate := 48000 |};
    {| index := 1; name := "Headphones"; channels := 2; type := Output; sample_rate := 48000 |};
    {| index := 2; name := "Microphone"; channels := 1; type := Input; sample_rate := 44100 |} ].

Definition fresh : AudioRoutingSystem.t := AudioRoutingSystem.__init__ devices.

(** [Equalizer(48000, 10)] *)
Definition ten_bands `{Externals} : Equalizer.t := Equalizer.initial (Finite 48000) 10.

(** ... after [set_gain(0, 6.0)] *)
Definition low_boost `{Externals} : Equalizer.t :=
  fst (Equalizer.set_gain ten_bands 0 (Finite 6)).

Definition four_ones : buffer := Mono [one; one; one; one].

(** Two categories routed through one bus. *)
Definition shared_bus : AudioRoutingSystem.t :=
  let s := fst (AudioRoutingSystem.create_route fresh "game" (Some 2) "bus_shared") in
  fst (AudioRoutingSystem.create_route s "chat" (Some 2) "bus_shared").

(** Unified mode on output 2 and input 0. *)
Definition unified_mic_zero : AudioRoutingSystem.t :=
  fst (AudioRoutingSystem.set_unified_device_mode fresh true (Some 2) (Some 0)).

(** Unified mode on output 0 and input 2. *)
Definition unified_out_zero : AudioRoutingSystem.t :=
  fst (AudioRoutingSystem.set_unified_device_mode
         (AudioRoutingSystem.__init__ devices_output_first) true (Some 0) (Some 2)).

(** Unified mode on output 3 and input 1. *)
Definition unified_ok : AudioRoutingSystem.t :=
  fst (AudioRoutingSystem.set_unified_device_mode fresh true (Some 3) (Some 1)).

(** Device infos as PyAudio gives them: an input, a headset with both
    directions, an output, and a device with no channels. *)
Definition infos : list AudioDeviceManager.DeviceInfo :=
  [ {| AudioDeviceManager.info_name := "Microphone";
       AudioDeviceManager.maxInputChannels := 1;
       AudioDeviceManager.maxOutputChannels := 0;
       AudioDeviceManager.defaultSampleRate := 44100 |};
    {| AudioDeviceManager.info_name := "Headset";
       AudioDeviceManager.maxInputChannels := 1;
       AudioDeviceManager.maxOutputChannels := 2;
       AudioDeviceManager.defaultSampleRate := 48000 |};
    {| AudioDeviceManager.info_name := "Speakers";
       AudioDeviceManager.maxInputChannels := 0;
       AudioDeviceManager.maxOutputChannels := 2;
       AudioDeviceManager.defaultSampleRate := 48000 |};
    {| AudioDeviceManager.info_name := "Null";
       AudioDeviceManager.maxInputChannels := 0;
       AudioDeviceManager.maxOutputChannels := 0;
       AudioDeviceManager.defaultSampleRate := 0 |} ].

End Fixtures.

(** * Properties of the stateless processors *)

Section StatelessProcessors.
Local Open Scope Q_scope.

Lemma Qzero_false (q : Q) : ~ q == 0 -> Qzero q = false.
Proof.
  intros Hq. unfold Qzero. apply Z.eqb_neq. intros Hn. apply Hq.
  unfold Qeq. simpl. rewrite Hn. reflexivity.
Qed.

Lemma ltb_finite (a b : Q) : ltb (Finite a) (Finite b) = true <-> a < b.
Proof.
  simpl. rewrite negb_true_iff. split.
  - intros Hle. apply Qnot_le_lt. intros Hba. apply Qle_bool_iff in Hba. congruence.
  - intros Hlt. destruct (Qle_bool b a) eqn:E; [|reflexivity].
    apply Qle_bool_iff in E. exfalso. apply (Qlt_not_le _ _ Hlt E).
Qed.

Lemma ltb_finite_false (a b : Q) : ltb (Finite a) (Finite b) = false <-> b <= a.
Proof.
  simpl. rewrite negb_false_iff. apply Qle_bool_iff.
Qed.

(** The soft mask of a finite sample under a positive threshold is the
    ramp [(|x| - t) / t] cut to the interval from 0 to 1. *)
Lemma soft_mask_finite (t a : Q) :
  0 < t ->
  exists r, NoiseReducer.soft_mask (Finite t) (Finite a) = Finite r
    /\ (Qabs a <= t -> r == 0)
    /\ (t <= Qabs a <= 2 * t -> r == (Qabs a - t) / t)
    /\ (2 * t <= Qabs a -> r == 1).
Proof.
  intros Ht. unfold NoiseReducer.soft_mask, clip, sub. simpl opp. simpl add. simpl abs.
  unfold div. rewrite (Qzero_false t) by lra.
  set (r := (Qabs a + - t) / t).
  assert (Hr0 : Qabs a <= t -> r <= 0).
  { intros Hle. unfold r. apply Qle_shift_div_r; lra. }
  assert (Hr0' : t <= Qabs a -> 0 <= r).
  { intros Hle. unfold r. apply Qle_shift_div_l; lra. }
  assert (Hr1 : Qabs a <= 2 * t -> r <= 1).
  { intros Hle. unfold r. apply Qle_shift_div_r; lra. }
  assert (Hr1' : 2 * t <= Qabs a -> 1 <= r).
  { intros Hle. unfold r. apply Qle_shift_div_l; lra. }
  assert (Hramp : r == (Qabs a - t) / t) by (unfold r; reflexivity).
  unfold maximum, zero.
  destruct (ltb (Finite r) (Finite 0)) eqn:Elow.
  - apply ltb_finite in Elow. exists 0. split; [reflexivity|].
    repeat split; intros; lra.
  - apply ltb_finite_false in Elow. unfold minimum, one.
    destruct (ltb (Finite 1) (Finite r)) eqn:Ehigh.
    + apply ltb_finite in Ehigh. exists 1. split; [reflexivity|].
      repeat split; intros; lra.
    + apply ltb_finite_false in Ehigh. exists r. split; [reflexivity|].
      repeat split; intros; lra.
Qed.

Lemma zip_with_mul_lookup (g : sample -> sample) (xs : list sample) (i : nat) :
  zip_with mul xs (map g xs) !! i = (fun x => mul x (g x)) <$> xs !! i.
Proof.
  revert i. induction xs as [|x rest IH]; intros [|i]; simpl; try reflexivity. apply IH.
Qed.

(** C3, at a silent sample.  With threshold 0 the mask of a sample equal
    to 0.0 is 0/0, which NumPy evaluates to NaN, and the sample comes out
    as NaN; a non-zero sample passes.  A buffer of two stereo frames comes
    out with shape (2, 2, 2), not as the buffer that went in. *)
Theorem noise_reducer_threshold_zero_not_identity :
  let nr := NoiseReducer.set_threshold (NoiseReducer.__init__ (Finite (1 # 10))) zero in
  NoiseReducer.threshold nr = zero
  /\ NoiseReducer.process nr (Mono [zero; Finite (1 # 2)]) = Ok (Arr1 [NaN; Finite (1 # 2)])
  /\ ~ same_array (Arr1 [NaN; Finite (1 # 2)]) (of_buffer (Mono [zero; Finite (1 # 2)]))
  /\ NoiseReducer.process nr (Frames 2 [[one; one]; [one; one]])
     = Ok (Arr3 [[[one; one]; [one; one]]; [[one; one]; [one; one]]]).
Proof.
  cbv zeta. split; [reflexivity|]. split; [reflexivity|]. split; [|reflexivity].
  simpl. intros Hsame. inversion Hsame as [|? ? ? ? Hhead]. exact Hhead.
Qed.




(** The part of C3 that holds: with threshold 1 every sample of
    magnitude at most 1 of a one-dimensional buffer comes out as 0. *)
Lemma noise_reducer_threshold_one_silences (nr : NoiseReducer.t) (xs : list sample) :
  NoiseReducer.threshold nr = one -> Forall within_unit xs ->
  exists ys, NoiseReducer._process_impl nr (Mono xs) = Ok (Arr1 ys)
    /\ length ys = length xs
    /\ Forall (fun y => same y zero) ys.
Proof.
  intros Hthr Hunit. unfold NoiseReducer._process_impl. rewrite Hthr.
  eexists. split; [reflexivity|]. split.
  { rewrite length_zip_with, length_map. lia. }
  apply Forall_lookup_2. intros i y Hy.
  rewrite zip_with_mul_lookup in Hy.
  destruct (xs !! i) as [x|] eqn:Hx; [|discriminate].
  pose proof (Forall_lookup_1 _ _ _ _ Hunit Hx) as Hx1.
  destruct x as [a| |]; simpl in Hx1; try contradiction.
  destruct (soft_mask_finite 1 a eq_refl) as (r & Hr & Hzero & _).
  simpl in Hy. unfold one in Hy. rewrite Hr in Hy. inversion Hy; subst y.
  simpl. rewrite (Hzero Hx1). ring.
Qed.

Lemma Qneg_false (q : Q) : 0 <= q -> Qneg q = false.
Proof.
  unfold Qle, Qneg. simpl. intros Hq. apply Z.ltb_ge. lia.
Qed.

(** Where the threshold-0 half of C3 does hold: a sample that is finite
    and not zero gets the mask 1 and passes. *)
Lemma noise_reducer_threshold_zero_passes_nonzero (nr : NoiseReducer.t)
    (xs : list sample) :
  NoiseReducer.threshold nr = zero ->
  Forall (fun x => exists a, x = Finite a /\ ~ a == 0) xs ->
  exists ys, NoiseReducer._process_impl nr (Mono xs) = Ok (Arr1 ys)
    /\ Forall2 same ys xs.
Proof.
  intros Hthr Hxs. unfold NoiseReducer._process_impl. rewrite Hthr.
  eexists. split; [reflexivity|].
  induction Hxs as [|x xs (a & -> & Ha) _ IH]; simpl; constructor; [|exact IH].
  assert (Hpos : 0 < Qabs a).
  { destruct (Qlt_le_dec 0 (Qabs a)) as [Hlt|Hle]; [exact Hlt|].
    exfalso. apply Ha. apply Qabs_Qle_condition in Hle. lra. }
  unfold NoiseReducer.soft_mask, sub, zero. simpl opp. simpl add. simpl abs.
  unfold div. replace (Qzero 0) with true by reflexivity.
  rewrite (Qzero_false (Qabs a + - 0)) by lra.
  rewrite (Qneg_false (Qabs a + - 0)) by lra.
  simpl. ring.
Qed.

Lemma Forall_zip_with_mul (P Q R : sample -> Prop) (xs ys : list sample) :
  (forall x y, P x -> Q y -> R (mul x y)) ->
  Forall P xs -> Forall Q ys -> Forall R (zip_with mul xs ys).
Proof.
  intros Hmul Hxs. revert ys. induction Hxs as [|x xs Hx _ IH]; intros ys Hys; simpl.
  - constructor.
  - destruct Hys as [|y ys Hy Hys]; constructor; [by apply Hmul|by apply IH].
Qed.

(** On a rank-two buffer the same holds of every entry of the
    rank-three array that comes out. *)
Lemma noise_reducer_threshold_one_silences_frames (nr : NoiseReducer.t) (c : nat)
    (rows : list (list sample)) :
  NoiseReducer.threshold nr = one -> Forall (Forall within_unit) rows ->
  exists planes, NoiseReducer._process_impl nr (Frames c rows) = Ok (Arr3 planes)
    /\ Forall (Forall (Forall (fun y => same y zero))) planes.
Proof.
  intros Hthr Hunit. unfold NoiseReducer._process_impl. rewrite Hthr.
  eexists. split; [reflexivity|].
  apply Forall_fmap, Forall_fmap, Forall_forall. intros frame_i Hi. unfold compose.
  apply Forall_fmap, Forall_forall. intros frame_j Hj. unfold compose.
  apply (Forall_zip_with_mul within_unit (fun m => exists r, m = Finite r /\ r == 0)).
  - intros [a| |] m Ha (r & -> & Hr); simpl in Ha; try contradiction.
    simpl. rewrite Hr. ring.
  - exact (proj1 (Forall_forall _ _) Hunit frame_j Hj).
  - apply Forall_fmap, Forall_forall. intros x Hx. unfold compose.
    pose proof (proj1 (Forall_forall _ _) Hunit frame_i Hi) as Hframe.
    pose proof (proj1 (Forall_forall _ _) Hframe x Hx) as Hx1.
    destruct x as [a| |]; simpl in Hx1; try contradiction.
    destruct (soft_mask_finite 1 a eq_refl) as (r & Hr & Hzero & _).
    exists r. split; [exact Hr|by apply Hzero].
Qed.

(** *** Stereo widening *)




(** *** binary64 rounding *)












Lemma Qzero_true (q : Q) : Qzero q = true -> q == 0.
Proof.
  unfold Qzero, Qeq. simpl. intros Hq. apply Z.eqb_eq in Hq. lia.
Qed.








(** The rounded operations agree with the machine's on a set of
    operands that exercises rounding up and down, ties, subnormal
    results and overflow. *)
Lemma rounding_agrees_with_machine_floats :
  forallb (fun '(a, b) =>
             sameb (Float64.add (Float64.of_float a) (Float64.of_float b))
                   (Float64.of_float (a + b)%float)
             && sameb (Float64.sub (Float64.of_float a) (Float64.of_float b))
                      (Float64.of_float (a - b)%float)
             && sameb (Float64.mul (Float64.of_float a) (Float64.of_float b))
                      (Float64.of_float (a * b)%float)
             && sameb (Float64.div (Float64.of_float a) (Float64.of_float b))
                      (Float64.of_float (a / b)%float))
    [(0x1.999999999999ap-4, 0x1.999999999999ap-3); (1, 3); (-0x1.6666666666666p-1, 3);
     (0x1.0000000000001p0, 0x1p-53); (0x1.0000000000001p0, 0x1p-54);
     (1, 0x1p-53); (1, 0x1.8p-53); (0x1p-1074, 0x1p-1); (0x1p-1074, 3);
     (0x1p-1022, 0x1p-1074); (0x1.fffffffffffffp1023, 0x1.fffffffffffffp1023);
     (0x1.fffffffffffffp1023, 0x1p970); (0x1.fffffffffffffp1023, 0x1p969);
     (0x1p1023, 0x1p1023); (0x1p600, 0x1p-600); (0x1p-600, 0x1p600)]%float
  = true.
Proof. vm_compute. reflexivity. Qed.

(** On binary64 numbers the widening at width 0 gives the frame back only
    up to rounding: the left sample nearest to 0.1, next to the right
    sample nearest to 0.2, comes out one unit in the last place higher,
    on the machine and in the rounded operations alike. *)
Lemma widening_rounds_in_binary64 :
  PrimFloat.eqb (Binary64.left_of 0 0x1.999999999999ap-4 0x1.999999999999ap-3)
                0x1.999999999999ap-4 = false
  /\ PrimFloat.eqb (Binary64.left_of 0 0x1.999999999999ap-4 0x1.999999999999ap-3)
                   0x1.999999999999bp-4 = true
  /\ PrimFloat.eqb (Binary64.right_of 0 0x1.999999999999ap-4 0x1.999999999999ap-3)
                   0x1.999999999999ap-3 = true
  /\ Float64.left_of zero (Float64.of_float 0x1.999999999999ap-4)
                          (Float64.of_float 0x1.999999999999ap-3)
     = Float64.of_float 0x1.999999999999bp-4.
Proof. vm_compute. repeat split. Qed.

(** *** The widening on binary64 buffers *)




(** A rank-one buffer has no second axis to read. *)
Lemma spatial_enhancer_mono_raises (se : SpatialEnhancer.t) (xs : list sample) :
  SpatialEnhancer._process_impl se (Mono xs) = Raise IndexError.
Proof. reflexivity. Qed.



End StatelessProcessors.

(** * Properties of the equalizer *)

Section EqualizerProperties.
Context `{Externals}.
Import Equalizer.

(** [update_filters] writes the filter list and talks to the native
    backend; nothing else. *)
Lemma update_filters_keeps (e : t) (given : option (list sample)) :
  let e' := (update_filters e given).1 in
  base e' = base e /\ bands e' = bands e /\ frequencies e' = frequencies e
  /\ gains e' = gains e /\ _smoothed_gains e' = _smoothed_gains e
  /\ min_freq e' = min_freq e /\ max_freq e' = max_freq e
  /\ _needs_update e' = _needs_update e /\ output_gain_db e' = output_gain_db e.
Proof.
  unfold update_filters.
  destruct (design_all e _ 0 (frequencies e) []) as [fs [u|err]]; simpl;
    [destruct (_native e); simpl|]; repeat split.
Qed.

(** C8.  A band index below 0 or at or above the band count, so -1 and
    the band count itself, makes [set_gain] raise ValueError (the
    configuration error of the band index) and leaves the equalizer as it
    was: target gains, smoothed gains, filters and dirty flag.  For an
    index within the bands of a consistent equalizer, [set_gain] returns
    normally, writes that band's target gain and no other, sets the dirty
    flag, and leaves smoothed gains and filters alone: no filter is
    recomputed. *)
Theorem set_gain_checks_band (e : t) (band : Z) (gain_db : sample) :
  set_gain e (-1) gain_db = (e, Raise ValueError)
  /\ set_gain e (bands e) gain_db = (e, Raise ValueError)
  /\ ((band < 0 \/ bands e <= band)%Z -> set_gain e band gain_db = (e, Raise ValueError))
  /\ (consistent e -> (0 <= band < bands e)%Z ->
      let e' := (set_gain e band gain_db).1 in
      (set_gain e band gain_db).2 = Ok tt
      /\ gains e' !! Z.to_nat band = Some gain_db
      /\ (forall j, j <> Z.to_nat band -> gains e' !! j = gains e !! j)
      /\ length (gains e') = length (gains e)
      /\ _needs_update e' = true
      /\ _smoothed_gains e' = _smoothed_gains e
      /\ filters e' = filters e
      /\ frequencies e' = frequencies e
      /\ bands e' = bands e
      /\ output_gain_db e' = output_gain_db e
      /\ base e' = base e).
Proof.
  assert (Hout : forall b, (b < 0 \/ bands e <= b)%Z -> set_gain e b gain_db = (e, Raise ValueError)).
  { intros b Hb. unfold set_gain.
    replace ((b <? 0)%Z || (b >=? bands e)%Z) with true; [reflexivity|].
    symmetry. apply orb_true_iff. rewrite Z.ltb_lt, Z.geb_le. lia. }
  split; [apply Hout; lia|]. split; [apply Hout; lia|]. split; [apply Hout|].
  intros (Hb & Hlen & _) Hband. unfold set_gain.
  replace ((band <? 0)%Z || (band >=? bands e)%Z) with false.
  2:{ symmetry. apply orb_false_iff. rewrite Z.ltb_ge, Z.geb_leb, Z.leb_gt. lia. }
  assert (Hidx : Z.to_nat band < length (gains e)) by lia.
  rewrite (proj2 (Nat.ltb_lt _ _) Hidx). simpl.
  repeat split.
  - apply list_lookup_insert_eq. exact Hidx.
  - intros j Hj. apply list_lookup_insert_ne. congruence.
  - apply length_insert.
Qed.

(** *** Resizing *)

(** What [set_bands] leaves behind, whether or not the filter rebuild
    raised: the band count, the table of that many frequencies, and gains
    that keep the old entries and are zero beyond them. *)
Lemma set_bands_fields (e : t) (requested : Z) :
  let e' := (set_bands e requested).1 in
  let count := Z.max 1 requested in
  bands e' = count
  /\ frequencies e' = logspace (log10 (min_freq e)) (log10 (max_freq e)) count
  /\ min_freq e' = min_freq e /\ max_freq e' = max_freq e
  /\ length (gains e') = Z.to_nat count
  /\ (forall i, i < Z.to_nat count -> gains e' !! i = Some (default zero (gains e !! i)))
  /\ _smoothed_gains e' = gains e'.
Proof.
  cbv zeta. unfold set_bands.
  set (count := Z.max 1 requested).
  set (copy := Nat.min (length (gains e)) (Z.to_nat count)).
  set (new_gains := if (0 <? copy)%nat then assign_prefix copy (gains e) (zeros count)
                    else zeros count).
  set (e1 := {| base := base e; bands := count; gains := new_gains |}).
  assert (Hfields :
    bands e1 = count
    /\ frequencies e1 = logspace (log10 (min_freq e)) (log10 (max_freq e)) count
    /\ min_freq e1 = min_freq e /\ max_freq e1 = max_freq e
    /\ gains e1 = new_gains /\ _smoothed_gains e1 = new_gains) by (repeat split).
  destruct Hfields as (Hb & Hf & Hmin & Hmax & Hg & Hs).
  pose proof (update_filters_keeps e1 (Some (_smoothed_gains e1))) as K. cbv zeta in K.
  destruct K as (_ & Kb & Kf & Kg & Ks & Kmin & Kmax & _).
  assert (Hkeep : forall e2 : t,
    bands e2 = bands e1 -> frequencies e2 = frequencies e1 -> gains e2 = gains e1 ->
    _smoothed_gains e2 = _smoothed_gains e1 -> min_freq e2 = min_freq e1 ->
    max_freq e2 = max_freq e1 ->
    bands e2 = count
    /\ frequencies e2 = logspace (log10 (min_freq e)) (log10 (max_freq e)) count
    /\ min_freq e2 = min_freq e /\ max_freq e2 = max_freq e
    /\ length (gains e2) = Z.to_nat count
    /\ (forall i, i < Z.to_nat count -> gains e2 !! i = Some (default zero (gains e !! i)))
    /\ _smoothed_gains e2 = gains e2).
  { intros e2 -> -> -> -> -> ->. rewrite Hb, Hf, Hmin, Hmax, Hg, Hs.
    repeat split.
    - unfold new_gains, assign_prefix, zeros, copy.
      destruct (0 <? _)%nat; rewrite ?length_app, ?length_take, ?length_drop,
        ?length_replicate; lia.
    - intros i Hi. unfold new_gains, assign_prefix, zeros.
      destruct (0 <? copy)%nat eqn:Ecopy.
      + destruct (decide (i < copy)) as [Hlt|Hge].
        * rewrite lookup_app_l by (rewrite length_take; lia).
          rewrite lookup_take_lt by lia.
          destruct (gains e !! i) as [x|] eqn:Ex; [reflexivity|].
          apply lookup_ge_None in Ex. unfold copy in Hlt. lia.
        * rewrite lookup_app_r by (rewrite length_take; lia).
          rewrite length_take, lookup_drop.
          replace (copy + (i - copy `min` length (gains e))) with i by (unfold copy; lia).
          rewrite lookup_replicate_2 by lia.
          rewrite (proj2 (lookup_ge_None (gains e) i)) by (unfold copy in Hge; lia).
          reflexivity.
      + apply Nat.ltb_ge in Ecopy.
        rewrite lookup_replicate_2 by lia.
        rewrite (proj2 (lookup_ge_None (gains e) i)) by (unfold copy in Ecopy; lia).
        reflexivity. }
  destruct (update_filters e1 (Some (_smoothed_gains e1))) as [e2 [u|err]] eqn:E;
    simpl in Kb, Kf, Kg, Ks, Kmin, Kmax.
  - destruct (_native e2); simpl; apply Hkeep; assumption.
  - simpl. apply Hkeep; assumption.
Qed.

(** The sizes agree after construction and after every resize, and
    [set_gain] keeps them. *)
Lemma initial_consistent (sample_rate : sample) (count : Z) :
  (0 <= count)%Z -> consistent (initial sample_rate count).
Proof.
  intros Hc. unfold consistent, initial, zeros. simpl.
  rewrite length_replicate. auto.
Qed.

Lemma set_bands_consistent (e : t) (requested : Z) :
  consistent (set_bands e requested).1.
Proof.
  pose proof (set_bands_fields e requested) as F. cbv zeta in F.
  destruct F as (Hb & _ & _ & _ & Hlen & _ & Hs).
  unfold consistent. rewrite Hs, Hb, Hlen. repeat split. lia.
Qed.

Lemma set_gain_consistent (e : t) (band : Z) (gain_db : sample) :
  consistent e -> consistent (set_gain e band gain_db).1.
Proof.
  intros Hc. unfold set_gain.
  destruct (_ || _); [exact Hc|]. destruct (negb _); [exact Hc|].
  destruct Hc as (Hb & Hg & Hs). unfold consistent. simpl.
  rewrite length_insert. auto.
Qed.

(** C9.  For band counts n and m between 1 and 31, [set_bands(n)],
    [set_bands(m)], [set_bands(n)] ends with n bands and with the
    n-entry frequency table that the first [set_bands(n)] built, exactly.
    Below min(n, m) every gain is what it was after the first resize, and
    what it was before the whole sequence wherever the equalizer had that
    band; from min(n, m) on the gains are zero. *)
Theorem set_bands_round_trip (e : t) (n m : Z) :
  (1 <= n <= 31)%Z -> (1 <= m <= 31)%Z ->
  let e1 := (set_bands e n).1 in
  let e2 := (set_bands e1 m).1 in
  let e3 := (set_bands e2 n).1 in
  bands e3 = n
  /\ frequencies e3 = frequencies e1
  /\ length (frequencies e3) = Z.to_nat n
  /\ length (gains e3) = Z.to_nat n
  /\ (forall i, (Z.of_nat i < Z.min n m)%Z -> gains e3 !! i = gains e1 !! i)
  /\ (forall i, (Z.of_nat i < Z.min n m)%Z -> i < length (gains e) ->
        gains e3 !! i = gains e !! i)
  /\ (forall i, (Z.min n m <= Z.of_nat i < n)%Z -> gains e3 !! i = Some zero).
Proof.
  intros Hn Hm. cbv zeta.
  pose proof (set_bands_fields e n) as F1. cbv zeta in F1.
  set (e1 := (set_bands e n).1) in *.
  pose proof (set_bands_fields e1 m) as F2. cbv zeta in F2.
  set (e2 := (set_bands e1 m).1) in *.
  pose proof (set_bands_fields e2 n) as F3. cbv zeta in F3.
  set (e3 := (set_bands e2 n).1) in *.
  rewrite (Z.max_r 1 n) in F1, F3 by lia. rewrite (Z.max_r 1 m) in F2 by lia.
  destruct F1 as (B1 & Fr1 & Min1 & Max1 & L1 & G1 & _).
  destruct F2 as (B2 & Fr2 & Min2 & Max2 & L2 & G2 & _).
  destruct F3 as (B3 & Fr3 & Min3 & Max3 & L3 & G3 & _).
  assert (Hfirst : forall i, (Z.of_nat i < Z.min n m)%Z -> gains e3 !! i = gains e1 !! i).
  { intros i Hi. rewrite G3, G2 by lia. simpl.
    destruct (gains e1 !! i) as [x|] eqn:Ex; [reflexivity|].
    apply lookup_ge_None in Ex. lia. }
  split; [exact B3|]. split; [by rewrite Fr3, Fr1, Min2, Max2, Min1, Max1|].
  split; [rewrite Fr3; apply logspace_length|]. split; [exact L3|].
  split; [exact Hfirst|]. split.
  - intros i Hi Hlen. rewrite Hfirst, G1 by lia.
    destruct (gains e !! i) as [x|] eqn:Ex; [reflexivity|].
    apply lookup_ge_None in Ex. lia.
  - intros i Hi. rewrite G3 by lia.
    rewrite (proj2 (lookup_ge_None (gains e2) i)) by lia. reflexivity.
Qed.

(** *** Processing ticks *)

(** With every gain at 0 dB no band gets a filter. *)
Lemma design_all_flat (e : t) (gs freqs : list sample) (i : nat)
    (acc : list coefficients) :
  (forall j, i <= j < i + length freqs -> gs !! j = Some zero) ->
  design_all e gs i freqs acc = (acc, Ok tt).
Proof.
  revert i. induction freqs as [|freq rest IH]; intros i Hflat; simpl; [reflexivity|].
  unfold design. rewrite (Hflat i) by (simpl; lia).
  replace (ltb (abs zero) (Finite (1 # 10))) with true by reflexivity.
  apply IH. intros j Hj. apply Hflat. simpl. lia.
Qed.

Lemma init_ok (sample_rate : sample) (count : Z) :
  (0 <= count)%Z -> __init__ sample_rate count = Ok (initial sample_rate count).
Proof.
  intros Hc. unfold __init__.
  rewrite (proj2 (Z.ltb_ge count 0)) by exact Hc.
  unfold update_filters.
  rewrite design_all_flat; [reflexivity|].
  intros j Hj. simpl in *. rewrite logspace_length in Hj.
  apply lookup_replicate_2. lia.
Qed.

(** A tick assigns no attribute of the equalizer; it can only move the
    state of a native backend. *)
Lemma process_keeps (e : t) (data : buffer) :
  let e' := (process e data).1 in
  gains e' = gains e /\ _smoothed_gains e' = _smoothed_gains e
  /\ filters e' = filters e /\ _needs_update e' = _needs_update e
  /\ (_native e = None -> e' = e).
Proof.
  unfold process.
  destruct (AudioProcessor.enabled (base e)); simpl; [|repeat split].
  destruct (_native e) as [n|]; simpl; [|repeat split].
  destruct (native_process n data) as [n' [out|err]]; simpl; repeat split; discriminate.
Qed.

Lemma ticks_keep_smoothed_gains (e : t) (blocks : list buffer) :
  _smoothed_gains (ticks e blocks) = _smoothed_gains e
  /\ gains (ticks e blocks) = gains e.
Proof.
  revert e. induction blocks as [|data rest IH]; intros e; simpl; [done|].
  destruct (IH (process e data).1) as [-> ->].
  pose proof (process_keeps e data) as K. cbv zeta in K. tauto.
Qed.

(** Setting a target gain and ticking any number of times leaves the
    smoothed gains where they were before the call. *)
Lemma ticks_after_set_gain (e : t) (band : Z) (g : sample) (blocks : list buffer) :
  _smoothed_gains (ticks (set_gain e band g).1 blocks) = _smoothed_gains e.
Proof.
  rewrite (proj1 (ticks_keep_smoothed_gains _ blocks)).
  unfold set_gain. destruct (_ || _); [reflexivity|].
  destruct (negb _); reflexivity.
Qed.

(** Without a native backend the output of a tick is the data times
    every target gain in turn, whatever the output gain. *)
Lemma process_ignores_output_gain (e : t) (g : sample) (data : buffer) :
  _native e = None ->
  (process (set_output_gain e g) data).2 = (process e data).2.
Proof.
  intros Hn. unfold process. simpl. rewrite Hn. simpl.
  destruct (AudioProcessor.enabled (base e)); reflexivity.
Qed.

(** C1, at [Equalizer(48000, 10)] after [set_gain(0, 6.0)], one tick on
    four samples of 1.0.  The target gain of band 0 is 6 dB and its
    smoothed gain is 0 dB; the tick leaves the smoothed gain at 0 dB (no
    smoothing step), builds no filter (none exists before or after),
    returns the samples multiplied by each target gain in dB in turn,
    which is all zeros here, and returns the same for every output
    gain. *)
Theorem process_takes_no_smoothing_step :
  __init__ (Finite 48000) 10 = Ok Fixtures.ten_bands
  /\ _native Fixtures.low_boost = None
  /\ gains Fixtures.low_boost !! 0 = Some (Finite 6)
  /\ _smoothed_gains Fixtures.low_boost !! 0 = Some zero
  /\ _smoothed_gains (process Fixtures.low_boost Fixtures.four_ones).1 !! 0 = Some zero
  /\ filters Fixtures.low_boost = []
  /\ process Fixtures.low_boost Fixtures.four_ones
     = (Fixtures.low_boost, Mono [zero; zero; zero; zero])
  /\ (forall g, (process (set_output_gain Fixtures.low_boost g) Fixtures.four_ones).2
               = Mono [zero; zero; zero; zero]).
Proof.
  split; [apply init_ok; lia|].
  assert (Hp : process Fixtures.low_boost Fixtures.four_ones
               = (Fixtures.low_boost, Mono [zero; zero; zero; zero]))
    by (vm_compute; reflexivity).
  split; [reflexivity|]. split; [reflexivity|]. split; [reflexivity|].
  split; [rewrite Hp; reflexivity|]. split; [reflexivity|]. split; [exact Hp|].
  intros g. rewrite process_ignores_output_gain by reflexivity.
  rewrite Hp. reflexivity.
Qed.

(** C2, at [Equalizer(48000, 10)] after [set_gain(0, 6.0)].  Whatever
    the number of processing ticks and the buffers processed, the
    smoothed gain of band 0 is still 0 dB, which is 6 dB away from the
    target and so not within 0.01 dB of it. *)
Theorem smoothed_gain_never_moves (blocks : list buffer) :
  __init__ (Finite 48000) 10 = Ok Fixtures.ten_bands
  /\ AudioProcessor.enabled (base Fixtures.low_boost) = true
  /\ gains (ticks Fixtures.low_boost blocks) !! 0 = Some (Finite 6)
  /\ _smoothed_gains (ticks Fixtures.low_boost blocks) !! 0 = Some (Finite 0)
  /\ ~ (Qabs (0 - 6) <= 1 # 100)%Q.
Proof.
  split; [apply init_ok; lia|]. split; [reflexivity|].
  destruct (ticks_keep_smoothed_gains Fixtures.low_boost blocks) as [-> ->].
  split; [reflexivity|]. split; [reflexivity|].
  intros Hle. vm_compute in Hle. apply Hle. reflexivity.
Qed.

End EqualizerProperties.

Lemma set_gain_checks_band_witness :
  let e := @Fixtures.ten_bands plain_externals in
  Equalizer.set_gain e 10 (Finite 6) = (e, Raise ValueError)
  /\ (Equalizer.set_gain e 3 (Finite 6)).2 = Ok tt
  /\ Equalizer.gains (Equalizer.set_gain e 3 (Finite 6)).1 !! 3%nat = Some (Finite 6).
Proof.
  intros e.
  pose proof (set_gain_checks_band e 10 (Finite 6)) as (_ & _ & Hout & _).
  pose proof (set_gain_checks_band e 3 (Finite 6)) as (_ & _ & _ & Hin).
  split; [apply Hout; right; simpl; lia|].
  assert (Hc : Equalizer.consistent e).
  { unfold Equalizer.consistent. simpl. repeat split; lia. }
  specialize (Hin Hc ltac:(simpl; lia)). cbv zeta in Hin.
  split; apply Hin.
Defined.

Lemma set_bands_round_trip_witness :
  let e := @Fixtures.low_boost plain_externals in
  let e1 := (Equalizer.set_bands e 10).1 in
  let e3 := (Equalizer.set_bands (Equalizer.set_bands e1 5).1 10).1 in
  Equalizer.frequencies e3 = Equalizer.frequencies e1
  /\ Equalizer.gains e3 !! 0%nat = Some (Finite 6)
  /\ Equalizer.gains e3 !! 7%nat = Some zero.
Proof.
  intros e e1 e3.
  pose proof (set_bands_round_trip e 10 5 ltac:(lia) ltac:(lia))
    as (_ & Hf & _ & _ & _ & Hg & Hz).
  cbv zeta in Hf, Hg, Hz. fold e1 in Hf, Hg, Hz. fold e3 in Hf, Hg, Hz.
  split; [exact Hf|]. split.
  - rewrite (Hg 0%nat) by (simpl; lia). reflexivity.
  - apply (Hz 7%nat). lia.
Defined.

(** * Properties of the routing layer *)

Section Routing.
Import AudioRoutingSystem.
Local Open Scope Z_scope.

(** Membership in a list written out. *)
Ltac list_mem :=
  repeat rewrite elem_of_cons in *; rewrite ?elem_of_nil in *; intuition congruence.

(** The override map is the only attribute [route_session_to_category]
    leaves alone whatever happens. *)
Lemma route_session_to_category_keeps_overrides (s : t) (pid : Z) (category : string) :
  session_categories (route_session_to_category s pid category).1 = session_categories s.
Proof.
  unfold route_session_to_category.
  destruct (AudioDeviceManager.get_device_for_audio_type _ _) as [[dev|]|]; reflexivity.
Qed.

(** C10.  A category outside game, others, system and chat is refused:
    [set_session_category] returns False and the routing system, so the
    override map too, is left as it was.  For one of the four categories
    the override is written first, and it stays whatever the routing of
    the session answers; with no device assigned to the category the call
    returns False and the override is recorded all the same. *)
Theorem set_session_category_override (s : t) (pid : Z) (category : string) :
  set_session_category s pid "microphone" = (s, false)
  /\ (category ∉ output_categories ->
       set_session_category s pid category = (s, false))
  /\ (category ∈ output_categories ->
       session_categories (set_session_category s pid category).1
       = <[pid := category]> (session_categories s))
  /\ (category ∈ output_categories ->
       AudioDeviceManager.active_devices (device_manager s) !! category = None ->
       (set_session_category s pid category).2 = false
       /\ get_session_category (set_session_category s pid category).1 pid = Some category).
Proof.
  unfold set_session_category, output_categories.
  split; [reflexivity|]. split; [|split].
  - intros Hout. rewrite bool_decide_eq_false_2 by exact Hout. reflexivity.
  - intros Hin. rewrite bool_decide_eq_true_2 by exact Hin. simpl negb. cbv iota.
    rewrite route_session_to_category_keeps_overrides. reflexivity.
  - intros Hin Hnone. rewrite bool_decide_eq_true_2 by exact Hin. simpl negb. cbv iota.
    unfold get_session_category.
    rewrite route_session_to_category_keeps_overrides. simpl.
    split; [|apply lookup_insert_eq].
    unfold route_session_to_category, AudioDeviceManager.get_device_for_audio_type. simpl.
    assert (Hty : category ∈ AudioDeviceManager.audio_types).
    { unfold AudioDeviceManager.audio_types. list_mem. }
    rewrite bool_decide_eq_true_2 by exact Hty. simpl. rewrite Hnone. reflexivity.
Qed.

Lemma set_session_category_override_witness :
  set_session_category Fixtures.fresh 4242 "movie" = (Fixtures.fresh, false)
  /\ session_categories (set_session_category Fixtures.shared_bus 4242 "chat").1
     = <[4242 := "chat"]> (session_categories Fixtures.shared_bus)
  /\ ((set_session_category Fixtures.fresh 4242 "chat").2 = false
      /\ get_session_category (set_session_category Fixtures.fresh 4242 "chat").1 4242
         = Some "chat").
Proof.
  destruct (set_session_category_override Fixtures.fresh 4242 "movie") as (_ & Hout & _).
  destruct (set_session_category_override Fixtures.shared_bus 4242 "chat") as (_ & _ & Hin & _).
  destruct (set_session_category_override Fixtures.fresh 4242 "chat") as (_ & _ & _ & Hfail).
  split; [|split].
  - apply Hout. unfold output_categories. list_mem.
  - apply Hin. unfold output_categories. list_mem.
  - apply Hfail; [unfold output_categories; list_mem|reflexivity].
Defined.

(** With unified mode on, a unified device id that Python reads as true
    replaces the supplied one, provided the device manager accepts it
    for the category. *)
Lemma create_route_unified_override (s s' : t) (category bus : string)
    (supplied : option Z) (D : Z) :
  unified_device_mode s = true ->
  (if bool_decide (category = "microphone")
   then unified_input_device s else unified_output_device s) = Some D ->
  D <> 0 ->
  create_route s category supplied bus = (s', Ok true) ->
  get_route s' category = Some (Some D, bus).
Proof.
  intros Hmode Hdev HD. unfold create_route, get_route. rewrite Hmode.
  assert (Ht : truthy (Some D) = true).
  { simpl. apply negb_true_iff, Z.eqb_neq, HD. }
  destruct (bool_decide (category = "microphone")); simpl andb;
    rewrite Hdev, Ht; cbv iota;
    (destruct (AudioDeviceManager.set_device_for_audio_type _ _ _) as [dm [ok|e]];
     [|discriminate]);
    (destruct (VirtualAudioRouter.get_virtual_device _ _);
     [|destruct (VirtualAudioRouter.create_virtual_device _ _ _ _ _) as [vr [d|e]]]);
    intros Heq; inversion Heq; subst; simpl; try apply lookup_insert_eq.
Qed.

(** C7, at device index 0.  Unified mode is on with input device 0, the
    first device of the enumeration; [create_route('microphone', 1,
    'bus_mic')] stores the supplied device 1, not the unified input
    device 0.  The same happens to the output categories when the unified
    output device is 0: [create_route('chat', 1, 'bus_chat')] stores 1.
    A unified device with a non-zero index does replace the supplied
    one. *)
Theorem create_route_ignores_unified_device_zero :
  (unified_device_mode Fixtures.unified_mic_zero = true
   /\ unified_input_device Fixtures.unified_mic_zero = Some 0
   /\ create_route Fixtures.unified_mic_zero "microphone" (Some 1) "bus_mic"
      = ((create_route Fixtures.unified_mic_zero "microphone" (Some 1) "bus_mic").1, Ok true)
   /\ get_route (create_route Fixtures.unified_mic_zero "microphone" (Some 1) "bus_mic").1
        "microphone" = Some (Some 1, "bus_mic"))
  /\ (unified_device_mode Fixtures.unified_out_zero = true
      /\ unified_output_device Fixtures.unified_out_zero = Some 0
      /\ get_route (create_route Fixtures.unified_out_zero "chat" (Some 1) "bus_chat").1
           "chat" = Some (Some 1, "bus_chat"))
  /\ (unified_output_device Fixtures.unified_ok = Some 3
      /\ get_route (create_route Fixtures.unified_ok "chat" (Some 2) "bus_chat").1
           "chat" = Some (Some 3, "bus_chat")).
Proof. vm_compute. repeat split. Qed.

(** *** Removing a bus *)

Lemma drop_routes_subset (name : string) (sources : list string)
    (table : gmap string string) (k v : string) :
  VirtualAudioRouter.drop_routes name sources table !! k = Some v -> table !! k = Some v.
Proof.
  unfold VirtualAudioRouter.drop_routes.
  revert table. induction sources as [|src rest IH]; intros table; simpl; [done|].
  intros Hk. apply IH in Hk.
  destruct (bool_decide (src = name) || bool_decide (table !! src = Some name)); [|done].
  apply lookup_delete_Some in Hk. tauto.
Qed.

Lemma drop_routes_removed (name : string) (sources : list string)
    (table : gmap string string) (k : string) :
  k ∈ sources -> (k = name \/ table !! k = Some name) ->
  VirtualAudioRouter.drop_routes name sources table !! k = None.
Proof.
  unfold VirtualAudioRouter.drop_routes.
  revert table. induction sources as [|src rest IH]; intros table Hin Hk; simpl.
  { apply elem_of_nil in Hin. contradiction. }
  set (table' := if bool_decide (src = name) || bool_decide (table !! src = Some name)
                 then delete src table else table).
  destruct (decide (k = src)) as [->|Hne].
  - assert (Hgone : table' !! src = None).
    { unfold table'. destruct Hk as [->|Hk].
      - rewrite bool_decide_eq_true_2 by done. apply lookup_delete_eq.
      - rewrite (bool_decide_eq_true_2 (table !! src = Some name)) by done.
        rewrite orb_true_r. apply lookup_delete_eq. }
    destruct (foldl _ table' rest !! src) as [v|] eqn:E; [|done].
    apply (drop_routes_subset name rest table' src v) in E. congruence.
  - apply IH.
    + apply elem_of_cons in Hin. tauto.
    + destruct Hk as [->|Hk]; [by left|right].
      unfold table'. destruct (_ || _); [|done].
      rewrite lookup_delete_ne by done. done.
Qed.

Lemma drop_routes_kept (name : string) (sources : list string)
    (table : gmap string string) (k v : string) :
  table !! k = Some v -> k <> name -> v <> name ->
  VirtualAudioRouter.drop_routes name sources table !! k = Some v.
Proof.
  unfold VirtualAudioRouter.drop_routes.
  revert table. induction sources as [|src rest IH]; intros table Hk Hkn Hvn; simpl; [done|].
  apply IH; [|done|done].
  destruct (bool_decide (src = name) || bool_decide (table !! src = Some name)) eqn:E; [|done].
  destruct (decide (src = k)) as [->|Hne]; [|by rewrite lookup_delete_ne].
  apply orb_true_iff in E as [E|E]; apply bool_decide_eq_true in E; congruence.
Qed.

(** C6 as stated fails.  Two categories are routed through one bus, which
    nothing but the router refers to; the bus is removed; both category
    routes still name it, and [stop()] has run twice: once called by the
    removal and once by the finalizer of the bus as it is collected. *)
Lemma remove_virtual_device_keeps_category_routes :
  (remove_virtual_device Fixtures.shared_bus "bus_shared" true).2 = true
  /\ VirtualAudioRouter.get_virtual_device
       (virtual_router (remove_virtual_device Fixtures.shared_bus "bus_shared" true).1.1)
       "bus_shared" = None
  /\ ~ (forall category route,
          get_route (remove_virtual_device Fixtures.shared_bus "bus_shared" true).1.1 category
          = Some route -> route.2 <> "bus_shared")
  /\ (remove_virtual_device Fixtures.shared_bus "bus_shared" true).1.2
     = [Called_stop "bus_shared"; Called_stop "bus_shared"].
Proof.
  split; [|split; [|split]]; [vm_compute; reflexivity ..| |vm_compute; reflexivity].
  intros Hall. apply (Hall "game" (Some 2, "bus_shared")); vm_compute; reflexivity.
Qed.

(** C6, amended.  Removing a bus that exists drops it from the router,
    removes every entry of the router's own bus-to-bus routing table that
    names the bus as source or destination and keeps the other entries.
    The removal calls the bus's [stop()] once; when the router held the
    last reference to the bus, its finalizer runs as the call returns and
    calls [stop()] a second time, which finds the bus stopped and touches
    no stream.  The stream is stopped and closed at most once: once when
    the bus was active and held a stream, and not at all otherwise.  The
    category routes of the routing system are not touched: they are left
    as they were. *)
Theorem remove_virtual_device_drops_bus_routes (s : t) (bus : string)
    (device : VirtualAudioDevice.t) (collected : bool) :
  VirtualAudioRouter.get_virtual_device (virtual_router s) bus = Some device ->
  let s' := (remove_virtual_device s bus collected).1.1 in
  let trace := (remove_virtual_device s bus collected).1.2 in
  (remove_virtual_device s bus collected).2 = true
  /\ VirtualAudioRouter.get_virtual_device (virtual_router s') bus = None
  /\ (forall src dst,
        VirtualAudioRouter.routing_table (virtual_router s') !! src = Some dst ->
        src <> bus /\ dst <> bus
        /\ VirtualAudioRouter.routing_table (virtual_router s) !! src = Some dst)
  /\ (forall src dst,
        VirtualAudioRouter.routing_table (virtual_router s) !! src = Some dst ->
        src <> bus -> dst <> bus ->
        VirtualAudioRouter.routing_table (virtual_router s') !! src = Some dst)
  /\ filter is_stop_call trace
     = Called_stop (VirtualAudioDevice.name device)
       :: (if collected then [Called_stop (VirtualAudioDevice.name device)] else [])
  /\ filter (fun e => negb (is_stop_call e)) trace
     = (if VirtualAudioDevice.is_active device && VirtualAudioDevice.stream device
        then [Stream_stop (VirtualAudioDevice.name device);
              Stream_close (VirtualAudioDevice.name device)]
        else [])
  /\ routes s' = routes s.
Proof.
  unfold VirtualAudioRouter.get_virtual_device. intros Hdev.
  unfold remove_virtual_device, VirtualAudioRouter.remove_virtual_device.
  rewrite Hdev.
  assert (Htrace : forall keep : event -> bool,
            filter keep ((VirtualAudioDevice.stop device).2
                         ++ (if collected
                             then (VirtualAudioDevice.__del__
                                     (VirtualAudioDevice.stop device).1).2
                             else []))
            = filter keep
                (Called_stop (VirtualAudioDevice.name device)
                 :: (if VirtualAudioDevice.is_active device
                        && VirtualAudioDevice.stream device
                     then [Stream_stop (VirtualAudioDevice.name device);
                           Stream_close (VirtualAudioDevice.name device)]
                     else [])
                 ++ (if collected then [Called_stop (VirtualAudioDevice.name device)]
                     else []))).
  { intros keep. f_equal.
    unfold VirtualAudioDevice.__del__, VirtualAudioDevice.stop.
    destruct (VirtualAudioDevice.is_active device) eqn:Ea; simpl;
      [destruct (VirtualAudioDevice.stream device)|rewrite Ea]; simpl;
      destruct collected; reflexivity. }
  destruct (VirtualAudioDevice.stop device) as [device' trace] eqn:Estop.
  simpl in Htrace. simpl.
  split; [reflexivity|]. split; [apply lookup_delete_eq|].
  split; [|split; [|split; [|split]]].
  - intros src dst Hsrc.
    pose proof (drop_routes_subset _ _ _ _ _ Hsrc) as Hold.
    assert (Hin : src ∈ map fst (map_to_list (VirtualAudioRouter.routing_table (virtual_router s)))).
    { apply list_elem_of_fmap. exists (src, dst). split; [done|].
      apply elem_of_map_to_list. exact Hold. }
    split; [|split; [|exact Hold]].
    + intros ->. rewrite drop_routes_removed in Hsrc by (done || by left). discriminate.
    + intros ->. rewrite drop_routes_removed in Hsrc by (done || by right). discriminate.
  - intros src dst Hold Hs Hd. by apply drop_routes_kept.
  - rewrite Htrace.
    destruct (VirtualAudioDevice.is_active device && VirtualAudioDevice.stream device);
      destruct collected; reflexivity.
  - rewrite Htrace.
    destruct (VirtualAudioDevice.is_active device && VirtualAudioDevice.stream device);
      destruct collected; reflexivity.
  - reflexivity.
Qed.

Lemma remove_virtual_device_drops_bus_routes_witness :
  (remove_virtual_device Fixtures.shared_bus "bus_shared" true).2 = true
  /\ routes (remove_virtual_device Fixtures.shared_bus "bus_shared" true).1.1
     = routes Fixtures.shared_bus
  /\ filter is_stop_call (remove_virtual_device Fixtures.shared_bus "bus_shared" true).1.2
     = [Called_stop "bus_shared"; Called_stop "bus_shared"].
Proof.
  pose proof (remove_virtual_device_drops_bus_routes Fixtures.shared_bus "bus_shared"
                (VirtualAudioDevice.__init__ "bus_shared" 2 48000 1024) true eq_refl) as H.
  cbv zeta in H. split; [apply H|split; apply H].
Defined.

End Routing.

(** * Further properties of the processors *)

Section MoreProcessors.
Context `{Externals}.
Local Open Scope Q_scope.

(** A disabled processor hands the buffer back, of whatever shape:
    the equalizer without a call to its native backend, the noise reducer
    on two-dimensional buffers too, the spatial enhancer also on the
    one-dimensional and the empty buffers on which it raises when
    enabled. *)
Theorem disabled_processors_pass_through (e : Equalizer.t) (nr : NoiseReducer.t)
    (se : SpatialEnhancer.t) (data : buffer) :
  Equalizer.process (Equalizer.disable e) data = (Equalizer.disable e, data)
  /\ NoiseReducer.process (NoiseReducer.disable nr) data = Ok (of_buffer data)
  /\ SpatialEnhancer.process (SpatialEnhancer.disable se) data = Ok data
  /\ SpatialEnhancer.process (SpatialEnhancer.disable se) (Mono []) = Ok (Mono [])
  /\ SpatialEnhancer._process_impl se (Mono []) = Raise IndexError.
Proof. repeat split. Qed.

(** Python's [max(0, min(1, x))] lands in [0, 1] for every number and
    keeps a number of [0, 1] at its value. *)
Lemma clamp_unit (x : sample) :
  (exists q, py_max zero (py_min one x) = Finite q /\ 0 <= q <= 1)
  /\ (forall q, x = Finite q -> 0 <= q <= 1 -> same (py_max zero (py_min one x)) x).
Proof.
  unfold py_max, py_min, gtb, one, zero.
  destruct x as [a|[|]|].
  - destruct (ltb (Finite a) (Finite 1)) eqn:E1.
    + apply ltb_finite in E1.
      destruct (ltb (Finite 0) (Finite a)) eqn:E0.
      * apply ltb_finite in E0. split; [exists a; split; [reflexivity|lra]|].
        intros q Hq _. simpl. reflexivity.
      * apply ltb_finite_false in E0. split; [exists 0; split; [reflexivity|lra]|].
        intros q Hq Hr. inversion Hq; subst. simpl. lra.
    + apply ltb_finite_false in E1. simpl.
      split; [exists 1; split; [reflexivity|lra]|].
      intros q Hq Hr. inversion Hq; subst. simpl. lra.
  - simpl. split; [exists 0; split; [reflexivity|lra]|]. intros q Hq. discriminate.
  - simpl. split; [exists 1; split; [reflexivity|lra]|]. intros q Hq. discriminate.
  - simpl. split; [exists 1; split; [reflexivity|lra]|]. intros q Hq. discriminate.
Qed.

(** Whatever number is passed, [set_width], the constructor of the
    spatial enhancer and [set_threshold] store a finite value of [0, 1]:
    a value of [0, 1] itself, 1 for NaN and for anything above 1, 0 for
    anything below 0.  The constructor of the noise reducer stores its
    argument as it comes. *)
Theorem setters_clamp_to_unit_interval (x : sample) (se : SpatialEnhancer.t)
    (nr : NoiseReducer.t) :
  let w := SpatialEnhancer.width (SpatialEnhancer.set_width se x) in
  SpatialEnhancer.width (SpatialEnhancer.__init__ x) = w
  /\ NoiseReducer.threshold (NoiseReducer.set_threshold nr x) = w
  /\ (exists q, w = Finite q /\ 0 <= q <= 1)
  /\ (forall q, x = Finite q -> 0 <= q <= 1 -> same w x)
  /\ (forall q, x = Finite q -> 1 < q -> w = one)
  /\ (forall q, x = Finite q -> q < 0 -> w = zero)
  /\ (x = NaN -> w = one)
  /\ NoiseReducer.threshold (NoiseReducer.__init__ x) = x.
Proof.
  cbv zeta. simpl.
  destruct (clamp_unit x) as [Hrange Hkeep].
  split; [reflexivity|]. split; [reflexivity|]. split; [exact Hrange|].
  split; [exact Hkeep|]. split; [|split; [|split; [|reflexivity]]].
  - intros q -> Hq. unfold py_max, py_min, gtb, one, zero.
    rewrite (proj2 (ltb_finite_false q 1)) by lra. reflexivity.
  - intros q -> Hq. unfold py_max, py_min, gtb, one, zero.
    rewrite (proj2 (ltb_finite q 1)) by lra.
    rewrite (proj2 (ltb_finite_false 0 q)) by lra. reflexivity.
  - intros ->. reflexivity.
Qed.

Lemma setters_clamp_to_unit_interval_witness :
  same (SpatialEnhancer.width (SpatialEnhancer.set_width (SpatialEnhancer.__init__ zero)
                                 (Finite (1 # 2)))) (Finite (1 # 2))
  /\ SpatialEnhancer.width (SpatialEnhancer.set_width (SpatialEnhancer.__init__ zero)
                              (Finite 7)) = one
  /\ SpatialEnhancer.width (SpatialEnhancer.set_width (SpatialEnhancer.__init__ zero)
                              (Finite (-3))) = zero
  /\ SpatialEnhancer.width (SpatialEnhancer.set_width (SpatialEnhancer.__init__ zero) NaN)
     = one.
Proof.
  pose (se := SpatialEnhancer.__init__ zero). pose (nr := NoiseReducer.__init__ zero).
  split; [|split; [|split]].
  - destruct (setters_clamp_to_unit_interval (Finite (1 # 2)) se nr)
      as (_ & _ & _ & Hkeep & _).
    apply (Hkeep (1 # 2) eq_refl). split; discriminate.
  - destruct (setters_clamp_to_unit_interval (Finite 7) se nr)
      as (_ & _ & _ & _ & Habove & _).
    apply (Habove 7 eq_refl). reflexivity.
  - destruct (setters_clamp_to_unit_interval (Finite (-3)) se nr)
      as (_ & _ & _ & _ & _ & Hbelow & _).
    apply (Hbelow (-3) eq_refl). reflexivity.
  - destruct (setters_clamp_to_unit_interval NaN se nr)
      as (_ & _ & _ & _ & _ & _ & Hnan & _).
    apply Hnan. reflexivity.
Defined.

(** For a positive threshold the gate multiplies each finite sample of
    a one-dimensional buffer by a factor between 0 and 1: no sample comes
    out larger in magnitude than it went in.  Under a negative threshold,
    which the constructor accepts, every finite sample comes out as 0. *)
Theorem noise_reducer_never_amplifies (nr : NoiseReducer.t) (t : Q) (xs : list sample) :
  NoiseReducer.threshold nr = Finite t -> ~ t == 0 ->
  exists ys, NoiseReducer._process_impl nr (Mono xs) = Ok (Arr1 ys)
    /\ length ys = length xs
    /\ forall i a, xs !! i = Some (Finite a) ->
         exists y r, ys !! i = Some (Finite y)
           /\ y == a * r /\ 0 <= r <= 1 /\ Qabs y <= Qabs a
           /\ (t < 0 -> r == 0).
Proof.
  intros Hthr Ht. unfold NoiseReducer._process_impl. rewrite Hthr.
  eexists. split; [reflexivity|]. split.
  { rewrite length_zip_with, length_map. lia. }
  intros i a Hi. rewrite zip_with_mul_lookup, Hi. simpl.
  assert (Hmask : exists r, NoiseReducer.soft_mask (Finite t) (Finite a) = Finite r
                    /\ 0 <= r <= 1 /\ (t < 0 -> r == 0)).
  { destruct (Qlt_le_dec 0 t) as [Hpos|Hneg].
    - destruct (soft_mask_finite t a Hpos) as (r & Hr & Hzero & Hramp & Hone).
      exists r. split; [exact Hr|]. split; [|intros; lra].
      destruct (Qlt_le_dec (Qabs a) t) as [H1|H1]; [rewrite Hzero by lra; lra|].
      destruct (Qlt_le_dec (Qabs a) (2 * t)) as [H2|H2]; [|rewrite Hone by lra; lra].
      rewrite Hramp by lra. split.
      + apply Qle_shift_div_l; lra.
      + apply Qle_shift_div_r; lra.
    - assert (Hlt : t < 0) by (destruct (Qlt_le_dec t 0); [assumption|exfalso; apply Ht; lra]).
      exists 0. split; [|split; [lra|reflexivity]].
      unfold NoiseReducer.soft_mask, clip, sub. simpl opp. simpl add. simpl abs.
      unfold div. rewrite (Qzero_false t) by exact Ht.
      assert (Hq : (Qabs a + - t) / t < 0).
      { pose proof (Qabs_nonneg a) as Hn.
        assert (Heq : (Qabs a + - t) / t == - ((Qabs a + - t) / - t)) by (field; lra).
        assert (Hpos : 0 < (Qabs a + - t) / - t) by (apply Qlt_shift_div_l; lra).
        rewrite Heq. lra. }
      unfold maximum, zero. rewrite (proj2 (ltb_finite _ 0)) by exact Hq.
      reflexivity. }
  destruct Hmask as (r & -> & Hr & Hneg).
  exists (a * r), r. split; [reflexivity|]. split; [reflexivity|]. split; [exact Hr|].
  split; [|exact Hneg].
  rewrite Qabs_Qmult, (Qabs_pos r) by lra.
  pose proof (Qabs_nonneg a). nra.
Qed.

Lemma noise_reducer_never_amplifies_witness :
  exists ys, NoiseReducer._process_impl (NoiseReducer.__init__ (Finite (- (1 # 2))))
               (Mono [Finite (3 # 4)]) = Ok (Arr1 ys)
    /\ exists y r, ys !! 0%nat = Some (Finite y) /\ y == (3 # 4) * r /\ r == 0.
Proof.
  destruct (noise_reducer_never_amplifies (NoiseReducer.__init__ (Finite (- (1 # 2))))
              (- (1 # 2)) [Finite (3 # 4)] eq_refl) as (ys & Hrun & _ & Hat).
  - discriminate.
  - exists ys. split; [exact Hrun|].
    destruct (Hat 0%nat (3 # 4) eq_refl) as (y & r & Hy & Hyr & _ & _ & Hneg).
    exists y, r. split; [exact Hy|]. split; [exact Hyr|]. apply Hneg. reflexivity.
Defined.

(** The shapes the spatial enhancer does not widen: a one-dimensional
    buffer makes it raise IndexError, a two-dimensional buffer with a
    channel count other than 2 comes back as it is, and a stereo buffer of
    no frames makes it raise ValueError. *)
Theorem spatial_enhancer_other_shapes (se : SpatialEnhancer.t) (xs : list sample)
    (c : nat) (rows : list (list sample)) :
  SpatialEnhancer._process_impl se (Mono xs) = Raise IndexError
  /\ (c <> 2%nat -> SpatialEnhancer._process_impl se (Frames c rows) = Ok (Frames c rows))
  /\ SpatialEnhancer._process_impl se (Frames 2 []) = Raise ValueError.
Proof.
  split; [reflexivity|]. split; [|reflexivity].
  intros Hc. unfold SpatialEnhancer._process_impl.
  rewrite (proj2 (Nat.eqb_neq c 2) Hc). reflexivity.
Qed.

Lemma spatial_enhancer_other_shapes_witness :
  SpatialEnhancer._process_impl (SpatialEnhancer.__init__ one)
    (Frames 1 [[Finite 3]; [Finite (-5)]]) = Ok (Frames 1 [[Finite 3]; [Finite (-5)]]).
Proof.
  apply (proj1 (proj2 (spatial_enhancer_other_shapes (SpatialEnhancer.__init__ one) []
                         1 [[Finite 3]; [Finite (-5)]]))).
  discriminate.
Defined.

End MoreProcessors.

(** * Further properties of the equalizer *)

Section MoreEqualizer.
Context `{Externals}.
Import Equalizer.
Local Open Scope Q_scope.

Lemma bmap_bmap (f g : sample -> sample) (data : buffer) :
  bmap g (bmap f data) = bmap (fun x => g (f x)) data.
Proof.
  destruct data as [xs|c rows]; simpl; f_equal.
  - apply map_map.
  - rewrite map_map. apply map_ext. intros row. apply map_map.
Qed.

Lemma bmap_ext (f g : sample -> sample) (data : buffer) :
  (forall x, f x = g x) -> bmap f data = bmap g data.
Proof.
  intros Hfg. destruct data as [xs|c rows]; simpl; f_equal.
  - by apply map_ext.
  - apply map_ext. intros row. by apply map_ext.
Qed.

Lemma bmap_id (data : buffer) : bmap (fun x => x) data = data.
Proof.
  destruct data as [xs|c rows]; simpl; f_equal.
  - apply map_id.
  - rewrite <- (map_id rows) at 2. apply map_ext. intros row. apply map_id.
Qed.

Lemma samples_of_bmap (f : sample -> sample) (data : buffer) :
  samples_of (bmap f data) = map f (samples_of data).
Proof.
  destruct data as [xs|c rows]; simpl; [reflexivity|]. symmetry. apply concat_map.
Qed.

(** The loop over the bands, when each of them has a gain. *)
Lemma scale_by_gains_product (gs : list sample) (k i : nat) (data : buffer) :
  (i + k <= length gs)%nat ->
  scale_by_gains gs (seq i k) data
  = bmap (fun x => fold_left mul (take k (drop i gs)) x) data.
Proof.
  revert i data. induction k as [|k IH]; intros i data Hlen; simpl.
  - symmetry. apply bmap_id.
  - destruct (gs !! i) as [g|] eqn:Hg.
    2:{ apply lookup_ge_None in Hg. lia. }
    rewrite IH by lia. rewrite bmap_bmap.
    rewrite (drop_S gs g i Hg). reflexivity.
Qed.

(** Without a native backend, an enabled equalizer whose gain array has
    one entry per band returns each sample multiplied by every target
    gain in turn, the dB numbers themselves, and an empty buffer or a
    buffer for an equalizer of no bands as it came. *)
Theorem equalizer_process_multiplies_by_gains (e : t) (data : buffer) :
  consistent e -> _native e = None -> AudioProcessor.enabled (base e) = true ->
  process e data
  = (e, if ((bands e =? 0)%Z || (size data =? 0)%nat) then data
        else bmap (fun x => fold_left mul (gains e) x) data).
Proof.
  intros (Hb & Hg & _) Hn Hen. unfold process, _process_impl.
  rewrite Hen, Hn. simpl. f_equal.
  destruct ((bands e =? 0)%Z || (size data =? 0)%nat); [reflexivity|].
  rewrite scale_by_gains_product by lia.
  simpl drop. rewrite <- Hg, firstn_all. reflexivity.
Qed.

(** Multiplying a finite number by finite gains gives a finite number,
    which is zero as soon as one of the gains is. *)
Lemma fold_mul_finite (gs : list sample) (x : Q) :
  all_finite gs ->
  exists q, fold_left mul gs (Finite x) = Finite q
    /\ (x == 0 -> q == 0)
    /\ ((exists j g, gs !! j = Some (Finite g) /\ g == 0) -> q == 0).
Proof.
  revert x. induction gs as [|g rest IH]; intros x Hfin; simpl.
  - exists x. split; [reflexivity|]. split; [auto|].
    intros (j & g & Hj & _). rewrite lookup_nil in Hj. discriminate.
  - apply Forall_cons in Hfin as [Hg Hrest].
    destruct g as [g| |]; simpl in Hg; try discriminate.
    destruct (IH (x * g) Hrest) as (q & Hq & Hzero & Hany).
    exists q. split; [exact Hq|]. split.
    + intros Hx. apply Hzero. rewrite Hx. ring.
    + intros ([|j] & g' & Hj & Hg').
      * simpl in Hj. inversion Hj; subst g'. apply Hzero. rewrite Hg'. ring.
      * apply Hany. exists j, g'. split; assumption.
Qed.

(** The lowest band left at 0 dB silences the equalizer: with finite
    gains of which the first is zero, every finite sample of a non-empty
    buffer comes out as zero.  No product overflows on the way: the first
    multiplies a finite sample by zero, the others zero by a finite gain.
    The equalizer as constructed, all gains 0 dB, does so. *)
Theorem equalizer_flat_band_silences (e : t) (data : buffer) (g : Q) :
  consistent e -> _native e = None -> AudioProcessor.enabled (base e) = true ->
  all_finite (gains e) -> gains e !! 0%nat = Some (Finite g) -> g == 0 ->
  all_finite (samples_of data) -> size data <> 0%nat ->
  Forall (fun y => same y zero) (samples_of (process e data).2).
Proof.
  intros (Hb & Hlen & _) Hn Hen Hfin Hj Hg Hdata Hsize.
  unfold process, _process_impl. rewrite Hen, Hn. simpl.
  assert (Hbands : (bands e =? 0)%Z = false).
  { apply lookup_lt_Some in Hj. apply Z.eqb_neq. lia. }
  rewrite Hbands, (proj2 (Nat.eqb_neq _ _) Hsize). simpl.
  rewrite scale_by_gains_product by lia.
  simpl drop. rewrite <- Hlen, firstn_all.
  rewrite samples_of_bmap. apply Forall_fmap.
  eapply Forall_impl; [exact Hdata|]. intros x Hx. unfold compose.
  destruct x as [x| |]; simpl in Hx; try discriminate.
  change (drop 0 (gains e)) with (gains e).
  destruct (fold_mul_finite (gains e) x Hfin) as (q & -> & _ & Hany).
  simpl. apply Hany. exists 0%nat, g. split; assumption.
Qed.

Lemma update_filters_native_none (e : t) (given : option (list sample)) :
  _native e = None -> _native (update_filters e given).1 = None.
Proof.
  intros Hn. unfold update_filters.
  destruct (design_all e _ 0 (frequencies e) []) as [fs [u|err]]; simpl;
    [rewrite Hn|]; simpl; assumption || reflexivity.
Qed.

(** *** What every call keeps *)

Lemma step_keeps_sizes (e : t) (c : call) :
  consistent e /\ _native e = None /\ length (frequencies e) = Z.to_nat (bands e) ->
  consistent (step e c) /\ _native (step e c) = None
  /\ length (frequencies (step e c)) = Z.to_nat (bands (step e c)).
Proof.
  intros (Hc & Hn & Hf). destruct c as [band g|requested|g|tau| |data]; simpl.
  - split; [by apply set_gain_consistent|].
    unfold set_gain. destruct (_ || _); [by split|].
    destruct (negb _); [by split|]. simpl. rewrite Hn. by split.
  - split; [apply set_bands_consistent|].
    pose proof (set_bands_fields e requested) as F. cbv zeta in F.
    destruct F as (Hb & Hfr & _). rewrite Hfr, Hb, logspace_length. split; [|reflexivity].
    unfold set_bands.
    match goal with |- context [update_filters ?e1 ?g] =>
      pose proof (update_filters_native_none e1 g) as K end.
    destruct (update_filters _ _) as [e2 [u|err]]; simpl in *.
    + rewrite (K Hn). simpl. exact (K Hn).
    + exact (K Hn).
  - unfold set_output_gain. simpl. rewrite Hn. by split.
  - by split.
  - pose proof (update_filters_keeps e None) as K. cbv zeta in K.
    destruct K as (_ & Kb & Kf & Kg & Ks & _).
    unfold consistent. rewrite Kb, Kf, Kg, Ks.
    split; [exact Hc|]. split; [|exact Hf]. by apply update_filters_native_none.
  - pose proof (process_keeps e data) as K. cbv zeta in K.
    destruct K as (_ & _ & _ & _ & Ke). rewrite (Ke Hn). by split.
Qed.

(** From the constructor on, whatever calls of [set_gain], [set_bands],
    [set_output_gain], [set_smoothing_time], [update_filters] and
    [process] are made and whether or not they raise, the two gain arrays
    and the frequency table have one entry per band, and no native
    backend is ever attached. *)
Theorem equalizer_calls_keep_sizes (sample_rate : sample) (count : Z) (e0 : t)
    (calls : list call) :
  __init__ sample_rate count = Ok e0 ->
  let e := run e0 calls in
  (0 <= bands e)%Z
  /\ length (gains e) = Z.to_nat (bands e)
  /\ length (_smoothed_gains e) = Z.to_nat (bands e)
  /\ length (frequencies e) = Z.to_nat (bands e)
  /\ _native e = None.
Proof.
  intros Hinit. cbv zeta.
  assert (Hstart : consistent e0 /\ _native e0 = None
                   /\ length (frequencies e0) = Z.to_nat (bands e0)).
  { destruct (Z.ltb_spec count 0) as [Hneg|Ecount].
    { unfold __init__ in Hinit. rewrite (proj2 (Z.ltb_lt _ _) Hneg) in Hinit.
      discriminate. }
    rewrite (init_ok sample_rate count Ecount) in Hinit. inversion Hinit; subst e0.
    split; [by apply initial_consistent|]. split; [reflexivity|].
    simpl. apply logspace_length. }
  clear Hinit. revert e0 Hstart. unfold run.
  induction calls as [|c rest IH]; intros e0 Hstart; simpl.
  - destruct Hstart as ((Hb & Hg & Hs) & Hn & Hf). auto.
  - apply IH. by apply step_keeps_sizes.
Qed.

(** *** Filter design *)

Lemma design_asks (e : t) (gs : list sample) (sr g : sample) (i : nat) (freq : sample) :
  AudioProcessor.sample_rate (base e) = Some sr ->
  gs !! i = Some g -> is_flat g = false ->
  design e gs i freq
  = match butter 2 (butter_request e sr i freq).1 (butter_request e sr i freq).2 with
    | Raise err => Raise err
    | Ok (b, a) =>
        if gtb g zero then Ok (Some (scale b (pow10 (div g (Finite 20))), a))
        else Ok (Some (b, scale a (pow10 (div g (Finite 20)))))
    end.
Proof.
  intros Hsr Hg Hflat. unfold design, butter_request. rewrite Hg.
  fold (is_flat g). rewrite Hflat, Hsr.
  destruct (i =? 0)%nat; [reflexivity|].
  destruct (Z.of_nat i =? bands e - 1)%Z; reflexivity.
Qed.

Lemma design_all_count (e : t) (gs : list sample) (sr : sample) :
  AudioProcessor.sample_rate (base e) = Some sr ->
  forall freqs i acc, (i + length freqs <= length gs)%nat ->
  (forall j freq g, freqs !! j = Some freq -> gs !! (i + j)%nat = Some g ->
     is_flat g = false ->
     exists c, butter 2 (butter_request e sr (i + j) freq).1
                        (butter_request e sr (i + j) freq).2 = Ok c) ->
  exists built, design_all e gs i freqs acc = (acc ++ built, Ok tt)
    /\ length built
       = length (List.filter (fun g => negb (is_flat g)) (take (length freqs) (drop i gs))).
Proof.
  intros Hsr freqs. induction freqs as [|freq rest IH]; intros i acc Hlen Hbutter; simpl.
  - exists []. rewrite app_nil_r. split; reflexivity.
  - simpl in Hlen. destruct (gs !! i) as [g|] eqn:Hg.
    2:{ apply lookup_ge_None in Hg. lia. }
    rewrite (drop_S gs g i Hg). simpl.
    assert (Hrest : forall j freq' g', rest !! j = Some freq' ->
              gs !! (S i + j)%nat = Some g' -> is_flat g' = false ->
              exists c, butter 2 (butter_request e sr (S i + j) freq').1
                                 (butter_request e sr (S i + j) freq').2 = Ok c).
    { intros j freq' g' Hj Hg' Hflat'.
      replace (S i + j)%nat with (i + S j)%nat in * by lia.
      by apply (Hbutter (S j) freq' g'). }
    destruct (is_flat g) eqn:Hflat; simpl.
    + assert (Hskip : design e gs i freq = Ok None).
      { unfold design. rewrite Hg. fold (is_flat g). by rewrite Hflat. }
      rewrite Hskip. apply IH; [lia|exact Hrest].
    + rewrite (design_asks e gs sr g i freq Hsr Hg Hflat).
      destruct (Hbutter 0%nat freq g eq_refl) as ([b a] & Hc).
      { by rewrite Nat.add_0_r. }
      { exact Hflat. }
      rewrite Nat.add_0_r in Hc. rewrite Hc.
      destruct (gtb g zero);
        match goal with |- context [design_all e gs (S i) rest (acc ++ [?c])] =>
          destruct (IH (S i) (acc ++ [c]) ltac:(lia) Hrest) as (built & Hrun & Hcount);
          exists (c :: built); rewrite <- app_assoc in Hrun;
          (split; [exact Hrun|simpl; by rewrite Hcount])
        end.
Qed.

(** When the sample rate is set, every band has a gain and [butter]
    designs the filter of every band whose gain is at least 0.1 dB away
    from 0, each asked with the critical frequencies the loop computes
    for it, [update_filters] returns normally and leaves one filter for
    each of these bands, and none for the others; the filters it found
    are discarded. *)
Theorem update_filters_one_filter_per_band_off_flat (e : t) (gs : list sample)
    (sr : sample) :
  AudioProcessor.sample_rate (base e) = Some sr ->
  (length (frequencies e) <= length gs)%nat ->
  (forall i freq g, frequencies e !! i = Some freq -> gs !! i = Some g ->
     is_flat g = false ->
     exists c, butter 2 (butter_request e sr i freq).1
                        (butter_request e sr i freq).2 = Ok c) ->
  (update_filters e (Some gs)).2 = Ok tt
  /\ length (filters (update_filters e (Some gs)).1)
     = length (List.filter (fun g => negb (is_flat g)) (take (length (frequencies e)) gs)).
Proof.
  intros Hsr Hlen Hbutter. unfold update_filters.
  destruct (design_all_count e gs sr Hsr (frequencies e) 0%nat [] ltac:(simpl; lia) Hbutter)
    as (built & -> & Hcount).
  simpl. destruct (_native e); simpl; (split; [reflexivity|exact Hcount]).
Qed.

(** *** Band counts below one, and resizing twice *)

(** [set_bands] never leaves fewer than one band: a request of 1 or
    less gives one band, holding the old gain of band 0 or 0 dB if there
    was none.  After it the smoothed gains equal the target gains, and a
    second [set_bands] with the same request changes neither the band
    count nor the frequency table nor the gains. *)
Theorem set_bands_clamps_and_settles (e : t) (requested : Z) :
  let e1 := (set_bands e requested).1 in
  let e2 := (set_bands e1 requested).1 in
  (1 <= bands e1)%Z
  /\ ((requested <= 1)%Z ->
      bands e1 = 1%Z /\ gains e1 = [default zero (gains e !! 0%nat)])
  /\ _smoothed_gains e1 = gains e1
  /\ bands e2 = bands e1 /\ frequencies e2 = frequencies e1
  /\ gains e2 = gains e1 /\ _smoothed_gains e2 = _smoothed_gains e1.
Proof.
  cbv zeta.
  pose proof (set_bands_fields e requested) as F1. cbv zeta in F1.
  set (e1 := (set_bands e requested).1) in *.
  pose proof (set_bands_fields e1 requested) as F2. cbv zeta in F2.
  set (e2 := (set_bands e1 requested).1) in *.
  destruct F1 as (B1 & Fr1 & Min1 & Max1 & L1 & G1 & S1).
  destruct F2 as (B2 & Fr2 & Min2 & Max2 & L2 & G2 & S2).
  assert (Hgains : gains e2 = gains e1).
  { apply list_eq. intros i. destruct (decide (i < Z.to_nat (1 `max` requested))%nat) as [Hi|Hi].
    - rewrite G2 by exact Hi. destruct (gains e1 !! i) as [x|] eqn:Ex; [reflexivity|].
      apply lookup_ge_None in Ex. lia.
    - rewrite !(proj2 (lookup_ge_None _ i)) by lia. reflexivity. }
  split; [lia|]. split.
  { intros Hreq. rewrite Z.max_l in * by lia. split; [exact B1|].
    apply list_eq. intros [|i].
    - rewrite G1 by (simpl; lia). reflexivity.
    - rewrite (proj2 (lookup_ge_None _ (S i))) by (simpl in L1; lia). reflexivity. }
  split; [exact S1|]. split; [congruence|].
  split; [by rewrite Fr2, Fr1, Min1, Max1|]. split; [exact Hgains|congruence].
Qed.

End MoreEqualizer.

Lemma equalizer_process_multiplies_by_gains_witness :
  @Equalizer.process plain_externals Fixtures.low_boost Fixtures.four_ones
  = (Fixtures.low_boost,
     bmap (fun x => fold_left mul (Equalizer.gains (@Fixtures.low_boost plain_externals)) x)
          Fixtures.four_ones).
Proof.
  apply (@equalizer_process_multiplies_by_gains plain_externals
           Fixtures.low_boost Fixtures.four_ones).
  - unfold Equalizer.consistent. simpl. repeat split; lia.
  - reflexivity.
  - reflexivity.
Defined.

Lemma equalizer_flat_band_silences_witness :
  Forall (fun y => same y zero)
    (samples_of (@Equalizer.process plain_externals Fixtures.ten_bands Fixtures.four_ones).2).
Proof.
  apply (@equalizer_flat_band_silences plain_externals Fixtures.ten_bands
           Fixtures.four_ones 0).
  - unfold Equalizer.consistent. simpl. repeat split; lia.
  - reflexivity.
  - reflexivity.
  - simpl. repeat constructor.
  - reflexivity.
  - reflexivity.
  - simpl. repeat constructor.
  - discriminate.
Defined.

Lemma equalizer_calls_keep_sizes_witness :
  let e := @Equalizer.run plain_externals Fixtures.ten_bands
             [Equalizer.Set_gain 3 (Finite 6); Equalizer.Set_bands 31;
              Equalizer.Set_gain 40 (Finite 1); Equalizer.Process Fixtures.four_ones;
              Equalizer.Set_bands 0] in
  length (Equalizer.gains e) = Z.to_nat (Equalizer.bands e)
  /\ length (Equalizer.frequencies e) = Z.to_nat (Equalizer.bands e).
Proof.
  intros e.
  destruct (@equalizer_calls_keep_sizes plain_externals (Finite 48000) 10
              Fixtures.ten_bands
              [Equalizer.Set_gain 3 (Finite 6); Equalizer.Set_bands 31;
               Equalizer.Set_gain 40 (Finite 1); Equalizer.Process Fixtures.four_ones;
               Equalizer.Set_bands 0] eq_refl) as (_ & Hg & _ & Hf & _).
  split; [exact Hg|exact Hf].
Defined.

Lemma update_filters_one_filter_per_band_off_flat_witness :
  let e := @Equalizer.run checking_externals Fixtures.ten_bands
             [Equalizer.Set_gain 0 (Finite 6); Equalizer.Set_gain 4 (Finite 3);
              Equalizer.Set_gain 9 (Finite (- (3)))] in
  (@Equalizer.update_filters checking_externals e (Some (Equalizer.gains e))).2 = Ok tt
  /\ length (Equalizer.filters
               (@Equalizer.update_filters checking_externals e (Some (Equalizer.gains e))).1)
     = 3%nat.
Proof.
  intros e.
  destruct (@update_filters_one_filter_per_band_off_flat checking_externals e
              (Equalizer.gains e) (Finite 48000) eq_refl) as [Hok Hcount].
  - simpl. lia.
  - intros i freq g Hfreq Hgain Hflat.
    do 10 (destruct i as [|i];
           [vm_compute in Hfreq, Hgain; inversion Hfreq; inversion Hgain; subst;
            first [discriminate Hflat | vm_compute; eexists; reflexivity]|]).
    vm_compute in Hfreq. discriminate Hfreq.
  - split; [exact Hok|]. rewrite Hcount. reflexivity.
Defined.

Lemma set_bands_clamps_and_settles_witness :
  let e1 := (@Equalizer.set_bands plain_externals Fixtures.low_boost (-4)).1 in
  Equalizer.bands e1 = 1%Z /\ Equalizer.gains e1 = [Finite 6].
Proof.
  intros e1.
  destruct (@set_bands_clamps_and_settles plain_externals Fixtures.low_boost (-4))
    as (_ & Hclamp & _).
  apply Hclamp. lia.
Defined.

(** * Further properties of the device manager *)

Section MoreDevices.
Import AudioDeviceManager.
Local Open Scope Z_scope.

Lemma numbered_from_cons (k : nat) (info : DeviceInfo) (infos : list DeviceInfo) :
  numbered_from k (info :: infos) = (k, info) :: numbered_from (S k) infos.
Proof.
  unfold numbered_from. simpl. rewrite Nat.add_0_r. f_equal.
  apply imap_ext. intros i x _. simpl. f_equal. lia.
Qed.

(** Looking for index [j] in one loop's entries: the entry of the device
    info at [j] if it reports channels, and what follows otherwise. *)
Lemma find_entries (dir : direction) (count : DeviceInfo -> Z) (infos : list DeviceInfo)
    (k j : nat) (tail : list Device) :
  find (fun d => bool_decide (Some (index d) = Some (Z.of_nat j)))
       (entries dir count (numbered_from k infos) ++ tail)
  = match (if (k <=? j)%nat then infos !! (j - k)%nat else None) with
    | Some info =>
        if 0 <? count info then Some (entry dir count j info)
        else find (fun d => bool_decide (Some (index d) = Some (Z.of_nat j))) tail
    | None => find (fun d => bool_decide (Some (index d) = Some (Z.of_nat j))) tail
    end.
Proof.
  revert k. induction infos as [|info rest IH]; intros k.
  - simpl. destruct (k <=? j)%nat; reflexivity.
  - rewrite numbered_from_cons. unfold entries. simpl flat_map.
    fold (entries dir count (numbered_from (S k) rest)).
    destruct (Nat.eq_dec j k) as [->|Hne].
    + rewrite Nat.leb_refl, Nat.sub_diag.
      change ((info :: rest) !! 0%nat) with (Some info). cbv iota.
      destruct (0 <? count info) eqn:Ekeep.
      * simpl. rewrite bool_decide_eq_true_2 by reflexivity. reflexivity.
      * simpl app. rewrite IH. rewrite (proj2 (Nat.leb_gt (S k) k)) by lia. reflexivity.
    + assert (Hskip : forall l,
        find (fun d => bool_decide (Some (index d) = Some (Z.of_nat j)))
             ((if 0 <? count info then [entry dir count k info] else []) ++ l)
        = find (fun d => bool_decide (Some (index d) = Some (Z.of_nat j))) l).
      { intros l. destruct (0 <? count info); simpl; [|reflexivity].
        rewrite bool_decide_eq_false_2; [reflexivity|]. intros Heq. inversion Heq. lia. }
      rewrite <- app_assoc, Hskip, IH.
      destruct (Nat.leb_spec k j) as [Hle|Hgt].
      * rewrite (proj2 (Nat.leb_le (S k) j)) by lia.
        replace (j - k)%nat with (S (j - S k)) by lia. reflexivity.
      * rewrite (proj2 (Nat.leb_gt (S k) j)) by lia. reflexivity.
Qed.

Lemma find_device_enumerated (self : t) (infos : list DeviceInfo) (j : nat) :
  devices self = _enumerate_devices infos ->
  find_device self (Some (Z.of_nat j))
  = match infos !! j with
    | Some info =>
        if 0 <? maxOutputChannels info then Some (entry Output maxOutputChannels j info)
        else if 0 <? maxInputChannels info then Some (entry Input maxInputChannels j info)
        else None
    | None => None
    end.
Proof.
  intros Hdev. unfold find_device. rewrite Hdev. unfold _enumerate_devices.
  rewrite find_entries. simpl. rewrite Nat.sub_0_r.
  rewrite <- (app_nil_r (entries Input _ _)), find_entries. simpl. rewrite Nat.sub_0_r.
  destruct (infos !! j) as [info|]; [|reflexivity].
  destruct (0 <? maxOutputChannels info); reflexivity.
Qed.

(** After an enumeration the lookup of an index finds the output entry
    of a device that has output channels, also when it has input
    channels as well, the input entry of a device that has input channels
    only, and nothing otherwise.  So a device with both directions is
    accepted for the output categories and refused, with ValueError, for
    the microphone. *)
Theorem enumerated_device_lookup (self : t) (infos : list DeviceInfo) (j : nat) :
  devices self = _enumerate_devices infos ->
  find_device self (Some (Z.of_nat j))
  = match infos !! j with
    | Some info =>
        if 0 <? maxOutputChannels info then Some (entry Output maxOutputChannels j info)
        else if 0 <? maxInputChannels info then Some (entry Input maxInputChannels j info)
        else None
    | None => None
    end
  /\ (forall info, infos !! j = Some info -> 0 < maxOutputChannels info ->
      set_device_for_audio_type self "microphone" (Some (Z.of_nat j))
      = (self, Raise ValueError)
      /\ (set_device_for_audio_type self "game" (Some (Z.of_nat j))).2 = Ok true).
Proof.
  intros Hdev. pose proof (find_device_enumerated self infos j Hdev) as Hfind.
  split; [exact Hfind|]. intros info Hj Hout.
  rewrite Hj, (proj2 (Z.ltb_lt _ _) Hout) in Hfind.
  unfold set_device_for_audio_type. rewrite Hfind. split; reflexivity.
Qed.

Lemma enumerated_device_lookup_witness :
  set_device_for_audio_type (__init__ Fixtures.infos) "microphone" (Some 1)
  = (__init__ Fixtures.infos, Raise ValueError)
  /\ (set_device_for_audio_type (__init__ Fixtures.infos) "game" (Some 1)).2 = Ok true.
Proof.
  destruct (enumerated_device_lookup (__init__ Fixtures.infos) Fixtures.infos 1 eq_refl)
    as [_ Hduplex].
  apply (Hduplex _ eq_refl). reflexivity.
Defined.

(** *** The shape of an enumeration *)

Lemma entries_spec (dir : direction) (count : DeviceInfo -> Z) (infos : list DeviceInfo)
    (k : nat) :
  Forall (fun d => type d = dir /\ Z.of_nat k <= index d < Z.of_nat (k + length infos))
         (entries dir count (numbered_from k infos)).
Proof.
  revert k. induction infos as [|info rest IH]; intros k; [constructor|].
  rewrite numbered_from_cons. unfold entries. simpl flat_map.
  fold (entries dir count (numbered_from (S k) rest)).
  apply Forall_app. split.
  - destruct (0 <? count info); constructor; [|constructor]. simpl. split; [reflexivity|lia].
  - eapply Forall_impl; [apply IH|]. intros d [Hd Hi]. split; [exact Hd|]. simpl. lia.
Qed.

Lemma entries_length (dir : direction) (count : DeviceInfo -> Z) (infos : list DeviceInfo)
    (k : nat) :
  length (entries dir count (numbered_from k infos))
  = length (List.filter (fun info => 0 <? count info) infos).
Proof.
  revert k. induction infos as [|info rest IH]; intros k; [reflexivity|].
  rewrite numbered_from_cons. unfold entries. simpl.
  fold (entries dir count (numbered_from (S k) rest)).
  destruct (0 <? count info); simpl; by rewrite IH.
Qed.

Lemma filter_all (P : Device -> Prop) `{forall d, Decision (P d)} (l : list Device) :
  Forall P l -> filter P l = l.
Proof.
  induction 1 as [|d l Hd _ IH]; [reflexivity|].
  rewrite filter_cons_True by exact Hd. by rewrite IH.
Qed.

Lemma filter_none (P : Device -> Prop) `{forall d, Decision (P d)} (l : list Device) :
  Forall (fun d => ~ P d) l -> filter P l = [].
Proof.
  induction 1 as [|d l Hd _ IH]; [reflexivity|].
  rewrite filter_cons_False by exact Hd. exact IH.
Qed.

(** An enumeration lists the output devices first and the input devices
    after them, each under the index PyAudio gave it, between 0 and the
    device count; a device with both directions is listed twice. *)
Theorem enumeration_outputs_then_inputs (infos : list DeviceInfo) :
  let self := __init__ infos in
  get_output_devices self ++ get_input_devices self = devices self
  /\ Forall (fun d => 0 <= index d < Z.of_nat (length infos)) (devices self)
  /\ length (devices self)
     = (length (List.filter (fun info => (0 <? maxOutputChannels info)%Z) infos)
        + length (List.filter (fun info => (0 <? maxInputChannels info)%Z) infos))%nat.
Proof.
  cbv zeta. unfold get_output_devices, get_input_devices, __init__, _enumerate_devices.
  simpl devices.
  pose proof (entries_spec Output maxOutputChannels infos 0) as Hout.
  pose proof (entries_spec Input maxInputChannels infos 0) as Hin.
  split; [|split].
  - rewrite !filter_app.
    rewrite (filter_all (fun d => type d = Output) (entries Output _ _))
      by (eapply Forall_impl; [exact Hout|]; intros d [Hd _]; exact Hd).
    rewrite (filter_none (fun d => type d = Output) (entries Input _ _))
      by (eapply Forall_impl; [exact Hin|]; intros d [Hd _]; congruence).
    rewrite (filter_none (fun d => type d = Input) (entries Output _ _))
      by (eapply Forall_impl; [exact Hout|]; intros d [Hd _]; congruence).
    rewrite (filter_all (fun d => type d = Input) (entries Input _ _))
      by (eapply Forall_impl; [exact Hin|]; intros d [Hd _]; exact Hd).
    rewrite app_nil_r. reflexivity.
  - apply Forall_app. split; (eapply Forall_impl; [eassumption|]);
      intros d [_ Hd]; simpl in Hd; lia.
  - rewrite length_app, !entries_length. reflexivity.
Qed.

(** *** Assigning a device to a category *)

(** [set_device_for_audio_type] either returns True or raises
    ValueError.  It returns True exactly when the category is one of the
    five, a device of the given index is enumerated and the first such
    entry has the direction the category asks for: input for the
    microphone, output for the others.  When it raises nothing changes;
    when it returns the category reads back that device and the other
    categories are as before.  Every assignment stays one to an
    enumerated device of the right direction. *)
Theorem set_device_for_audio_type_checks (self : t) (audio_type : string)
    (device_index : option Z) :
  let r := set_device_for_audio_type self audio_type device_index in
  (r.2 = Ok true \/ r = (self, Raise ValueError))
  /\ (r.2 = Ok true <->
      audio_type ∈ audio_types
      /\ exists d, find_device self device_index = Some d
           /\ type d = (if bool_decide (audio_type = "microphone") then Input else Output))
  /\ (r.2 = Ok true ->
      exists d, get_device_for_audio_type r.1 audio_type = Ok (Some d)
        /\ Some (index d) = device_index
        /\ forall other, other <> audio_type ->
             active_devices r.1 !! other = active_devices self !! other)
  /\ (well_directed self -> well_directed r.1).
Proof.
  cbv zeta. unfold set_device_for_audio_type, get_device_for_audio_type.
  destruct (bool_decide (audio_type ∈ audio_types)) eqn:Etype; simpl.
  2:{ apply bool_decide_eq_false in Etype.
      split; [by right|]. split; [split; [discriminate|tauto]|].
      split; [discriminate|auto]. }
  apply bool_decide_eq_true in Etype.
  destruct (find_device self device_index) as [d|] eqn:Efind.
  2:{ split; [by right|]. split; [split; [discriminate|]|].
      - intros (_ & d & Hd & _). discriminate.
      - split; [discriminate|auto]. }
  assert (Hfound : Some (index d) = device_index /\ d ∈ devices self).
  { unfold find_device in Efind. apply find_some in Efind as [Hin Hd].
    apply bool_decide_eq_true in Hd. split; [exact Hd|by apply list_elem_of_In]. }
  destruct (bool_decide (audio_type = "microphone")) eqn:Emic;
    destruct (type d) eqn:Edir; simpl.
  - (* microphone, input *)
    split; [by left|]. split; [split; [|reflexivity]|].
    { intros _. split; [exact Etype|]. exists d. by rewrite Edir. }
    split.
    + intros _. exists d. rewrite lookup_insert_eq. split; [reflexivity|].
      split; [apply Hfound|]. intros other Hne. by rewrite lookup_insert_ne.
    + intros Hwd cat d' Hd'. simpl in Hd'.
      destruct (decide (audio_type = cat)) as [<-|Hne].
      * rewrite lookup_insert_eq in Hd'. inversion Hd'; subst d'.
        rewrite Emic. split; [exact Etype|]. split; [apply Hfound|exact Edir].
      * rewrite lookup_insert_ne in Hd' by exact Hne. by apply Hwd.
  - (* microphone, output *)
    split; [by right|]. split; [split; [discriminate|]|].
    + intros (_ & d' & Hd' & Hdir). congruence.
    + split; [discriminate|auto].
  - (* other, input *)
    split; [by right|]. split; [split; [discriminate|]|].
    + intros (_ & d' & Hd' & Hdir). congruence.
    + split; [discriminate|auto].
  - (* other, output *)
    split; [by left|]. split; [split; [|reflexivity]|].
    { intros _. split; [exact Etype|]. exists d. by rewrite Edir. }
    split.
    + intros _. exists d. rewrite lookup_insert_eq. split; [reflexivity|].
      split; [apply Hfound|]. intros other Hne. by rewrite lookup_insert_ne.
    + intros Hwd cat d' Hd'. simpl in Hd'.
      destruct (decide (audio_type = cat)) as [<-|Hne].
      * rewrite lookup_insert_eq in Hd'. inversion Hd'; subst d'.
        rewrite Emic. split; [exact Etype|]. split; [apply Hfound|exact Edir].
      * rewrite lookup_insert_ne in Hd' by exact Hne. by apply Hwd.
Qed.

Lemma set_device_for_audio_type_checks_witness :
  exists d, get_device_for_audio_type
              (set_device_for_audio_type (__init__ Fixtures.infos) "microphone" (Some 0)).1
              "microphone" = Ok (Some d)
    /\ Some (index d) = Some 0.
Proof.
  destruct (set_device_for_audio_type_checks (__init__ Fixtures.infos) "microphone" (Some 0))
    as (_ & _ & Hread & _).
  destruct (Hread eq_refl) as (d & Hd & Hi & _).
  exists d. split; [exact Hd|exact Hi].
Defined.

(** *** Refreshing the enumeration *)

Lemma drop_stale_lookup (indices : list Z) (keys : list string)
    (active : gmap string Device) (k : string) :
  drop_stale indices keys active !! k
  = match active !! k with
    | Some d =>
        if bool_decide (k ∈ keys) && negb (bool_decide (index d ∈ indices))
        then None else Some d
    | None => None
    end.
Proof.
  unfold drop_stale. revert active.
  induction keys as [|key rest IH]; intros active; simpl.
  - destruct (active !! k); reflexivity.
  - rewrite IH. clear IH.
    destruct (decide (k = key)) as [->|Hne].
    + rewrite (bool_decide_eq_true_2 (key ∈ key :: rest)) by apply list_elem_of_here.
      destruct (active !! key) as [d|] eqn:Ed; [|by rewrite Ed].
      destruct (bool_decide (index d ∈ indices)) eqn:Ein; simpl.
      * rewrite Ed, Ein. simpl. rewrite andb_false_r. reflexivity.
      * rewrite lookup_delete_eq. reflexivity.
    + assert (Hmem : bool_decide (k ∈ key :: rest) = bool_decide (k ∈ rest)).
      { apply bool_decide_ext. rewrite elem_of_cons. tauto. }
      rewrite Hmem.
      destruct (active !! key) as [d|]; [|reflexivity].
      destruct (bool_decide (index d ∈ indices)); [reflexivity|].
      rewrite lookup_delete_ne by congruence. reflexivity.
Qed.

(** [refresh_devices] replaces the device list by the new enumeration and
    keeps an assignment exactly when the index of its device is still
    enumerated; what it keeps is the old record of the device, whatever
    now sits at that index.  It adds no assignment and leaves the session
    routes alone. *)
Theorem refresh_devices_keeps_known_indices (self : t) (infos : list DeviceInfo)
    (audio_type : string) :
  let self' := refresh_devices self infos in
  devices self' = _enumerate_devices infos
  /\ session_routes self' = session_routes self
  /\ active_devices self' !! audio_type
     = match active_devices self !! audio_type with
       | Some d =>
           if bool_decide (index d ∈ map index (_enumerate_devices infos))
           then Some d else None
       | None => None
       end.
Proof.
  cbv zeta. unfold refresh_devices. simpl.
  split; [reflexivity|]. split; [reflexivity|].
  rewrite drop_stale_lookup.
  destruct (active_devices self !! audio_type) as [d|] eqn:Ed; [|reflexivity].
  rewrite bool_decide_eq_true_2.
  - destruct (bool_decide _); reflexivity.
  - apply list_elem_of_fmap. exists (audio_type, d). split; [reflexivity|].
    by apply elem_of_map_to_list.
Qed.

End MoreDevices.

(** * Further properties of the virtual buses *)

Section MoreBuses.
Local Open Scope Z_scope.

Lemma start_keeps_format (d : VirtualAudioDevice.t) (o : VirtualAudioDevice.stream_outcome) :
  let d' := (VirtualAudioDevice.start d o).1 in
  VirtualAudioDevice.name d' = VirtualAudioDevice.name d
  /\ VirtualAudioDevice.channels d' = VirtualAudioDevice.channels d
  /\ VirtualAudioDevice.sample_rate d' = VirtualAudioDevice.sample_rate d
  /\ VirtualAudioDevice.buffer_size d' = VirtualAudioDevice.buffer_size d
  /\ (VirtualAudioDevice.is_active d = true -> VirtualAudioDevice.stream d = true ->
      VirtualAudioDevice.is_active d' = true -> VirtualAudioDevice.stream d' = true)
  /\ (VirtualAudioDevice.is_active d' = true ->
      VirtualAudioDevice.is_active d = true \/ VirtualAudioDevice.stream d' = true).
Proof.
  unfold VirtualAudioDevice.start.
  destruct (VirtualAudioDevice.is_active d) eqn:Ea; [simpl; rewrite Ea; tauto|].
  destruct o; simpl; rewrite ?Ea; repeat split; auto; discriminate.
Qed.

Lemma stop_keeps_format (d : VirtualAudioDevice.t) :
  let d' := (VirtualAudioDevice.stop d).1 in
  VirtualAudioDevice.name d' = VirtualAudioDevice.name d
  /\ VirtualAudioDevice.channels d' = VirtualAudioDevice.channels d
  /\ VirtualAudioDevice.sample_rate d' = VirtualAudioDevice.sample_rate d
  /\ VirtualAudioDevice.buffer_size d' = VirtualAudioDevice.buffer_size d
  /\ VirtualAudioDevice.is_active d' = false.
Proof.
  unfold VirtualAudioDevice.stop.
  destruct (VirtualAudioDevice.is_active d) eqn:Ea; simpl; rewrite ?Ea; repeat split.
Qed.

(** Whatever [start] and [stop] calls a bus has seen since it was
    created, and however its streams opened or failed, the bus keeps the
    name and format it was created with, and while it is active it holds
    a stream. *)
Theorem bus_active_holds_stream (name : string) (channels sample_rate buffer_size : Z)
    (calls : list VirtualAudioDevice.call) :
  let d := VirtualAudioDevice.run
             (VirtualAudioDevice.__init__ name channels sample_rate buffer_size) calls in
  VirtualAudioDevice.name d = name
  /\ VirtualAudioDevice.channels d = channels
  /\ VirtualAudioDevice.sample_rate d = sample_rate
  /\ VirtualAudioDevice.buffer_size d = buffer_size
  /\ (if VirtualAudioDevice.is_active d then VirtualAudioDevice.stream d = true else True).
Proof.
  cbv zeta. unfold VirtualAudioDevice.run.
  set (d0 := VirtualAudioDevice.__init__ name channels sample_rate buffer_size).
  assert (Hstart : VirtualAudioDevice.name d0 = name
                   /\ VirtualAudioDevice.channels d0 = channels
                   /\ VirtualAudioDevice.sample_rate d0 = sample_rate
                   /\ VirtualAudioDevice.buffer_size d0 = buffer_size
                   /\ (if VirtualAudioDevice.is_active d0
                       then VirtualAudioDevice.stream d0 = true else True))
    by (repeat split).
  clearbody d0. revert d0 Hstart.
  induction calls as [|c rest IH]; intros d0 Hstart; simpl; [exact Hstart|].
  apply IH. destruct Hstart as (Hn & Hc & Hs & Hb & Hact).
  destruct c as [o|]; simpl.
  - unfold VirtualAudioDevice.start.
    destruct (VirtualAudioDevice.is_active d0) eqn:Ea; simpl.
    + rewrite Ea. auto.
    + destruct o; simpl; rewrite ?Ea; auto.
  - unfold VirtualAudioDevice.stop.
    destruct (VirtualAudioDevice.is_active d0) eqn:Ea; simpl; rewrite ?Ea; auto.
Qed.

(** [start] on an active bus and [stop] on a stopped bus change nothing.
    [stop] always leaves the bus inactive, announces itself once, and
    stops and closes the stream only of a bus that was active and held
    one; a second [stop] touches no stream. *)
Theorem bus_start_stop_idempotent (d : VirtualAudioDevice.t)
    (o : VirtualAudioDevice.stream_outcome) :
  (VirtualAudioDevice.is_active d = true -> VirtualAudioDevice.start d o = (d, true))
  /\ (VirtualAudioDevice.is_active d = false ->
      VirtualAudioDevice.stop d = (d, [Called_stop (VirtualAudioDevice.name d)]))
  /\ VirtualAudioDevice.is_active (VirtualAudioDevice.stop d).1 = false
  /\ VirtualAudioDevice.stop (VirtualAudioDevice.stop d).1
     = ((VirtualAudioDevice.stop d).1, [Called_stop (VirtualAudioDevice.name d)])
  /\ (Stream_close (VirtualAudioDevice.name d) ∈ (VirtualAudioDevice.stop d).2 <->
      VirtualAudioDevice.is_active d = true /\ VirtualAudioDevice.stream d = true).
Proof.
  unfold VirtualAudioDevice.start, VirtualAudioDevice.stop.
  destruct (VirtualAudioDevice.is_active d) eqn:Ea; simpl; rewrite ?Ea; simpl.
  - split; [reflexivity|]. split; [discriminate|]. split; [reflexivity|].
    split; [reflexivity|].
    destruct (VirtualAudioDevice.stream d); simpl.
    + split; [auto|]. intros _. do 2 apply list_elem_of_further. apply list_elem_of_here.
    + split; [|intros [_ ?]; discriminate].
      intros Hin. apply elem_of_cons in Hin as [Hin|Hin]; [discriminate|].
      apply elem_of_nil in Hin. contradiction.
  - split; [discriminate|]. split; [reflexivity|]. split; [reflexivity|].
    split; [reflexivity|]. split; [|intros [? _]; discriminate].
    intros Hin. apply elem_of_cons in Hin as [Hin|Hin]; [discriminate|].
    apply elem_of_nil in Hin. contradiction.
Qed.

Lemma bus_start_stop_idempotent_witness :
  let d := (VirtualAudioDevice.start (VirtualAudioDevice.__init__ "bus" 2 48000 1024)
              VirtualAudioDevice.Stream_opens).1 in
  VirtualAudioDevice.start d VirtualAudioDevice.Stream_start_raises = (d, true)
  /\ VirtualAudioDevice.stop (VirtualAudioDevice.__init__ "bus" 2 48000 1024)
     = (VirtualAudioDevice.__init__ "bus" 2 48000 1024, [Called_stop "bus"]).
Proof.
  intros d. split.
  - apply (proj1 (bus_start_stop_idempotent d VirtualAudioDevice.Stream_start_raises)).
    reflexivity.
  - apply (proj1 (proj2 (bus_start_stop_idempotent
                           (VirtualAudioDevice.__init__ "bus" 2 48000 1024)
                           VirtualAudioDevice.Stream_opens))).
    reflexivity.
Defined.

(** When the stream is built and its own [start] raises, the bus is left
    holding the stream without being active, and [stop], which returns
    early on an inactive bus, never stops or closes it, however often it
    is called. *)
Theorem failed_stream_start_is_never_closed (d : VirtualAudioDevice.t) (n : nat) :
  VirtualAudioDevice.is_active d = false ->
  let d1 := (VirtualAudioDevice.start d VirtualAudioDevice.Stream_start_raises).1 in
  (VirtualAudioDevice.start d VirtualAudioDevice.Stream_start_raises).2 = false
  /\ VirtualAudioDevice.stream d1 = true
  /\ VirtualAudioDevice.is_active d1 = false
  /\ VirtualAudioDevice.stop d1 = (d1, [Called_stop (VirtualAudioDevice.name d)])
  /\ VirtualAudioDevice.run d1 (replicate n VirtualAudioDevice.Stop) = d1.
Proof.
  intros Ha. cbv zeta. unfold VirtualAudioDevice.start. rewrite Ha. simpl.
  repeat split.
  induction n as [|n IH]; [reflexivity|]. simpl. exact IH.
Qed.

Lemma failed_stream_start_is_never_closed_witness :
  VirtualAudioDevice.stream
    (VirtualAudioDevice.run (VirtualAudioDevice.__init__ "bus" 2 48000 1024)
       [VirtualAudioDevice.Start VirtualAudioDevice.Stream_start_raises;
        VirtualAudioDevice.Stop; VirtualAudioDevice.Stop]) = true.
Proof.
  destruct (failed_stream_start_is_never_closed
              (VirtualAudioDevice.__init__ "bus" 2 48000 1024) 2 eq_refl)
    as (_ & Hstream & _ & _ & Hrun).
  change (VirtualAudioDevice.stream
            (VirtualAudioDevice.run
               (VirtualAudioDevice.start (VirtualAudioDevice.__init__ "bus" 2 48000 1024)
                  VirtualAudioDevice.Stream_start_raises).1
               (replicate 2 VirtualAudioDevice.Stop)) = true).
  rewrite Hrun. exact Hstream.
Defined.

(** *** The router *)

Lemma route_audio_fields (r : VirtualAudioRouter.t) (src dst : string)
    (first second : VirtualAudioDevice.stream_outcome) (a b : VirtualAudioDevice.t) :
  VirtualAudioRouter.virtual_devices r !! src = Some a ->
  VirtualAudioRouter.virtual_devices r !! dst = Some b ->
  let r' := (VirtualAudioRouter.route_audio r src dst first second).1 in
  VirtualAudioRouter.routing_table r' = <[src := dst]> (VirtualAudioRouter.routing_table r)
  /\ forall key,
       match VirtualAudioRouter.virtual_devices r' !! key,
             VirtualAudioRouter.virtual_devices r !! key with
       | Some d', Some d => VirtualAudioDevice.name d' = VirtualAudioDevice.name d
       | None, None => True
       | _, _ => False
       end.
Proof.
  intros Ha Hb. cbv zeta. unfold VirtualAudioRouter.route_audio. rewrite Ha, Hb.
  pose proof (start_keeps_format a first) as Ka. cbv zeta in Ka.
  destruct (VirtualAudioDevice.start a first) as [a' ok1]. simpl in Ka.
  destruct Ka as (Kan & _).
  assert (Hstep1 : forall key,
    match <[src := a']> (VirtualAudioRouter.virtual_devices r) !! key,
          VirtualAudioRouter.virtual_devices r !! key with
    | Some d', Some d => VirtualAudioDevice.name d' = VirtualAudioDevice.name d
    | None, None => True
    | _, _ => False
    end).
  { intros key. destruct (decide (src = key)) as [<-|Hne].
    - rewrite lookup_insert_eq, Ha. exact Kan.
    - rewrite lookup_insert_ne by exact Hne.
      destruct (VirtualAudioRouter.virtual_devices r !! key); auto. }
  destruct ok1; simpl; [|split; [reflexivity|exact Hstep1]].
  set (b0 := if bool_decide (dst = src) then a' else b).
  assert (Hb0 : VirtualAudioDevice.name b0 = VirtualAudioDevice.name b).
  { unfold b0. destruct (bool_decide (dst = src)) eqn:E; [|reflexivity].
    apply bool_decide_eq_true in E. subst dst. rewrite Ha in Hb. inversion Hb; subst b.
    exact Kan. }
  pose proof (start_keeps_format b0 second) as Kb. cbv zeta in Kb.
  destruct (VirtualAudioDevice.start b0 second) as [b' ok2]. simpl in Kb.
  destruct Kb as (Kbn & _). simpl.
  split; [reflexivity|]. intros key.
  destruct (decide (dst = key)) as [<-|Hne].
  - rewrite lookup_insert_eq, Hb. congruence.
  - rewrite lookup_insert_ne by exact Hne. apply Hstep1.
Qed.

Lemma router_step_keeps (r : VirtualAudioRouter.t) (c : VirtualAudioRouter.call) :
  VirtualAudioRouter.table_closed r /\ VirtualAudioRouter.keyed_by_name r ->
  VirtualAudioRouter.table_closed (VirtualAudioRouter.step r c)
  /\ VirtualAudioRouter.keyed_by_name (VirtualAudioRouter.step r c).
Proof.
  intros [Hclosed Hkeyed].
  destruct c as [name ch sr bs|name collected|src dst first second|src|]; simpl.
  - (* create *)
    unfold VirtualAudioRouter.create_virtual_device.
    destruct (VirtualAudioRouter.virtual_devices r !! name) eqn:E; simpl; [by split|].
    split.
    + intros s d Hsd. simpl in Hsd. destruct (Hclosed s d Hsd) as [[x Hx] [y Hy]]. simpl.
      split.
      * destruct (decide (name = s)) as [->|?]; [congruence|].
        rewrite lookup_insert_ne by done. eauto.
      * destruct (decide (name = d)) as [->|?]; [congruence|].
        rewrite lookup_insert_ne by done. eauto.
    + intros key dev Hdev. simpl in Hdev.
      destruct (decide (name = key)) as [->|?].
      * rewrite lookup_insert_eq in Hdev. by inversion Hdev.
      * rewrite lookup_insert_ne in Hdev by done. by apply Hkeyed.
  - (* remove device *)
    unfold VirtualAudioRouter.remove_virtual_device.
    destruct (VirtualAudioRouter.virtual_devices r !! name) as [bus|] eqn:E; simpl;
      [|by split].
    destruct (VirtualAudioDevice.stop bus) as [bus' trace]. simpl. split.
    + intros s d Hsd. simpl in Hsd.
      pose proof (drop_routes_subset _ _ _ _ _ Hsd) as Hold.
      assert (Hin : s ∈ map fst (map_to_list (VirtualAudioRouter.routing_table r))).
      { apply list_elem_of_fmap. exists (s, d). split; [done|].
        by apply elem_of_map_to_list. }
      assert (Hs : s <> name).
      { intros ->. rewrite drop_routes_removed in Hsd by (done || by left). discriminate. }
      assert (Hd : d <> name).
      { intros ->. rewrite drop_routes_removed in Hsd by (done || by right). discriminate. }
      destruct (Hclosed s d Hold) as [Hx Hy]. simpl.
      rewrite !lookup_delete_ne by congruence. by split.
    + intros key dev Hdev. simpl in Hdev.
      apply lookup_delete_Some in Hdev as [_ Hdev]. by apply Hkeyed.
  - (* route_audio *)
    destruct (VirtualAudioRouter.virtual_devices r !! src) as [a|] eqn:Ea.
    2:{ unfold VirtualAudioRouter.route_audio. rewrite Ea. by split. }
    destruct (VirtualAudioRouter.virtual_devices r !! dst) as [b|] eqn:Eb.
    2:{ unfold VirtualAudioRouter.route_audio. rewrite Ea, Eb. by split. }
    pose proof (route_audio_fields r src dst first second a b Ea Eb) as [Htable Hdevs].
    split.
    + intros s d Hsd. rewrite Htable in Hsd.
      assert (Hboth : is_Some (VirtualAudioRouter.virtual_devices r !! s)
                      /\ is_Some (VirtualAudioRouter.virtual_devices r !! d)).
      { destruct (decide (src = s)) as [<-|Hne].
        - rewrite lookup_insert_eq in Hsd. inversion Hsd; subst d. eauto.
        - rewrite lookup_insert_ne in Hsd by exact Hne. by apply Hclosed. }
      destruct Hboth as [[x Hx] [y Hy]].
      pose proof (Hdevs s) as Ks. pose proof (Hdevs d) as Kd.
      rewrite Hx in Ks. rewrite Hy in Kd.
      split.
      * revert Ks.
        destruct (VirtualAudioRouter.virtual_devices
                    (VirtualAudioRouter.route_audio r src dst first second).1 !! s);
          [eauto|contradiction].
      * revert Kd.
        destruct (VirtualAudioRouter.virtual_devices
                    (VirtualAudioRouter.route_audio r src dst first second).1 !! d);
          [eauto|contradiction].
    + intros key dev Hdev. pose proof (Hdevs key) as Kk. rewrite Hdev in Kk.
      destruct (VirtualAudioRouter.virtual_devices r !! key) as [old|] eqn:Eold;
        [|contradiction].
      rewrite Kk. by apply Hkeyed.
  - (* remove route *)
    unfold VirtualAudioRouter.remove_route.
    destruct (VirtualAudioRouter.routing_table r !! src) eqn:E; simpl; [|by split].
    split; [|exact Hkeyed].
    intros from to Hroute. simpl in Hroute.
    apply lookup_delete_Some in Hroute as [_ Hroute]. by apply Hclosed.
  - (* stop all *)
    unfold VirtualAudioRouter.stop_all_devices. split.
    + intros from to Hroute. simpl in *.
      destruct (Hclosed from to Hroute) as [[x Hx] [y Hy]].
      rewrite !lookup_fmap, Hx, Hy. simpl. eauto.
    + intros key dev Hdev. simpl in Hdev. rewrite lookup_fmap in Hdev.
      destruct (VirtualAudioRouter.virtual_devices r !! key) as [old|] eqn:Eold;
        [|discriminate].
      simpl in Hdev. inversion Hdev; subst dev.
      pose proof (stop_keeps_format old) as K. cbv zeta in K. destruct K as (-> & _).
      by apply Hkeyed.
Qed.

(** Whatever calls of [create_virtual_device], [remove_virtual_device],
    [route_audio], [remove_route] and [stop_all_devices] a router has
    seen since it was created, every route of its table runs between two
    buses that exist: removing a bus takes its routes with it.  And every
    bus is stored under its own name. *)
Theorem router_table_stays_closed (calls : list VirtualAudioRouter.call) :
  let r := VirtualAudioRouter.run VirtualAudioRouter.__init__ calls in
  (forall source destination,
     VirtualAudioRouter.get_route r source = Some destination ->
     is_Some (VirtualAudioRouter.get_virtual_device r source)
     /\ is_Some (VirtualAudioRouter.get_virtual_device r destination))
  /\ (forall key device,
        VirtualAudioRouter.get_virtual_device r key = Some device ->
        VirtualAudioDevice.name device = key).
Proof.
  cbv zeta. unfold VirtualAudioRouter.run.
  assert (Hstart : VirtualAudioRouter.table_closed VirtualAudioRouter.__init__
                   /\ VirtualAudioRouter.keyed_by_name VirtualAudioRouter.__init__).
  { split; intros k v Hk; simpl in Hk; rewrite lookup_empty in Hk; discriminate. }
  revert Hstart. generalize VirtualAudioRouter.__init__.
  induction calls as [|c rest IH]; intros r Hr; simpl; [exact Hr|].
  apply IH. by apply router_step_keeps.
Qed.

Lemma router_table_stays_closed_witness :
  let r := VirtualAudioRouter.run VirtualAudioRouter.__init__
             [VirtualAudioRouter.Create_virtual_device "a" 2 48000 1024;
              VirtualAudioRouter.Create_virtual_device "b" 2 48000 1024;
              VirtualAudioRouter.Route_audio "a" "b"
                VirtualAudioDevice.Stream_opens VirtualAudioDevice.Stream_opens] in
  is_Some (VirtualAudioRouter.get_virtual_device r "b").
Proof.
  intros r.
  apply (proj1 (router_table_stays_closed
                  [VirtualAudioRouter.Create_virtual_device "a" 2 48000 1024;
                   VirtualAudioRouter.Create_virtual_device "b" 2 48000 1024;
                   VirtualAudioRouter.Route_audio "a" "b"
                     VirtualAudioDevice.Stream_opens VirtualAudioDevice.Stream_opens])
               "a" "b").
  reflexivity.
Defined.

Lemma start_returns_active (d : VirtualAudioDevice.t)
    (o : VirtualAudioDevice.stream_outcome) :
  (VirtualAudioDevice.start d o).2 = true ->
  VirtualAudioDevice.is_active (VirtualAudioDevice.start d o).1 = true.
Proof.
  unfold VirtualAudioDevice.start.
  destruct (VirtualAudioDevice.is_active d) eqn:Ea; [simpl; auto|].
  destruct o; simpl; auto; discriminate.
Qed.

(** [route_audio] raises ValueError and changes nothing when the source
    or the destination bus does not exist.  Otherwise it records the
    route before it starts the buses: the route is in the table also
    when a stream fails to open and the call raises.  When it returns,
    both buses are active. *)
Theorem route_audio_records_route_first (r : VirtualAudioRouter.t) (src dst : string)
    (first second : VirtualAudioDevice.stream_outcome) :
  let res := VirtualAudioRouter.route_audio r src dst first second in
  ((VirtualAudioRouter.get_virtual_device r src = None
    \/ VirtualAudioRouter.get_virtual_device r dst = None) ->
   res = (r, VirtualAudioRouter.Route_raises ValueError))
  /\ (is_Some (VirtualAudioRouter.get_virtual_device r src) ->
      is_Some (VirtualAudioRouter.get_virtual_device r dst) ->
      VirtualAudioRouter.get_route res.1 src = Some dst
      /\ (res.2 = VirtualAudioRouter.Routed \/ res.2 = VirtualAudioRouter.Stream_raises)
      /\ (first = VirtualAudioDevice.Stream_opens ->
          second = VirtualAudioDevice.Stream_opens -> res.2 = VirtualAudioRouter.Routed)
      /\ (res.2 = VirtualAudioRouter.Routed ->
          exists a b, VirtualAudioRouter.get_virtual_device res.1 src = Some a
            /\ VirtualAudioRouter.get_virtual_device res.1 dst = Some b
            /\ VirtualAudioDevice.is_active a = true
            /\ VirtualAudioDevice.is_active b = true)).
Proof.
  cbv zeta. unfold VirtualAudioRouter.get_virtual_device, VirtualAudioRouter.get_route,
    VirtualAudioRouter.route_audio.
  split.
  - intros [Hs|Hd]; [by rewrite Hs|].
    destruct (VirtualAudioRouter.virtual_devices r !! src); [by rewrite Hd|reflexivity].
  - intros [a Ha] [b Hb]. rewrite Ha, Hb.
    pose proof (start_returns_active a first) as Ka.
    assert (Kopen : first = VirtualAudioDevice.Stream_opens ->
                    (VirtualAudioDevice.start a first).2 = true).
    { intros ->. unfold VirtualAudioDevice.start.
      destruct (VirtualAudioDevice.is_active a); reflexivity. }
    destruct (VirtualAudioDevice.start a first) as [a' ok1]. simpl in Ka, Kopen.
    destruct ok1; simpl.
    2:{ rewrite lookup_insert_eq. split; [reflexivity|]. split; [by right|].
        split; [intros Hf; specialize (Kopen Hf); discriminate|discriminate]. }
    set (b0 := if bool_decide (dst = src) then a' else b).
    pose proof (start_returns_active b0 second) as Kb.
    assert (Kopen2 : second = VirtualAudioDevice.Stream_opens ->
                     (VirtualAudioDevice.start b0 second).2 = true).
    { intros ->. unfold VirtualAudioDevice.start.
      destruct (VirtualAudioDevice.is_active b0); reflexivity. }
    assert (Kkeep : dst = src -> (VirtualAudioDevice.start b0 second).1 = a').
    { intros Heq. unfold b0. rewrite bool_decide_eq_true_2 by exact Heq.
      unfold VirtualAudioDevice.start. rewrite (Ka eq_refl). reflexivity. }
    destruct (VirtualAudioDevice.start b0 second) as [b' ok2]. simpl in Kb, Kopen2, Kkeep.
    simpl. rewrite lookup_insert_eq. split; [reflexivity|].
    split; [destruct ok2; auto|]. split; [intros _ Hs; by rewrite (Kopen2 Hs)|].
    intros Hrouted. destruct ok2; [|discriminate].
    destruct (decide (dst = src)) as [Heq|Hne].
    + rewrite (Kkeep Heq). subst dst. exists a', a'. rewrite lookup_insert_eq. auto.
    + exists a', b'. rewrite lookup_insert_ne by exact Hne.
      rewrite !lookup_insert_eq. auto.
Qed.

Lemma route_audio_records_route_first_witness :
  let r := VirtualAudioRouter.run VirtualAudioRouter.__init__
             [VirtualAudioRouter.Create_virtual_device "a" 2 48000 1024;
              VirtualAudioRouter.Create_virtual_device "b" 2 48000 1024] in
  VirtualAudioRouter.route_audio r "a" "missing"
    VirtualAudioDevice.Stream_opens VirtualAudioDevice.Stream_opens
  = (r, VirtualAudioRouter.Route_raises ValueError)
  /\ VirtualAudioRouter.get_route
       (VirtualAudioRouter.route_audio r "a" "b"
          VirtualAudioDevice.Stream_start_raises VirtualAudioDevice.Stream_opens).1 "a"
     = Some "b"
  /\ (VirtualAudioRouter.route_audio r "a" "b"
        VirtualAudioDevice.Stream_opens VirtualAudioDevice.Stream_opens).2
     = VirtualAudioRouter.Routed.
Proof.
  intros r. split; [|split].
  - apply (proj1 (route_audio_records_route_first r "a" "missing"
                    VirtualAudioDevice.Stream_opens VirtualAudioDevice.Stream_opens)).
    right. reflexivity.
  - apply (proj2 (route_audio_records_route_first r "a" "b"
                    VirtualAudioDevice.Stream_start_raises VirtualAudioDevice.Stream_opens));
      eexists; reflexivity.
  - apply (proj2 (route_audio_records_route_first r "a" "b"
                    VirtualAudioDevice.Stream_opens VirtualAudioDevice.Stream_opens));
      try (eexists; reflexivity); reflexivity.
Defined.

(** [stop_all_devices] leaves every bus inactive and under its name, an
    inactive bus exactly as it was and a bus that was active without its
    stream; it adds and removes no bus and leaves the routing table
    alone. *)
Theorem stop_all_devices_stops_every_bus (r : VirtualAudioRouter.t) (key : string) :
  let r' := VirtualAudioRouter.stop_all_devices r in
  VirtualAudioRouter.routing_table r' = VirtualAudioRouter.routing_table r
  /\ match VirtualAudioRouter.get_virtual_device r' key,
           VirtualAudioRouter.get_virtual_device r key with
     | Some d', Some d =>
         VirtualAudioDevice.is_active d' = false
         /\ VirtualAudioDevice.name d' = VirtualAudioDevice.name d
         /\ (if VirtualAudioDevice.is_active d
             then VirtualAudioDevice.stream d' = false else d' = d)
     | None, None => True
     | _, _ => False
     end.
Proof.
  cbv zeta. unfold VirtualAudioRouter.stop_all_devices, VirtualAudioRouter.get_virtual_device.
  simpl. split; [reflexivity|]. rewrite lookup_fmap.
  destruct (VirtualAudioRouter.virtual_devices r !! key) as [d|]; simpl; [|exact I].
  unfold VirtualAudioDevice.stop.
  destruct (VirtualAudioDevice.is_active d) eqn:Ea; simpl; rewrite ?Ea; auto.
Qed.

End MoreBuses.

(** * More on the routing system *)

Section MoreRouting.
Import AudioRoutingSystem.
Local Open Scope Z_scope.

Ltac list_mem :=
  repeat rewrite elem_of_cons in *; rewrite ?elem_of_nil in *; intuition congruence.

(** The two ways [set_device_for_audio_type] ends. *)
Lemma set_device_for_audio_type_cases (dm : AudioDeviceManager.t) (audio_type : string)
    (id : option Z) :
  (AudioDeviceManager.set_device_for_audio_type dm audio_type id = (dm, Raise ValueError)
   /\ ~ (audio_type ∈ AudioDeviceManager.audio_types
         /\ exists d, AudioDeviceManager.find_device dm id = Some d
              /\ type d = (if bool_decide (audio_type = "microphone")
                           then Input else Output)))
  \/ exists d,
       AudioDeviceManager.find_device dm id = Some d
       /\ d ∈ AudioDeviceManager.devices dm
       /\ Some (index d) = id
       /\ audio_type ∈ AudioDeviceManager.audio_types
       /\ type d = (if bool_decide (audio_type = "microphone") then Input else Output)
       /\ AudioDeviceManager.set_device_for_audio_type dm audio_type id
          = ({| AudioDeviceManager.devices := AudioDeviceManager.devices dm;
                AudioDeviceManager.active_devices :=
                  <[audio_type := d]> (AudioDeviceManager.active_devices dm);
                AudioDeviceManager.session_routes := AudioDeviceManager.session_routes dm |},
             Ok true).
Proof.
  unfold AudioDeviceManager.set_device_for_audio_type.
  destruct (bool_decide (audio_type ∈ AudioDeviceManager.audio_types)) eqn:Etype; simpl.
  2:{ apply bool_decide_eq_false in Etype. left. split; [reflexivity|tauto]. }
  apply bool_decide_eq_true in Etype.
  destruct (AudioDeviceManager.find_device dm id) as [d|] eqn:Efind.
  2:{ left. split; [reflexivity|]. intros (_ & d & Hd & _). discriminate. }
  assert (Hfound : Some (index d) = id /\ d ∈ AudioDeviceManager.devices dm).
  { unfold AudioDeviceManager.find_device in Efind. apply find_some in Efind as [Hin Hd].
    apply bool_decide_eq_true in Hd. split; [exact Hd|by apply list_elem_of_In]. }
  destruct (bool_decide (audio_type = "microphone")) eqn:Emic;
    destruct (type d) eqn:Edir; simpl.
  - right. exists d. rewrite Edir. repeat (split; [tauto|]). reflexivity.
  - left. split; [reflexivity|]. intros (_ & d' & Hd' & Hdir). congruence.
  - left. split; [reflexivity|]. intros (_ & d' & Hd' & Hdir). congruence.
  - right. exists d. rewrite Edir. repeat (split; [tauto|]). reflexivity.
Qed.

(** An assignment changes neither the enumeration nor the session routes
    and keeps the assignments well directed. *)
Lemma set_device_for_audio_type_keeps (dm : AudioDeviceManager.t) (audio_type : string)
    (id : option Z) :
  let dm' := (AudioDeviceManager.set_device_for_audio_type dm audio_type id).1 in
  AudioDeviceManager.devices dm' = AudioDeviceManager.devices dm
  /\ AudioDeviceManager.session_routes dm' = AudioDeviceManager.session_routes dm
  /\ (AudioDeviceManager.well_directed dm -> AudioDeviceManager.well_directed dm').
Proof.
  cbv zeta.
  destruct (set_device_for_audio_type_cases dm audio_type id)
    as [[-> _]|(d & _ & Hin & _ & Hty & Hdir & ->)]; simpl; [auto|].
  split; [reflexivity|]. split; [reflexivity|].
  intros Hwd cat d' Hd'. simpl in Hd'.
  destruct (decide (audio_type = cat)) as [<-|Hne].
  - rewrite lookup_insert_eq in Hd'. inversion Hd'; subst d'. auto.
  - rewrite lookup_insert_ne in Hd' by exact Hne. by apply Hwd.
Qed.

Lemma assign_all_keeps (tys : list string) (id : option Z) (dm : AudioDeviceManager.t) :
  let dm' := (assign_all dm tys id).1 in
  AudioDeviceManager.devices dm' = AudioDeviceManager.devices dm
  /\ AudioDeviceManager.session_routes dm' = AudioDeviceManager.session_routes dm
  /\ (AudioDeviceManager.well_directed dm -> AudioDeviceManager.well_directed dm').
Proof.
  cbv zeta. revert dm. induction tys as [|ty rest IH]; intros dm; simpl; [auto|].
  pose proof (set_device_for_audio_type_keeps dm ty id) as (Hd & Hs & Hw).
  destruct (AudioDeviceManager.set_device_for_audio_type dm ty id) as [dm1 [ok|e]];
    simpl in *; [|auto].
  destruct (IH dm1) as (Hd' & Hs' & Hw').
  split; [congruence|]. split; [congruence|auto].
Qed.

(** The loop over the output categories assigns the device to all of
    them or raises at the first and assigns none. *)
Lemma assign_all_outputs (tys : list string) (id : option Z) (dm : AudioDeviceManager.t) :
  tys <> [] ->
  Forall (fun ty => ty ∈ AudioDeviceManager.audio_types /\ ty <> "microphone") tys ->
  match AudioDeviceManager.find_device dm id with
  | Some d =>
      if bool_decide (type d = Output)
      then (assign_all dm tys id).2 = Ok tt
           /\ forall ty, AudioDeviceManager.active_devices (assign_all dm tys id).1 !! ty
                = if bool_decide (ty ∈ tys) then Some d
                  else AudioDeviceManager.active_devices dm !! ty
      else assign_all dm tys id = (dm, Raise ValueError)
  | None => assign_all dm tys id = (dm, Raise ValueError)
  end.
Proof.
  intros Hne Htys. revert dm.
  assert (Hgen : forall dm,
    match AudioDeviceManager.find_device dm id with
    | Some d =>
        if bool_decide (type d = Output)
        then (assign_all dm tys id).2 = Ok tt
             /\ forall ty, AudioDeviceManager.active_devices (assign_all dm tys id).1 !! ty
                  = if bool_decide (ty ∈ tys) then Some d
                    else AudioDeviceManager.active_devices dm !! ty
        else tys <> [] -> assign_all dm tys id = (dm, Raise ValueError)
    | None => tys <> [] -> assign_all dm tys id = (dm, Raise ValueError)
    end).
  { clear Hne. induction Htys as [|ty rest [Hty Hmic] _ IH]; intros dm.
    - destruct (AudioDeviceManager.find_device dm id) as [d|]; [|congruence].
      destruct (bool_decide (type d = Output)); [|congruence].
      simpl. split; reflexivity.
    - simpl.
      destruct (set_device_for_audio_type_cases dm ty id)
        as [[Hraise Hnot]|(d & Hfind & _ & _ & _ & Hdir & Hok)].
      + rewrite Hraise.
        destruct (AudioDeviceManager.find_device dm id) as [d|] eqn:Efind; [|auto].
        destruct (bool_decide (type d = Output)) eqn:Edir; [|auto].
        exfalso. apply Hnot. split; [exact Hty|]. exists d. split; [reflexivity|].
        rewrite bool_decide_eq_false_2 by exact Hmic. by apply bool_decide_eq_true in Edir.
      + rewrite Hok, Hfind.
        rewrite bool_decide_eq_false_2 in Hdir by exact Hmic.
        rewrite bool_decide_eq_true_2 by exact Hdir.
        specialize (IH {| AudioDeviceManager.devices := AudioDeviceManager.devices dm;
                          AudioDeviceManager.active_devices :=
                            <[ty := d]> (AudioDeviceManager.active_devices dm);
                          AudioDeviceManager.session_routes :=
                            AudioDeviceManager.session_routes dm |}).
        unfold AudioDeviceManager.find_device in IH, Hfind. simpl in IH.
        rewrite Hfind in IH. rewrite bool_decide_eq_true_2 in IH by exact Hdir.
        destruct IH as [IHok IHat]. split; [exact IHok|].
        intros ty'. rewrite IHat. simpl.
        destruct (decide (ty' = ty)) as [->|Hother].
        * rewrite lookup_insert_eq.
          rewrite (bool_decide_eq_true_2 (ty ∈ ty :: rest)) by apply list_elem_of_here.
          destruct (bool_decide (ty ∈ rest)); reflexivity.
        * rewrite lookup_insert_ne by congruence.
          assert (Hmem : bool_decide (ty' ∈ ty :: rest) = bool_decide (ty' ∈ rest)).
          { apply bool_decide_ext. rewrite elem_of_cons. tauto. }
          rewrite Hmem. reflexivity. }
  intros dm. specialize (Hgen dm).
  destruct (AudioDeviceManager.find_device dm id) as [d|]; [|auto].
  destruct (bool_decide (type d = Output)); auto.
Qed.

Lemma output_categories_are_outputs :
  output_categories <> []
  /\ Forall (fun ty => ty ∈ AudioDeviceManager.audio_types /\ ty <> "microphone")
            output_categories.
Proof.
  split; [discriminate|].
  unfold output_categories, AudioDeviceManager.audio_types.
  repeat constructor; try list_mem; discriminate.
Qed.

(** *** Creating and removing a route *)

(** [create_route] has two outcomes.  It raises ValueError, when the
    device manager refuses the device for the category, and then nothing
    at all has changed: no bus was made and no route stored.  Or it
    returns True: the route reads back as the device it chose and the
    bus, the category is assigned the first enumerated device of that
    index, a bus of that name is reused untouched if there is one and
    made with the default format otherwise, and the other routes are as
    before.  With unified mode off the device it chooses is the one
    supplied. *)
Theorem create_route_all_or_nothing (s : t) (audio_type : string) (id : option Z)
    (bus : string) :
  let r := create_route s audio_type id bus in
  r = (s, Raise ValueError)
  \/ (r.2 = Ok true
      /\ exists chosen d,
           get_route r.1 audio_type = Some (chosen, bus)
           /\ (unified_device_mode s = false -> chosen = id)
           /\ AudioDeviceManager.find_device (device_manager s) chosen = Some d
           /\ AudioDeviceManager.get_device_for_audio_type (device_manager r.1) audio_type
              = Ok (Some d)
           /\ match VirtualAudioRouter.get_virtual_device (virtual_router s) bus with
              | Some _ => virtual_router r.1 = virtual_router s
              | None =>
                  VirtualAudioRouter.get_virtual_device (virtual_router r.1) bus
                  = Some (VirtualAudioDevice.__init__ bus 2 48000 1024)
                  /\ forall other, other <> bus ->
                       VirtualAudioRouter.get_virtual_device (virtual_router r.1) other
                       = VirtualAudioRouter.get_virtual_device (virtual_router s) other
              end
           /\ forall other, other <> audio_type -> get_route r.1 other = get_route s other).
Proof.
  cbv zeta. unfold create_route, get_route.
  set (chosen := if unified_device_mode s then _ else id).
  assert (Hchosen : unified_device_mode s = false -> chosen = id).
  { unfold chosen. intros ->. reflexivity. }
  destruct (set_device_for_audio_type_cases (device_manager s) audio_type chosen)
    as [[-> _]|(d & Hfind & _ & _ & Hty & _ & ->)]; [by left|].
  right. unfold VirtualAudioRouter.get_virtual_device,
    VirtualAudioRouter.create_virtual_device.
  destruct (VirtualAudioRouter.virtual_devices (virtual_router s) !! bus) as [b|] eqn:Eb;
    simpl.
  - split; [reflexivity|]. exists chosen, d. rewrite lookup_insert_eq.
    split; [reflexivity|]. split; [exact Hchosen|]. split; [exact Hfind|].
    split.
    { unfold AudioDeviceManager.get_device_for_audio_type. simpl.
      rewrite bool_decide_eq_true_2 by exact Hty. simpl. by rewrite lookup_insert_eq. }
    split; [reflexivity|]. intros other Hne. by rewrite lookup_insert_ne.
  - split; [reflexivity|]. exists chosen, d. rewrite !lookup_insert_eq.
    split; [reflexivity|]. split; [exact Hchosen|]. split; [exact Hfind|].
    split.
    { unfold AudioDeviceManager.get_device_for_audio_type. simpl.
      rewrite bool_decide_eq_true_2 by exact Hty. simpl. by rewrite lookup_insert_eq. }
    split.
    { split; [reflexivity|]. intros other Hne. by rewrite lookup_insert_ne. }
    intros other Hne. by rewrite lookup_insert_ne.
Qed.

(** [remove_route] forgets the route and nothing else: after a
    [create_route] that returned True it returns True, the route reads
    back as None, and the bus and the device assignment that
    [create_route] made are still there; a second [remove_route] returns
    False and changes nothing. *)
Theorem remove_route_leaves_bus_and_device (s s' : t) (audio_type : string)
    (id : option Z) (bus : string) :
  create_route s audio_type id bus = (s', Ok true) ->
  let s'' := (remove_route s' audio_type).1 in
  (remove_route s' audio_type).2 = true
  /\ get_route s'' audio_type = None
  /\ virtual_router s'' = virtual_router s'
  /\ device_manager s'' = device_manager s'
  /\ is_Some (VirtualAudioRouter.get_virtual_device (virtual_router s'') bus)
  /\ (exists d, AudioDeviceManager.get_device_for_audio_type (device_manager s'') audio_type
               = Ok (Some d))
  /\ remove_route s'' audio_type = (s'', false).
Proof.
  intros Hcreate. cbv zeta.
  assert (Hroute : is_Some (routes s' !! audio_type)
                   /\ is_Some (VirtualAudioRouter.get_virtual_device (virtual_router s') bus)
                   /\ exists d, AudioDeviceManager.get_device_for_audio_type
                                  (device_manager s') audio_type = Ok (Some d)).
  { revert Hcreate. unfold create_route.
    set (chosen := if unified_device_mode s then _ else id).
    destruct (set_device_for_audio_type_cases (device_manager s) audio_type chosen)
      as [[-> _]|(d & _ & _ & _ & Hty & _ & ->)]; [discriminate|].
    unfold VirtualAudioRouter.get_virtual_device, VirtualAudioRouter.create_virtual_device.
    destruct (VirtualAudioRouter.virtual_devices (virtual_router s) !! bus) as [b|] eqn:Eb;
      intros Heq; inversion Heq; subst s'; simpl;
      rewrite ?lookup_insert_eq;
      (split; [by eexists|]); (split; [by eexists|]); exists d;
      unfold AudioDeviceManager.get_device_for_audio_type; simpl;
      rewrite bool_decide_eq_true_2 by exact Hty; simpl; by rewrite lookup_insert_eq. }
  destruct Hroute as ([route Hroute] & Hbus & Hdev).
  unfold remove_route, get_route. rewrite Hroute. simpl.
  rewrite lookup_delete_eq. repeat (split; [done|]). reflexivity.
Qed.

Lemma remove_route_leaves_bus_and_device_witness :
  let s' := (create_route Fixtures.fresh "game" (Some 2) "bus_game").1 in
  get_route (remove_route s' "game").1 "game" = None
  /\ is_Some (VirtualAudioRouter.get_virtual_device
                (virtual_router (remove_route s' "game").1) "bus_game").
Proof.
  intros s'.
  destruct (remove_route_leaves_bus_and_device Fixtures.fresh s' "game" (Some 2) "bus_game"
              eq_refl) as (_ & Hgone & _ & _ & Hbus & _).
  split; [exact Hgone|exact Hbus].
Defined.
(** *** Unified device mode *)

(** Switching unified mode on stores the mode and the two ids before any
    device is checked, so they are stored also when the call raises; the
    routes, the buses and the overrides are not touched.  For an output
    id that Python reads as true: if its first enumerated device is an
    output, all four output categories are assigned that device, also
    when the microphone then fails; otherwise the call raises ValueError
    with no assignment changed.  When the call returns and the input id
    reads as true, the microphone is assigned an input device of that
    index.  With both ids reading as false (None or 0) the call returns
    and assigns nothing. *)
Theorem set_unified_device_mode_outcomes (s : t) (out inp : option Z) :
  let r := set_unified_device_mode s true out inp in
  (unified_device_mode r.1 = true /\ unified_output_device r.1 = out
   /\ unified_input_device r.1 = inp /\ routes r.1 = routes s
   /\ virtual_router r.1 = virtual_router s
   /\ session_categories r.1 = session_categories s)
  /\ (truthy out = true ->
      match AudioDeviceManager.find_device (device_manager s) out with
      | Some d =>
          if bool_decide (type d = Output)
          then forall ty, ty ∈ output_categories ->
                 AudioDeviceManager.get_device_for_audio_type (device_manager r.1) ty
                 = Ok (Some d)
          else r.2 = Raise ValueError /\ device_manager r.1 = device_manager s
      | None => r.2 = Raise ValueError /\ device_manager r.1 = device_manager s
      end)
  /\ (r.2 = Ok tt -> truthy inp = true ->
      exists d, AudioDeviceManager.get_device_for_audio_type (device_manager r.1) "microphone"
                = Ok (Some d)
        /\ Some (index d) = inp /\ type d = Input)
  /\ (truthy out = false -> truthy inp = false ->
      r.2 = Ok tt /\ device_manager r.1 = device_manager s).
Proof.
  cbv zeta.
  destruct output_categories_are_outputs as [Hne Houts].
  pose proof (assign_all_outputs output_categories out (device_manager s) Hne Houts) as Hall.
  assert (Hmic : forall dm1,
    let m := AudioDeviceManager.set_device_for_audio_type dm1 "microphone" inp in
    (forall ty, ty ∈ output_categories ->
       AudioDeviceManager.active_devices m.1 !! ty
       = AudioDeviceManager.active_devices dm1 !! ty)
    /\ (m.2 = Ok true ->
        exists d, AudioDeviceManager.get_device_for_audio_type m.1 "microphone" = Ok (Some d)
          /\ Some (index d) = inp /\ type d = Input)
    /\ (m.2 = Ok true \/ m = (dm1, Raise ValueError))).
  { intros dm1. cbv zeta.
    destruct (set_device_for_audio_type_cases dm1 "microphone" inp)
      as [[-> _]|(d & _ & _ & Hi & _ & Hdir & ->)]; simpl.
    - split; [reflexivity|]. split; [discriminate|by right].
    - split.
      { intros ty Hty. apply lookup_insert_ne. intros <-.
        unfold output_categories in Hty. list_mem. }
      split; [|by left]. intros _. exists d.
      unfold AudioDeviceManager.get_device_for_audio_type. simpl.
      rewrite lookup_insert_eq. auto. }
  assert (Hread : forall dm ty, ty ∈ output_categories ->
            AudioDeviceManager.get_device_for_audio_type dm ty
            = Ok (AudioDeviceManager.active_devices dm !! ty)).
  { intros dm ty Hty. unfold AudioDeviceManager.get_device_for_audio_type.
    rewrite bool_decide_eq_true_2; [reflexivity|].
    unfold output_categories in Hty. unfold AudioDeviceManager.audio_types. list_mem. }
  assert (Hsame : forall dm : AudioDeviceManager.t,
            {| AudioDeviceManager.devices := AudioDeviceManager.devices dm;
               AudioDeviceManager.active_devices := AudioDeviceManager.active_devices dm;
               AudioDeviceManager.session_routes := AudioDeviceManager.session_routes dm |}
            = dm) by (by intros []).
  unfold set_unified_device_mode. simpl negb. cbv iota zeta. cbn [device_manager].
  destruct (truthy out) eqn:Eout.
  - destruct (assign_all (device_manager s) output_categories out) as [dm1 r1] eqn:Eall.
    simpl in Hall.
    destruct r1 as [[]|e].
    + assert (Hdm1 : forall d, AudioDeviceManager.find_device (device_manager s) out = Some d ->
                bool_decide (type d = Output) = true ->
                forall ty, ty ∈ output_categories ->
                  AudioDeviceManager.active_devices dm1 !! ty = Some d).
      { intros d Hd Hdir ty Hty. rewrite Hd, Hdir in Hall. destruct Hall as [_ Hat].
        rewrite Hat. by rewrite bool_decide_eq_true_2. }
      assert (Hfound : match AudioDeviceManager.find_device (device_manager s) out with
                       | Some d => bool_decide (type d = Output) = true
                       | None => False
                       end).
      { destruct (AudioDeviceManager.find_device (device_manager s) out) as [d|];
          [destruct (bool_decide (type d = Output))|]; try reflexivity; discriminate. }
      destruct (truthy inp) eqn:Einp.
      * destruct (Hmic dm1) as (Hkeep & Hset & Hcases).
        destruct (AudioDeviceManager.set_device_for_audio_type dm1 "microphone" inp)
          as [dm2 [ok|e]]; simpl in Hkeep, Hset, Hcases; simpl.
        -- split; [by repeat split|]. split.
           { intros _. destruct (AudioDeviceManager.find_device (device_manager s) out)
               as [d|]; [|contradiction]. rewrite Hfound.
             intros ty Hty. rewrite Hread, Hkeep by exact Hty. f_equal. exact (Hdm1 d eq_refl Hfound ty Hty). }
           split; [|discriminate].
           intros _ _. apply Hset. destruct Hcases as [Hc|Hc]; [exact Hc|discriminate].
        -- split; [by repeat split|]. split.
           { intros _. destruct (AudioDeviceManager.find_device (device_manager s) out)
               as [d|]; [|contradiction]. rewrite Hfound.
             intros ty Hty. rewrite Hread, Hkeep by exact Hty. f_equal. exact (Hdm1 d eq_refl Hfound ty Hty). }
           split; discriminate.
      * simpl. split; [by repeat split|]. split.
        { intros _. destruct (AudioDeviceManager.find_device (device_manager s) out)
            as [d|]; [|contradiction]. rewrite Hfound.
          intros ty Hty. rewrite Hread by exact Hty. f_equal. exact (Hdm1 d eq_refl Hfound ty Hty). }
        split; discriminate.
    + simpl. split; [by repeat split|]. split.
      { intros _. destruct (AudioDeviceManager.find_device (device_manager s) out) as [d|];
          [destruct (bool_decide (type d = Output))|].
        - destruct Hall; discriminate.
        - inversion Hall; subst. by split.
        - inversion Hall; subst. by split. }
      split; discriminate.
  - destruct (truthy inp) eqn:Einp.
    + destruct (Hmic (device_manager s)) as (Hkeep & Hset & Hcases).
      destruct (AudioDeviceManager.set_device_for_audio_type (device_manager s)
                  "microphone" inp) as [dm2 [ok|e]]; simpl in Hkeep, Hset, Hcases; simpl.
      * split; [by repeat split|]. split; [discriminate|]. split; [|discriminate].
        intros _ _. apply Hset. destruct Hcases as [Hc|Hc]; [exact Hc|discriminate].
      * split; [by repeat split|]. split; [discriminate|]. split; discriminate.
    + simpl. split; [by repeat split|]. split; [discriminate|].
      split; [discriminate|]. intros _ _. split; reflexivity.
Qed.

Lemma set_unified_device_mode_outcomes_witness :
  (forall ty, ty ∈ output_categories ->
     exists d, AudioDeviceManager.get_device_for_audio_type
                 (device_manager
                    (set_unified_device_mode Fixtures.fresh true (Some 3) (Some 7)).1) ty
               = Ok (Some d) /\ index d = 3)
  /\ (set_unified_device_mode Fixtures.fresh true (Some 3) (Some 7)).2 = Raise ValueError.
Proof.
  split; [|reflexivity].
  intros ty Hty.
  destruct (set_unified_device_mode_outcomes Fixtures.fresh (Some 3) (Some 7))
    as (_ & Hout & _).
  specialize (Hout eq_refl). simpl in Hout.
  eexists. split; [apply Hout; exact Hty|reflexivity].
Defined.

(** A switch to unified mode that fails on the output device leaves the
    mode on with that device stored: until the mode is set again every
    [create_route] for a category other than the microphone raises
    ValueError and stores nothing, whatever device it is given. *)
Theorem failed_unified_switch_blocks_output_routes (s : t) (out inp : option Z)
    (audio_type : string) (id : option Z) (bus : string) :
  truthy out = true ->
  (forall d, AudioDeviceManager.find_device (device_manager s) out = Some d ->
             type d <> Output) ->
  audio_type <> "microphone" ->
  let r := set_unified_device_mode s true out inp in
  r.2 = Raise ValueError
  /\ create_route r.1 audio_type id bus = (r.1, Raise ValueError).
Proof.
  intros Hout Hbad Hmic. cbv zeta.
  destruct output_categories_are_outputs as [Hne Houts].
  pose proof (assign_all_outputs output_categories out (device_manager s) Hne Houts) as Hall.
  assert (Hraise : assign_all (device_manager s) output_categories out
                   = (device_manager s, Raise ValueError)).
  { destruct (AudioDeviceManager.find_device (device_manager s) out) as [d|] eqn:Efind;
      [|exact Hall].
    destruct (bool_decide (type d = Output)) eqn:Edir; [|exact Hall].
    apply bool_decide_eq_true in Edir. by destruct (Hbad d eq_refl). }
  unfold set_unified_device_mode. simpl negb. cbv iota zeta. cbn [device_manager].
  rewrite Hout, Hraise. simpl. split; [reflexivity|].
  unfold create_route. simpl.
  rewrite (bool_decide_eq_false_2 (audio_type = "microphone")) by exact Hmic.
  simpl. rewrite Hout.
  destruct (set_device_for_audio_type_cases (device_manager s) audio_type out)
    as [[Hr _]|(d & Hfind & _ & _ & _ & Hdir & _)].
  - unfold with_device_manager. simpl.
    replace ({| AudioDeviceManager.devices := AudioDeviceManager.devices (device_manager s);
                AudioDeviceManager.active_devices :=
                  AudioDeviceManager.active_devices (device_manager s);
                AudioDeviceManager.session_routes :=
                  AudioDeviceManager.session_routes (device_manager s) |})
      with (device_manager s) by (by destruct (device_manager s)).
    rewrite Hr. reflexivity.
  - rewrite bool_decide_eq_false_2 in Hdir by exact Hmic. by destruct (Hbad d Hfind).
Qed.

Lemma failed_unified_switch_blocks_output_routes_witness :
  let r := set_unified_device_mode Fixtures.fresh true (Some 7) None in
  create_route Fixtures.fresh "game" (Some 2) "bus_game"
  = ((create_route Fixtures.fresh "game" (Some 2) "bus_game").1, Ok true)
  /\ r.2 = Raise ValueError
  /\ create_route r.1 "game" (Some 2) "bus_game" = (r.1, Raise ValueError).
Proof.
  intros r. split; [reflexivity|].
  apply (failed_unified_switch_blocks_output_routes Fixtures.fresh (Some 7) None
           "game" (Some 2) "bus_game").
  - reflexivity.
  - intros d Hd. discriminate Hd.
  - discriminate.
Defined.

(** *** Sessions *)

(** For an output category that has a device assigned,
    [set_session_category] returns True, records the override and routes
    the session to the index of that device.  The route is a copy taken
    at that moment: assigning the category another device afterwards
    does not move the session. *)
Theorem set_session_category_routes_session (s : t) (pid : Z) (category : string)
    (d : Device) :
  category ∈ output_categories ->
  AudioDeviceManager.get_device_for_audio_type (device_manager s) category = Ok (Some d) ->
  let r := set_session_category s pid category in
  r.2 = true
  /\ get_session_category r.1 pid = Some category
  /\ AudioDeviceManager.session_routes (device_manager r.1)
     = Some (<[pid := index d]>
               (default ∅ (AudioDeviceManager.session_routes (device_manager s))))
  /\ routes r.1 = routes s
  /\ forall id,
       AudioDeviceManager.session_routes
         (AudioDeviceManager.set_device_for_audio_type (device_manager r.1) category id).1
       = AudioDeviceManager.session_routes (device_manager r.1).
Proof.
  intros Hcat Hdev. cbv zeta.
  unfold set_session_category, get_session_category.
  rewrite bool_decide_eq_true_2 by exact Hcat. simpl negb. cbv iota.
  unfold route_session_to_category. simpl device_manager. rewrite Hdev.
  simpl. rewrite lookup_insert_eq. repeat (split; [reflexivity|]).
  intros id.
  match goal with
  | |- AudioDeviceManager.session_routes
         (AudioDeviceManager.set_device_for_audio_type ?dm _ _).1 = _ =>
      exact (proj1 (proj2 (set_device_for_audio_type_keeps dm category id)))
  end.
Qed.

Lemma set_session_category_routes_session_witness :
  let r := set_session_category Fixtures.shared_bus 4242 "chat" in
  r.2 = true
  /\ AudioDeviceManager.session_routes (device_manager r.1) = Some {[ 4242 := 2 ]}.
Proof.
  intros r.
  destruct (set_session_category_routes_session Fixtures.shared_bus 4242 "chat"
              {| index := 2; name := "Speakers"; channels := 2; type := Output;
                 sample_rate := 48000 |}) as (Hok & _ & Hroute & _).
  - unfold output_categories. list_mem.
  - reflexivity.
  - split; [exact Hok|exact Hroute].
Defined.

(** *** What the routing commands keep *)

Lemma find_device_devices (dm dm' : AudioDeviceManager.t) (id : option Z) :
  AudioDeviceManager.devices dm' = AudioDeviceManager.devices dm ->
  AudioDeviceManager.find_device dm' id = AudioDeviceManager.find_device dm id.
Proof. unfold AudioDeviceManager.find_device. by intros ->. Qed.

Lemma routes_valid_from (s s' : t) :
  routes_valid s ->
  AudioDeviceManager.well_directed (device_manager s') ->
  AudioDeviceManager.devices (device_manager s')
  = AudioDeviceManager.devices (device_manager s) ->
  (forall bus, is_Some (VirtualAudioRouter.get_virtual_device (virtual_router s) bus) ->
               is_Some (VirtualAudioRouter.get_virtual_device (virtual_router s') bus)) ->
  (forall audio_type id bus, routes s' !! audio_type = Some (id, bus) ->
     routes s !! audio_type = Some (id, bus)
     \/ (audio_type ∈ AudioDeviceManager.audio_types
         /\ is_Some (VirtualAudioRouter.get_virtual_device (virtual_router s') bus)
         /\ exists d, AudioDeviceManager.find_device (device_manager s) id = Some d
              /\ type d = (if bool_decide (audio_type = "microphone")
                           then Input else Output))) ->
  (forall pid category, session_categories s' !! pid = Some category ->
     session_categories s !! pid = Some category \/ category ∈ output_categories) ->
  (forall pid i,
     default ∅ (AudioDeviceManager.session_routes (device_manager s')) !! pid = Some i ->
     default ∅ (AudioDeviceManager.session_routes (device_manager s)) !! pid = Some i
     \/ exists d, d ∈ AudioDeviceManager.devices (device_manager s)
          /\ index d = i /\ type d = Output) ->
  routes_valid s'.
Proof.
  intros (Hwd & Hroutes & Hcats & Hsess) Hwd' Hdevs Hbuses Hr Hc Hs.
  split; [exact Hwd'|]. split; [|split].
  - intros ty id bus Hroute. rewrite (find_device_devices _ _ _ Hdevs).
    destruct (Hr ty id bus Hroute) as [Hold|Hnew]; [|exact Hnew].
    destruct (Hroutes ty id bus Hold) as (Hty & Hbus & Hd). auto.
  - intros pid category Hcat. destruct (Hc pid category Hcat) as [Hold|Hnew]; eauto.
  - intros pid i Hi. rewrite Hdevs. destruct (Hs pid i Hi) as [Hold|Hnew]; eauto.
Qed.

Lemma routing_step_keeps_valid (s : t) (c : call) : routes_valid s -> routes_valid (step s c).
Proof.
  intros Hvalid. pose proof Hvalid as (Hwd & Hroutes & Hcats & Hsess).
  destruct c as [enabled out inp|audio_type id bus|audio_type|pid category|]; simpl.
  - (* set_unified_device_mode *)
    unfold set_unified_device_mode. destruct enabled; simpl negb; cbv iota zeta.
    2:{ simpl. exact Hvalid. }
    cbn [device_manager].
    set (assigned := if truthy out then assign_all (device_manager s) output_categories out
                     else (device_manager s, Ok tt)).
    assert (Hkeep : AudioDeviceManager.devices assigned.1
                    = AudioDeviceManager.devices (device_manager s)
                    /\ AudioDeviceManager.session_routes assigned.1
                       = AudioDeviceManager.session_routes (device_manager s)
                    /\ AudioDeviceManager.well_directed assigned.1).
    { unfold assigned. destruct (truthy out); simpl; [|auto].
      destruct (assign_all_keeps output_categories out (device_manager s))
        as (H1 & H2 & H3). auto. }
    destruct assigned as [dm1 r1]. simpl in Hkeep. destruct Hkeep as (Hd1 & Hs1 & Hw1).
    assert (Hfinal : forall dm2,
      AudioDeviceManager.devices dm2 = AudioDeviceManager.devices (device_manager s) ->
      AudioDeviceManager.session_routes dm2
      = AudioDeviceManager.session_routes (device_manager s) ->
      AudioDeviceManager.well_directed dm2 ->
      forall e : result unit, routes_valid
        (with_device_manager
           {| device_manager := device_manager s; virtual_router := virtual_router s;
              routes := routes s; unified_device_mode := true;
              unified_output_device := out; unified_input_device := inp;
              session_categories := session_categories s |} dm2, e).1).
    { intros dm2 Hd2 Hs2 Hw2 e. simpl.
      apply (routes_valid_from s); simpl; auto.
      intros pid i. rewrite Hs2. auto. }
    destruct r1 as [[]|e]; [|by apply (Hfinal dm1 Hd1 Hs1 Hw1 (Raise e))].
    destruct (truthy inp); [|by apply (Hfinal dm1 Hd1 Hs1 Hw1 (Ok tt))].
    destruct (set_device_for_audio_type_keeps dm1 "microphone" inp) as (Hd2 & Hs2 & Hw2).
    destruct (AudioDeviceManager.set_device_for_audio_type dm1 "microphone" inp)
      as [dm2 [ok|e]]; simpl in Hd2, Hs2, Hw2.
    + apply (Hfinal dm2 (eq_trans Hd2 Hd1) (eq_trans Hs2 Hs1) (Hw2 Hw1) (Ok tt)).
    + apply (Hfinal dm2 (eq_trans Hd2 Hd1) (eq_trans Hs2 Hs1) (Hw2 Hw1) (Raise e)).
  - (* create_route *)
    unfold create_route.
    set (chosen := if unified_device_mode s then _ else id).
    destruct (set_device_for_audio_type_keeps (device_manager s) audio_type chosen)
      as (Hd1 & Hs1 & Hw1).
    destruct (set_device_for_audio_type_cases (device_manager s) audio_type chosen)
      as [[-> _]|(d & Hfind & _ & _ & Hty & Hdir & Hok)]; [exact Hvalid|].
    rewrite Hok in *. simpl in Hd1, Hs1, Hw1.
    unfold VirtualAudioRouter.get_virtual_device, VirtualAudioRouter.create_virtual_device.
    destruct (VirtualAudioRouter.virtual_devices (virtual_router s) !! bus) as [b|] eqn:Eb;
      simpl; apply (routes_valid_from s); simpl; auto.
    + intros ty id' bus' Hroute.
      destruct (decide (audio_type = ty)) as [<-|Hne].
      * rewrite lookup_insert_eq in Hroute. inversion Hroute; subst id' bus'.
        right. unfold VirtualAudioRouter.get_virtual_device. rewrite Eb. eauto.
      * rewrite lookup_insert_ne in Hroute by exact Hne. by left.
    + unfold VirtualAudioRouter.get_virtual_device. simpl. intros bus' Hbus'.
      destruct (decide (bus = bus')) as [<-|Hne];
        [rewrite lookup_insert_eq; eauto|by rewrite lookup_insert_ne].
    + intros ty id' bus' Hroute.
      destruct (decide (audio_type = ty)) as [<-|Hne].
      * rewrite lookup_insert_eq in Hroute. inversion Hroute; subst id' bus'.
        right. unfold VirtualAudioRouter.get_virtual_device. simpl.
        rewrite lookup_insert_eq. eauto.
      * rewrite lookup_insert_ne in Hroute by exact Hne. by left.
  - (* remove_route *)
    unfold remove_route. destruct (routes s !! audio_type) eqn:Er; [|exact Hvalid].
    simpl. apply (routes_valid_from s); simpl; auto.
    intros ty id bus Hroute. left.
    apply lookup_delete_Some in Hroute. tauto.
  - (* set_session_category *)
    unfold set_session_category.
    destruct (bool_decide (category ∈ output_categories)) eqn:Ecat; simpl negb; cbv iota;
      [|exact Hvalid].
    apply bool_decide_eq_true in Ecat.
    assert (Hover : forall pid' category',
              <[pid := category]> (session_categories s) !! pid' = Some category' ->
              session_categories s !! pid' = Some category'
              \/ category' ∈ output_categories).
    { intros pid' category' Hc. destruct (decide (pid = pid')) as [<-|Hne].
      - rewrite lookup_insert_eq in Hc. inversion Hc; subst. by right.
      - rewrite lookup_insert_ne in Hc by exact Hne. by left. }
    unfold route_session_to_category, AudioDeviceManager.get_device_for_audio_type.
    simpl device_manager.
    destruct (bool_decide (category ∈ AudioDeviceManager.audio_types)); simpl;
      [|apply (routes_valid_from s); simpl; auto].
    destruct (AudioDeviceManager.active_devices (device_manager s) !! category)
      as [dev|] eqn:Edev; simpl; apply (routes_valid_from s); simpl; auto.
    intros pid' i Hi. destruct (decide (pid = pid')) as [<-|Hne].
    + rewrite lookup_insert_eq in Hi. inversion Hi; subst i. right.
      destruct (Hwd category dev Edev) as (_ & Hin & Hdir).
      exists dev. split; [exact Hin|]. split; [reflexivity|].
      rewrite bool_decide_eq_false_2 in Hdir; [exact Hdir|].
      intros ->. unfold output_categories in Ecat. list_mem.
    + rewrite lookup_insert_ne in Hi by exact Hne. by left.
  - (* stop_routing *)
    unfold stop_routing. apply (routes_valid_from s); simpl; auto.
    unfold VirtualAudioRouter.get_virtual_device, VirtualAudioRouter.stop_all_devices.
    simpl. intros bus Hbus. rewrite lookup_fmap. destruct Hbus as [b ->]. by eexists.
Qed.

(** Whatever calls of [set_unified_device_mode], [create_route],
    [remove_route], [set_session_category] and [stop_routing] are made on
    a fresh routing system, and whether they return or raise: every
    stored route is for one of the five categories, through a bus that
    exists, from an enumerated device of the category's direction; every
    device assignment is to an enumerated device of the right direction;
    every session override names one of the four output categories; and
    every routed session goes to the index of an enumerated output
    device. *)
Theorem routing_calls_keep_routes_valid (devices : list Device) (calls : list call) :
  routes_valid (run (__init__ devices) calls).
Proof.
  unfold run.
  assert (Hinit : routes_valid (__init__ devices)).
  { split; [|split; [|split]]; simpl.
    - intros ty d Hd. simpl in Hd. by rewrite lookup_empty in Hd.
    - intros ty id bus Hr. by rewrite lookup_empty in Hr.
    - intros pid category Hc. by rewrite lookup_empty in Hc.
    - intros pid i Hi. by rewrite lookup_empty in Hi. }
  revert Hinit. generalize (__init__ devices).
  induction calls as [|c rest IH]; intros s0 Hs0; simpl; [exact Hs0|].
  apply IH, routing_step_keeps_valid, Hs0.
Qed.

End MoreRouting.
